(** * Strip-board scheduling engine: a shallow embedding and its properties

    The development follows the TypeScript sources of the scheduling core:
    - [parsePageCount] / [formatPageCount] (StripBoardTab.tsx, ReportsTab),
    - the reorder route (schedule/reorder/route.ts),
    - the day-break toggle and renumber routes,
    - the day grouping and Day-Out-of-Days matrix of the reports,
    - the shoot-date projection ([parseLocalDate], [addDays]). *)

From Stdlib Require Import ZArith QArith Qround Lqa Ascii String List Sorted.
From Stdlib Require Qcanon.
From stdpp Require Import base decidable list strings gmap sorting.
Import ListNotations.

Local Open Scope Z_scope.

(* ===================================================================== *)
(** * JavaScript numbers and strings, as far as the sources use them *)
(* ===================================================================== *)

Module JS.

(** A JavaScript number.  Finite values are kept as exact rationals: the
    model coincides with IEEE-754 doubles wherever every intermediate value
    is exactly representable (in particular for multiples of one eighth of
    moderate size, the page-count convention).  Rounding, overflow to
    Infinity and the sign of zero are not modelled. *)
Inductive number : Type :=
| NaN : number
| Inf (negative : bool) : number
| Fin (q : Q) : number.

(** Numbers compared up to the value of the rational. *)
Definition num_eq (a b : number) : Prop :=
  match a, b with
  | NaN, NaN => True
  | Inf s, Inf t => s = t
  | Fin p, Fin q => (p == q)%Q
  | _, _ => False
  end.

Definition isFinite (a : number) : bool :=
  match a with Fin _ => true | _ => false end.

Definition Qis_zero (q : Q) : bool := Z.eqb (Qnum q) 0.
Definition Qis_neg (q : Q) : bool := Z.ltb (Qnum q) 0.

(** [a + b] *)
Definition add (a b : number) : number :=
  match a, b with
  | NaN, _ | _, NaN => NaN
  | Inf s, Inf t => if Bool.eqb s t then Inf s else NaN
  | Inf s, Fin _ | Fin _, Inf s => Inf s
  | Fin p, Fin q => Fin (p + q)
  end.

(** [a - b] *)
Definition sub (a b : number) : number :=
  match a, b with
  | NaN, _ | _, NaN => NaN
  | Inf s, Inf t => if Bool.eqb s t then NaN else Inf s
  | Inf s, Fin _ => Inf s
  | Fin _, Inf s => Inf (negb s)
  | Fin p, Fin q => Fin (p - q)
  end.

(** [a * b] *)
Definition mul (a b : number) : number :=
  match a, b with
  | NaN, _ | _, NaN => NaN
  | Inf s, Inf t => Inf (xorb s t)
  | Inf s, Fin q | Fin q, Inf s =>
      if Qis_zero q then NaN else Inf (xorb s (Qis_neg q))
  | Fin p, Fin q => Fin (p * q)
  end.

(** [a / b]: a zero divisor gives NaN for 0/0 and an infinity otherwise. *)
Definition div (a b : number) : number :=
  match a, b with
  | NaN, _ | _, NaN => NaN
  | Inf _, Inf _ => NaN
  | Inf s, Fin q => Inf (xorb s (Qis_neg q))
  | Fin _, Inf _ => Fin 0
  | Fin p, Fin q =>
      if Qis_zero q then (if Qis_zero p then NaN else Inf (Qis_neg p))
      else Fin (p / q)
  end.

(** ToBoolean on a number: NaN and zero are falsy. *)
Definition truthy (a : number) : bool :=
  match a with
  | NaN => false
  | Inf _ => true
  | Fin q => negb (Qis_zero q)
  end.

(** [a || b] on numbers. *)
Definition or_else (a b : number) : number := if truthy a then a else b.

(** An integral number: what [Math.floor] and [Math.round] return. *)
Inductive integral : Type :=
| INaN : integral
| IInf (negative : bool) : integral
| IInt (z : Z) : integral.

Definition of_integral (i : integral) : number :=
  match i with
  | INaN => NaN
  | IInf s => Inf s
  | IInt z => Fin (inject_Z z)
  end.

Definition Math_floor (a : number) : integral :=
  match a with
  | NaN => INaN
  | Inf s => IInf s
  | Fin q => IInt (Qfloor q)
  end.

(** [Math.round]: nearest integer, halves towards +Infinity. *)
Definition Math_round (a : number) : integral :=
  match a with
  | NaN => INaN
  | Inf s => IInf s
  | Fin q => IInt (Qfloor (q + (1 # 2)))
  end.

(** [i === z] for an integer literal [z]. *)
Definition strict_eq_int (i : integral) (z : Z) : bool :=
  match i with
  | IInt y => Z.eqb y z
  | _ => false
  end.

(** ** Strings as lists of characters *)

Definition str := list ascii.

Definition chr (n : nat) : ascii := ascii_of_nat n.
Definition code (c : ascii) : Z := Z.of_nat (nat_of_ascii c).

(** White space and line terminators of the ASCII range. *)
Definition is_ws (c : ascii) : bool :=
  let n := code c in
  ((9 <=? n) && (n <=? 13)) || (n =? 32).

Fixpoint trimStart (l : str) : str :=
  match l with
  | [] => []
  | c :: r => if is_ws c then trimStart r else l
  end.

(** [s.trim()] *)
Definition trim (l : str) : str := rev (trimStart (rev (trimStart l))).

(** [s.split(sep)] for a one-character separator. *)
Fixpoint split_go (sep : ascii) (cur : str) (l : str) : list str :=
  match l with
  | [] => [rev cur]
  | c :: r =>
      if Ascii.eqb c sep then rev cur :: split_go sep [] r
      else split_go sep (c :: cur) r
  end.

Definition split (sep : ascii) (l : str) : list str := split_go sep [] l.

(** [s.includes(c)] for a one-character needle. *)
Definition includes (c : ascii) (l : str) : bool := existsb (Ascii.eqb c) l.

(** ** Number to string, for integral numbers *)

Definition digit_char (d : Z) : ascii := chr (Z.to_nat (48 + d)).

Fixpoint digits_go (fuel : nat) (n : Z) (acc : str) : str :=
  match fuel with
  | O => acc
  | S f =>
      let acc' := digit_char (n mod 10) :: acc in
      if n <? 10 then acc' else digits_go f (n / 10) acc'
  end.

(** Decimal digits of a non-negative integer, most significant first. *)
Definition digits (n : Z) : str :=
  digits_go (S (Z.to_nat (Z.log2 n))) n [].

Definition Z_toString (z : Z) : str :=
  if z <? 0 then "-"%char :: digits (- z) else digits z.

(** [String(i)] for an integral number (below 10^21 in magnitude, where
    JavaScript prints plain decimal digits). *)
Definition toString (i : integral) : str :=
  match i with
  | INaN => list_ascii_of_string "NaN"
  | IInf false => list_ascii_of_string "Infinity"
  | IInf true => list_ascii_of_string "-Infinity"
  | IInt z => Z_toString z
  end.

(** ** String to number: [Number(s)] *)

Definition dec_digit (c : ascii) : option Z :=
  let n := code c in
  if (48 <=? n) && (n <=? 57) then Some (n - 48) else None.

(** A decimal digit character. *)
Definition isdig (c : ascii) : bool := (48 <=? code c) && (code c <=? 57).

Definition hex_digit (c : ascii) : option Z :=
  let n := code c in
  if (48 <=? n) && (n <=? 57) then Some (n - 48)
  else if (65 <=? n) && (n <=? 70) then Some (n - 55)
  else if (97 <=? n) && (n <=? 102) then Some (n - 87)
  else None.

Definition oct_digit (c : ascii) : option Z :=
  let n := code c in
  if (48 <=? n) && (n <=? 55) then Some (n - 48) else None.

Definition bin_digit (c : ascii) : option Z :=
  let n := code c in
  if (48 <=? n) && (n <=? 49) then Some (n - 48) else None.

Fixpoint digits_acc (base : Z) (dv : ascii -> option Z) (l : str) (acc : Z)
  : option Z :=
  match l with
  | [] => Some acc
  | c :: r =>
      match dv c with
      | Some d => digits_acc base dv r (acc * base + d)
      | None => None
      end
  end.

(** A non-empty run of digits in the given base. *)
Definition parse_digits (base : Z) (dv : ascii -> option Z) (l : str)
  : option Z :=
  match l with
  | [] => None
  | _ => digits_acc base dv l 0
  end.

(** Cut a string at the first character satisfying [p]. *)
Fixpoint cut (p : ascii -> bool) (l : str) : str * option str :=
  match l with
  | [] => ([], None)
  | c :: r =>
      if p c then ([], Some r)
      else let '(a, b) := cut p r in (c :: a, b)
  end.

Definition is_e (c : ascii) : bool := (code c =? 101) || (code c =? 69).
Definition is_dot (c : ascii) : bool := code c =? 46.

(** An optional sign: [true] for a minus. *)
Definition take_sign (l : str) : bool * str :=
  match l with
  | c :: r =>
      if code c =? 45 then (true, r)
      else if code c =? 43 then (false, r)
      else (false, l)
  | [] => (false, [])
  end.

Definition pow10 (e : Z) : Q :=
  if e <? 0 then 1 # Z.to_pos (10 ^ (- e)) else inject_Z (10 ^ e).

(** StrUnsignedDecimalLiteral without the Infinity case:
    digits, optional fraction, optional exponent. *)
Definition unsigned_decimal (l : str) : option Q :=
  let '(mant, ex) := cut is_e l in
  let '(ip, fp) := cut is_dot mant in
  let exponent :=
    match ex with
    | None => Some 0
    | Some e =>
        let '(neg, ds) := take_sign e in
        match parse_digits 10 dec_digit ds with
        | Some v => Some (if neg then - v else v)
        | None => None
        end
    end in
  let mantissa :=
    match fp with
    | None =>
        match parse_digits 10 dec_digit ip with
        | Some m => Some (inject_Z m)
        | None => None
        end
    | Some f =>
        match ip, f with
        | [], [] => None
        | _, _ =>
            match digits_acc 10 dec_digit (ip ++ f) 0 with
            | Some m => Some (inject_Z m * pow10 (- Z.of_nat (length f)))%Q
            | None => None
            end
        end
    end in
  match mantissa, exponent with
  | Some m, Some e => Some (m * pow10 e)%Q
  | _, _ => None
  end.

(** NonDecimalIntegerLiteral: 0x.., 0o.., 0b.. (no sign allowed). *)
Definition nondecimal (l : str) : option (option Z) :=
  match l with
  | z :: x :: r =>
      if code z =? 48 then
        if (code x =? 120) || (code x =? 88) then Some (parse_digits 16 hex_digit r)
        else if (code x =? 111) || (code x =? 79) then Some (parse_digits 8 oct_digit r)
        else if (code x =? 98) || (code x =? 66) then Some (parse_digits 2 bin_digit r)
        else None
      else None
  | _ => None
  end.

Definition str_eqb (a b : str) : bool :=
  bool_decide (a = b).

(** [Number(s)] on a string (StringToNumber). *)
Definition Number (s : str) : number :=
  let l := trim s in
  match l with
  | [] => Fin 0
  | _ =>
      match nondecimal l with
      | Some (Some z) => Fin (inject_Z z)
      | Some None => NaN
      | None =>
          let '(neg, body) := take_sign l in
          if str_eqb body (list_ascii_of_string "Infinity") then Inf neg
          else
            match unsigned_decimal body with
            | Some q => Fin (if neg then - q else q)%Q
            | None => NaN
            end
      end
  end.

End JS.

(* ===================================================================== *)
(** * Page counts (StripBoardTab.tsx and the reports) *)
(* ===================================================================== *)

Module PageCount.
Import JS.

(** One token of the page count: [num / denom] for a token with a slash,
    [Number(part) || 0] otherwise. *)
Definition token_value (part : str) : number :=
  if includes "/"%char part then
    let nums := map Number (split "/"%char part) in
    let num := nth 0 nums NaN in
    let denom := nth 1 nums NaN in
    div num denom
  else or_else (Number part) (Fin 0).

(** The loop [for (const part of parts) total += ...]. *)
Definition sum_tokens (parts : list str) : number :=
  fold_left (fun total part => add total (token_value part)) parts (Fin 0).

(** [parsePageCount(pageCount: string | null)]; [None] is [null]. *)
Definition parsePageCount (pageCount : option string) : number :=
  match pageCount with
  | None => Fin 0
  | Some s =>
      match list_ascii_of_string s with
      | [] => Fin 0
      | l => sum_tokens (split " "%char (trim l))
      end
  end.

(** [Math.floor(pages)] and [Math.round(fraction * 8)] on a finite page
    count. *)
Definition whole_of (p : Q) : Z := Qfloor p.
Definition eighths_of (p : Q) : Z :=
  Qfloor ((p - inject_Z (Qfloor p)) * 8 + (1 # 2)).

(** [formatPageCount(pages: number)] *)
Definition formatPageCount (pages : number) : string :=
  let whole := Math_floor pages in
  let fraction := sub pages (of_integral whole) in
  let eighths := Math_round (mul fraction (Fin 8)) in
  string_of_list_ascii
    (if strict_eq_int eighths 0 then toString whole
     else if strict_eq_int whole 0 then
       toString eighths ++ list_ascii_of_string "/8"
     else
       toString whole ++ " "%char :: toString eighths
         ++ list_ascii_of_string "/8").

End PageCount.

(* ===================================================================== *)
(** * The persisted tables (prisma/migrations/.../migration.sql) *)
(* ===================================================================== *)

Module Db.

(** Table "Schedule": one row per project (unique index on projectId). *)
Record Schedule : Type := mkSchedule {
  schedule_id : string;
  projectId : string;
  startDate : option string
}.

(** Table "StripSlot": primary key [id], INTEGER [position]. *)
Record StripSlot : Type := mkStripSlot {
  strip_id : string;
  strip_scheduleId : string;
  breakdownId : string;
  position : Z
}.

(** Table "DayBreak": primary key [id], unique index on
    (scheduleId, afterPosition), INTEGER [afterPosition] and [dayNumber]. *)
Record DayBreak : Type := mkDayBreak {
  db_id : string;
  db_scheduleId : string;
  afterPosition : Z;
  dayNumber : Z;
  shootDate : option string;
  notes : option string
}.

Record Database : Type := mkDatabase {
  schedules : list Schedule;
  stripSlots : list StripSlot;
  dayBreaks : list DayBreak
}.

(** A value of the JSON request body. *)
Inductive json : Type :=
| JUndefined : json
| JNull : json
| JBool (b : bool) : json
| JNum (q : Q) : json
| JStr (s : string) : json
| JObject : json.

(** What [auth()] and [getProjectAccess] report about the caller. *)
Record Caller : Type := mkCaller {
  session_user : option string;
  hasAccess : bool;
  canEdit : bool;
  isOwner : bool
}.

(** The caller may edit the project. *)
Definition authorised (caller : Caller) : Prop :=
  is_Some (session_user caller) /\ hasAccess caller = true
  /\ (canEdit caller = true \/ isOwner caller = true).

(** An integral JSON number, as an INTEGER column or filter needs it. *)
Definition as_Int (q : Q) : option Z :=
  if Z.eqb (Z.pos (Qden (Qred q))) 1 then Some (Qnum (Qred q)) else None.

(** [prisma.schedule.findUnique({ where: { projectId } })] *)
Definition schedule_findUnique (pid : string) (d : Database) : option Schedule :=
  find (fun s => String.eqb (projectId s) pid) (schedules d).

Definition in_schedule (sid : string) (s : StripSlot) : bool :=
  String.eqb (strip_scheduleId s) sid.

(** [prisma.stripSlot.findFirst({ where: { id, scheduleId } })] *)
Definition stripSlot_findFirst (id sid : string) (t : list StripSlot)
  : option StripSlot :=
  find (fun s => String.eqb (strip_id s) id && in_schedule sid s) t.

Definition max_opt (a : option Z) (x : Z) : option Z :=
  match a with
  | None => Some x
  | Some m => Some (Z.max m x)
  end.

(** [aggregate({ where: { scheduleId }, _max: { position: true } })];
    [None] is the null of an empty selection. *)
Definition stripSlot_maxPosition (sid : string) (t : list StripSlot)
  : option Z :=
  fold_left max_opt (map position (filter (fun s => in_schedule sid s = true) t)) None.

(** [x || dflt] on a nullable integer: null and 0 are falsy. *)
Definition int_or (x : option Z) (dflt : Z) : Z :=
  match x with
  | None => dflt
  | Some v => if Z.eqb v 0 then dflt else v
  end.

Definition set_position (p : Z) (s : StripSlot) : StripSlot :=
  {| strip_id := strip_id s; strip_scheduleId := strip_scheduleId s;
     breakdownId := breakdownId s; position := p |}.

(** [updateMany({ where: { scheduleId, position: <range> },
                  data: { position: { increment: delta } } })] *)
Definition stripSlot_updateMany (sid : string) (sel : Z -> bool) (delta : Z)
    (t : list StripSlot) : list StripSlot :=
  map (fun s => if in_schedule sid s && sel (position s)
                then set_position (position s + delta) s else s) t.

(** [update({ where: { id }, data: { position } })] *)
Definition stripSlot_update (id : string) (p : Z) (t : list StripSlot)
  : list StripSlot :=
  map (fun s => if String.eqb (strip_id s) id then set_position p s else s) t.

Fixpoint insert_by {A} (key : A -> Z) (x : A) (l : list A) : list A :=
  match l with
  | [] => [x]
  | y :: r => if key x <? key y then x :: l else y :: insert_by key x r
  end.

(** [orderBy: { <key>: "asc" }], as a stable insertion sort. *)
Definition orderBy {A} (key : A -> Z) (l : list A) : list A :=
  fold_right (insert_by key) [] l.

(** Ascending order of the keys. *)
Definition key_le {A} (key : A -> Z) (a b : A) : Prop := key a <= key b.

Definition db_in_schedule (sid : string) (b : DayBreak) : bool :=
  String.eqb (db_scheduleId b) sid.

(** [prisma.dayBreak.findMany({ where: { scheduleId },
                                orderBy: { afterPosition: "asc" } })] *)
Definition dayBreak_findMany (sid : string) (t : list DayBreak) : list DayBreak :=
  orderBy afterPosition (filter (fun b => db_in_schedule sid b = true) t).

(** [findUnique({ where: { scheduleId_afterPosition: {..} } })] *)
Definition dayBreak_findUnique (sid : string) (p : Z) (t : list DayBreak)
  : option DayBreak :=
  find (fun b => db_in_schedule sid b && Z.eqb (afterPosition b) p) t.

(** [delete({ where: { id } })] *)
Definition dayBreak_delete (id : string) (t : list DayBreak) : list DayBreak :=
  filter (fun b => String.eqb (db_id b) id = false) t.

(** [aggregate({ where: { scheduleId }, _max: { dayNumber: true } })] *)
Definition dayBreak_maxDayNumber (sid : string) (t : list DayBreak) : option Z :=
  fold_left max_opt (map dayNumber (filter (fun b => db_in_schedule sid b = true) t)) None.

Definition set_dayNumber (n : Z) (b : DayBreak) : DayBreak :=
  {| db_id := db_id b; db_scheduleId := db_scheduleId b;
     afterPosition := afterPosition b; dayNumber := n;
     shootDate := shootDate b; notes := notes b |}.

(** [update({ where: { id }, data: { dayNumber } })] *)
Definition dayBreak_update (id : string) (n : Z) (t : list DayBreak)
  : list DayBreak :=
  map (fun b => if String.eqb (db_id b) id then set_dayNumber n b else b) t.

Definition with_stripSlots (d : Database) (t : list StripSlot) : Database :=
  {| schedules := schedules d; stripSlots := t; dayBreaks := dayBreaks d |}.

Definition with_dayBreaks (d : Database) (t : list DayBreak) : Database :=
  {| schedules := schedules d; stripSlots := stripSlots d; dayBreaks := t |}.

(** The positions of the strips of one schedule, in table order. *)
Definition positions (sid : string) (d : Database) : list Z :=
  map position (filter (fun s => in_schedule sid s = true) (stripSlots d)).

(** Position density: the positions are exactly 1..N, each once. *)
Definition dense (sid : string) (d : Database) : Prop :=
  positions sid d ≡ₚ seqZ 1 (Z.of_nat (length (positions sid d))).

(** Where the strip at position [p] ends up when the strip at [old] moves
    to [new]: positions in (old, new] go down by one when moving later,
    positions in [new, old) go up by one when moving earlier, and the moved
    strip lands on [new]. *)
Definition moved_position (old new p : Z) : Z :=
  if p =? old then new
  else if old <? new then
    (if (old <? p) && (p <=? new) then p - 1 else p)
  else
    (if (new <=? p) && (p <? old) then p + 1 else p).

(** The primary key of StripSlot. *)
Definition strip_pk (d : Database) : Prop := NoDup (map strip_id (stripSlots d)).

(** The primary key of DayBreak. *)
Definition dayBreak_pk (d : Database) : Prop := NoDup (map db_id (dayBreaks d)).

(** The unique index on DayBreak (scheduleId, afterPosition). *)
Definition dayBreak_unique (d : Database) : Prop :=
  NoDup (map (fun b => (db_scheduleId b, afterPosition b)) (dayBreaks d)).

(** The afterPosition values of the day breaks of one schedule. *)
Definition afterPositions (sid : string) (d : Database) : list Z :=
  map afterPosition (filter (fun b => db_in_schedule sid b = true) (dayBreaks d)).

End Db.

(* ===================================================================== *)
(** * POST /api/projects/[id]/schedule/reorder *)
(* ===================================================================== *)

Module Reorder.
Import Db.

Inductive response : Type :=
| Error (status : Z) (error : string)
| NoChange                               (* 200, "No change needed" *)
| Updated (strips : list StripSlot).     (* 200, the updated schedule *)

Definition status_of (r : response) : Z :=
  match r with
  | Error st _ => st
  | NoChange => 200
  | Updated _ => 200
  end.

(** The transaction body, for an integral [newPosition].  The position
    column and its filters are Int; what becomes of a non-integral number
    is the store client's affair and not the handler's: a client that
    refuses it throws before any row is written and the exception reaches
    the handler's catch (as here), a client that truncates it moves the
    strip to the truncated position. *)
Definition transaction (sid stripId : string) (oldPosition : Z) (newPosition : Q)
    (t : list StripSlot) : option (list StripSlot) :=
  match as_Int newPosition with
  | None => None
  | Some np =>
      let t1 :=
        if oldPosition <? np then
          stripSlot_updateMany sid
            (fun p => (oldPosition <? p) && (p <=? np)) (-1) t
        else
          stripSlot_updateMany sid
            (fun p => (np <=? p) && (p <? oldPosition)) 1 t in
      Some (stripSlot_update stripId np t1)
  end.


(** The handler, after [request.json()] gave [stripId] and [newPosition]. *)
Definition POST (caller : Caller) (pid : string) (stripId newPosition : json)
    (d : Database) : response * Database :=
  match session_user caller with
  | None => (Error 401 "Unauthorized", d)
  | Some _ =>
  if negb (hasAccess caller) then
    (Error 404 "Project not found or access denied", d)
  else if negb (canEdit caller) && negb (isOwner caller) then
    (Error 403 "You don't have permission to reorder the schedule", d)
  else
  match stripId with
  | JStr (String c id') =>
      let id := String c id' in
      match newPosition with
      | JNum np =>
          if Qlt_le_dec np 1 then
            (Error 400 "newPosition must be a positive number", d)
          else
          match schedule_findUnique pid d with
          | None => (Error 404 "Schedule not found", d)
          | Some schedule =>
              let sid := schedule_id schedule in
              match stripSlot_findFirst id sid (stripSlots d) with
              | None => (Error 404 "Strip not found", d)
              | Some strip =>
                  let oldPosition := position strip in
                  if Qeq_bool (inject_Z oldPosition) np then (NoChange, d)
                  else
                    let maxPosition := stripSlot_maxPosition sid (stripSlots d) in
                    if Qlt_le_dec (inject_Z (int_or maxPosition 1)) np then
                      (Error 400 "newPosition exceeds the number of strips", d)
                    else
                      match transaction sid id oldPosition np (stripSlots d) with
                      | None => (Error 500 "Failed to reorder schedule", d)
                      | Some t' =>
                          let d' := with_stripSlots d t' in
                          (Updated
                             (orderBy position
                                (filter (fun s => in_schedule sid s = true) t')),
                           d')
                      end
              end
          end
      | _ => (Error 400 "newPosition must be a positive number", d)
      end
  | _ => (Error 400 "stripId is required", d)
  end
  end.

(** A sequence of reorder requests (stripId, newPosition) on one project,
    each applied to the database the previous one left. *)
Definition reorders (caller : Caller) (pid : string)
    (requests : list (json * json)) (d : Database) : Database :=
  fold_left (fun d req => snd (POST caller pid (fst req) (snd req) d)) requests d.

End Reorder.

(* ===================================================================== *)
(** * POST /api/projects/[id]/schedule/daybreaks (toggle) *)
(* ===================================================================== *)

Module Toggle.
Import Db.

Inductive response : Type :=
| Error (status : Z) (error : string)
| Deleted (dayBreak : DayBreak)          (* 200, action "deleted" *)
| Created (dayBreak : DayBreak).         (* 201, action "created" *)

Definition status_of (r : response) : Z :=
  match r with
  | Error st _ => st
  | Deleted _ => 200
  | Created _ => 201
  end.

(** The handler; [newId] is the identifier the store generates for a created
    row (the column default).  It is modelled for an integral
    [afterPosition] within the 32-bit range of the INTEGER columns
    afterPosition and dayNumber: what becomes of a non-integral number is
    the store client's affair (one that refuses it throws into the catch,
    as here; one that truncates it toggles at the truncated position), and
    a value beyond 2147483647 is refused by the store and answered 500
    with nothing written. *)
Definition POST (caller : Caller) (pid : string) (afterPos : json)
    (newId : string) (d : Database) : response * Database :=
  match session_user caller with
  | None => (Error 401 "Unauthorized", d)
  | Some _ =>
  if negb (hasAccess caller) then
    (Error 404 "Project not found or access denied", d)
  else if negb (canEdit caller) && negb (isOwner caller) then
    (Error 403 "You don't have permission to manage day breaks", d)
  else
  match afterPos with
  | JNum ap =>
      if Qlt_le_dec ap 0 then
        (Error 400 "afterPosition must be a non-negative number", d)
      else
      match schedule_findUnique pid d with
      | None => (Error 404 "Schedule not found", d)
      | Some schedule =>
          let sid := schedule_id schedule in
          match as_Int ap with
          | None => (Error 500 "Failed to toggle day break", d)
          | Some p =>
              match dayBreak_findUnique sid p (dayBreaks d) with
              | Some existingDayBreak =>
                  (Deleted existingDayBreak,
                   with_dayBreaks d
                     (dayBreak_delete (db_id existingDayBreak) (dayBreaks d)))
              | None =>
                  let maxDayNumber := dayBreak_maxDayNumber sid (dayBreaks d) in
                  let nextDayNumber := int_or maxDayNumber 0 + 1 in
                  let newDayBreak :=
                    {| db_id := newId; db_scheduleId := sid;
                       afterPosition := p; dayNumber := nextDayNumber;
                       shootDate := None; notes := None |} in
                  (Created newDayBreak,
                   with_dayBreaks d (dayBreaks d ++ [newDayBreak]))
              end
          end
      end
  | _ => (Error 400 "afterPosition must be a non-negative number", d)
  end
  end.

End Toggle.

(* ===================================================================== *)
(** * POST /api/projects/[id]/schedule/daybreaks/renumber *)
(* ===================================================================== *)

Module Renumber.
Import Db.

Inductive response : Type :=
| Error (status : Z) (error : string)
| Renumbered (dayBreaks : list DayBreak).

Definition status_of (r : response) : Z :=
  match r with
  | Error st _ => st
  | Renumbered _ => 200
  end.

(** [dayBreaks.map((db, index) => update({ where: { id: db.id },
      data: { dayNumber: index + 1 } }))], run in order. *)
Fixpoint run_updates (index : Z) (fetched : list DayBreak) (t : list DayBreak)
  : list DayBreak :=
  match fetched with
  | [] => t
  | b :: rest =>
      run_updates (index + 1) rest (dayBreak_update (db_id b) (index + 1) t)
  end.

(** Position (0-based) of the day break with identifier [id] among the
    fetched ones. *)
Fixpoint rank_in (id : string) (fetched : list DayBreak) : option Z :=
  match fetched with
  | [] => None
  | b :: rest =>
      if String.eqb (db_id b) id then Some 0
      else option_map Z.succ (rank_in id rest)
  end.

(** A row after renumbering: its day number is its 1-based rank. *)
Definition renumber_row (k : Z) (fetched : list DayBreak) (b : DayBreak)
  : DayBreak :=
  match rank_in (db_id b) fetched with
  | Some i => set_dayNumber (k + i + 1) b
  | None => b
  end.

Definition POST (caller : Caller) (pid : string) (d : Database)
  : response * Database :=
  match session_user caller with
  | None => (Error 401 "Unauthorized", d)
  | Some _ =>
  if negb (hasAccess caller) then
    (Error 404 "Project not found or access denied", d)
  else if negb (canEdit caller) && negb (isOwner caller) then
    (Error 403 "You don't have permission to manage day breaks", d)
  else
  match schedule_findUnique pid d with
  | None => (Error 404 "Schedule not found", d)
  | Some schedule =>
      let sid := schedule_id schedule in
      let fetched := dayBreak_findMany sid (dayBreaks d) in
      let t' := run_updates 0 fetched (dayBreaks d) in
      let renumbered := dayBreak_findMany sid t' in
      (Renumbered renumbered, with_dayBreaks d t')
  end
  end.

End Renumber.

(* ===================================================================== *)
(** * The schedule as the client receives it (hooks/useSchedule.ts) *)
(* ===================================================================== *)

Module Client.

Record BreakdownCast : Type := mkCast { characterId : string }.

Record BreakdownSheet : Type := mkBreakdown {
  sceneNumbers : string;
  pageCount : option string;
  cast : list BreakdownCast
}.

Record StripSlot : Type := mkStrip {
  id : string;
  position : Z;
  breakdown : BreakdownSheet
}.

Record Schedule : Type := mkSchedule {
  startDate : option string;
  stripSlots : list StripSlot;
  dayBreaks : list Db.DayBreak
}.

Record Character : Type := mkCharacter {
  char_id : string;
  number : Z;
  name : string
}.

(** [new Map(schedule.dayBreaks.map((db) => [db.afterPosition, db]))]:
    a later entry replaces an earlier one with the same key. *)
Definition dayBreakMap (dbs : list Db.DayBreak) : gmap Z Db.DayBreak :=
  fold_left (fun m b => <[Db.afterPosition b := b]> m) dbs ∅.

(** [dayBreakMap.has(p)] *)
Definition has (m : gmap Z Db.DayBreak) (p : Z) : bool :=
  match m !! p with Some _ => true | None => false end.

End Client.

(* ===================================================================== *)
(** * Grouping strips by day (generateDOODPDF, DOODTab) *)
(* ===================================================================== *)

Module Segments.
Import Client.

(** One turn of [strips.forEach]: push the strip on the current day and
    close the day when a break follows the strip's position. *)
Definition group_step (m : gmap Z Db.DayBreak)
    (st : list (list StripSlot) * list StripSlot) (strip : StripSlot)
  : list (list StripSlot) * list StripSlot :=
  let '(days, currentDayStrips) := st in
  let currentDayStrips := currentDayStrips ++ [strip] in
  if has m (position strip) then (days ++ [currentDayStrips], [])
  else (days, currentDayStrips).

(** The day segments: the [days] array after the loop and the trailing
    push of a non-empty current day. *)
Definition groupStripsByDay (strips : list StripSlot) (dbs : list Db.DayBreak)
  : list (list StripSlot) :=
  let m := dayBreakMap dbs in
  let '(days, currentDayStrips) := fold_left (group_step m) strips ([], []) in
  if (0 <? length currentDayStrips)%nat then days ++ [currentDayStrips]
  else days.

End Segments.

(* ===================================================================== *)
(** * Day Out of Days (DOODTab, generateDOODPDF) *)
(* ===================================================================== *)

Module DOOD.
Import Client.

(** [dayStrips.some((s) => s.breakdown.cast.some((c) =>
      c.characterId === char.id))] *)
Definition worksToday (char : Character) (dayStrips : list StripSlot) : bool :=
  existsb (fun s =>
    existsb (fun c => String.eqb (characterId c) (char_id char))
            (cast (breakdown s))) dayStrips.

(** The mutable state of the scan over the days. *)
Record scan : Type := mkScan {
  status : list string;
  hasStarted : bool;
  lastWorkDay : Z
}.

(** One turn of [days.forEach((dayStrips, dayIndex) => ...)]. *)
Definition scan_step (char : Character) (st : scan)
    (day : Z * list StripSlot) : scan :=
  let '(dayIndex, dayStrips) := day in
  if worksToday char dayStrips then
    if negb (hasStarted st) then
      mkScan (status st ++ ["SW"%string]) true dayIndex
    else
      mkScan (status st ++ ["W"%string]) (hasStarted st) dayIndex
  else if hasStarted st then
    mkScan (status st ++ ["H"%string]) (hasStarted st) (lastWorkDay st)
  else
    mkScan (status st ++ [""%string]) (hasStarted st) (lastWorkDay st).

(** The days paired with their indices 0, 1, ... *)
Definition indexed {A} (l : list A) : list (Z * A) :=
  combine (seqZ 0 (Z.of_nat (length l))) l.

(** [status[i]] read: [None] is undefined. *)
Definition array_get (a : list string) (i : Z) : option string :=
  if i <? 0 then None else a !! Z.to_nat i.

(** [status[i] = v] for an index inside the array (the only case the scan
    produces, see [lastWorkDay_in_range]). *)
Definition array_set (a : list string) (i : Z) (v : string) : list string :=
  <[Z.to_nat i := v]> a.

(** [for (let i = lastWorkDay + 1; i < status.length; i++) status[i] = ""] *)
Definition clear_after (a : list string) (lastWorkDay : Z) : list string :=
  fold_left (fun a i => array_set a i ""%string)
            (seqZ (lastWorkDay + 1) (Z.of_nat (length a) - (lastWorkDay + 1))) a.

(** The status row of one character. *)
Definition statuses (char : Character) (days : list (list StripSlot))
  : list string :=
  let st := fold_left (scan_step char) (indexed days) (mkScan [] false (-1)) in
  let a := status st in
  let last := lastWorkDay st in
  let a :=
    if (0 <=? last) && negb (bool_decide (array_get a last = Some "SW"%string))
    then array_set a last "WF"%string
    else if 0 <=? last then array_set a last "SWF"%string
    else a in
  clear_after a last.

(** [["W", "SW", "WF", "SWF"].includes(s)] *)
Definition is_work (s : string) : bool :=
  existsb (String.eqb s) ["W"; "SW"; "WF"; "SWF"]%string.

(** [statuses.filter(...).length] *)
Definition workDays (a : list string) : nat :=
  length (List.filter is_work a).

(** The whole matrix row, from the schedule. *)
Definition dood_row (char : Character) (schedule : Schedule)
  : list string * nat :=
  let days := Segments.groupStripsByDay (stripSlots schedule) (dayBreaks schedule) in
  let a := statuses char days in
  (a, workDays a).

(** ** The reference algorithm of the specification

    Scanning the segments in order: a working segment gets Start-Work if
    the member has not started, else Work; a non-working segment gets Hold
    after the first work and blank before it.  Then the last working
    segment is promoted and everything after it is blank. *)

Fixpoint spec_scan (started : bool) (works : list bool) : list string :=
  match works with
  | [] => []
  | true :: r => (if started then "W" else "SW")%string :: spec_scan true r
  | false :: r => (if started then "H" else "")%string :: spec_scan started r
  end.

(** Index of the last working segment, if any. *)
Fixpoint last_work_index (works : list bool) : option nat :=
  match works with
  | [] => None
  | w :: r =>
      match last_work_index r with
      | Some k => Some (S k)
      | None => if w then Some O else None
      end
  end.

(** Promotion of the last working segment and blanking after it. *)
Definition spec_finish (k : nat) (scanned : list string) : list string :=
  imap (fun i s =>
          if (i <? k)%nat then s
          else if (i =? k)%nat then
            (if String.eqb s "SW" then "SWF" else "WF")%string
          else ""%string) scanned.

(** Index of the last working day as the scan records it, counting from
    [k]; [dflt] when there is none. *)
Definition last_or (works : list bool) (dflt : Z) (k : Z) : Z :=
  match last_work_index works with
  | Some j => k + Z.of_nat j
  | None => dflt
  end.

Definition spec_statuses (works : list bool) : list string :=
  let scanned := spec_scan false works in
  match last_work_index works with
  | Some k => spec_finish k scanned
  | None => scanned
  end.

Definition spec_workDays (a : list string) : nat :=
  length (List.filter (fun s => bool_decide (s ∈ ["SW"; "W"; "WF"; "SWF"]%string)) a).

End DOOD.

(* ===================================================================== *)
(** * Dates: the ECMAScript time functions the sources rely on *)
(* ===================================================================== *)

Module Date.

Definition msPerDay : Z := 86400000.
Definition msPerHour : Z := 3600000.
Definition msPerMinute : Z := 60000.
Definition msPerSecond : Z := 1000.

Definition Day (t : Z) : Z := t / msPerDay.
Definition TimeWithinDay (t : Z) : Z := t mod msPerDay.

Definition DaysInYear (y : Z) : Z :=
  if negb (y mod 4 =? 0) then 365
  else if negb (y mod 100 =? 0) then 366
  else if negb (y mod 400 =? 0) then 365
  else 366.

Definition DayFromYear (y : Z) : Z :=
  365 * (y - 1970) + (y - 1969) / 4 - (y - 1901) / 100 + (y - 1601) / 400.

(** The year of a day number: the largest [y] with [DayFromYear y <= d]. *)
Definition YearFromDay (d : Z) : Z :=
  let y := 1970 + (d * 400) / 146097 in
  if d <? DayFromYear y then y - 1
  else if DayFromYear (y + 1) <=? d then y + 1
  else y.

Definition YearFromTime (t : Z) : Z := YearFromDay (Day t).

Definition InLeapYear (t : Z) : Z := DaysInYear (YearFromTime t) - 365.

Definition DayWithinYear (t : Z) : Z := Day t - DayFromYear (YearFromTime t).

(** Day within the year on which month [m] (0-based) starts. *)
Definition month_start (m leap : Z) : Z :=
  match m with
  | 0 => 0
  | 1 => 31
  | 2 => 59 + leap
  | 3 => 90 + leap
  | 4 => 120 + leap
  | 5 => 151 + leap
  | 6 => 181 + leap
  | 7 => 212 + leap
  | 8 => 243 + leap
  | 9 => 273 + leap
  | 10 => 304 + leap
  | _ => 334 + leap
  end.

Definition MonthFromTime (t : Z) : Z :=
  let d := DayWithinYear t in
  let leap := InLeapYear t in
  if d <? 31 then 0
  else if d <? 59 + leap then 1
  else if d <? 90 + leap then 2
  else if d <? 120 + leap then 3
  else if d <? 151 + leap then 4
  else if d <? 181 + leap then 5
  else if d <? 212 + leap then 6
  else if d <? 243 + leap then 7
  else if d <? 273 + leap then 8
  else if d <? 304 + leap then 9
  else if d <? 334 + leap then 10
  else 11.

Definition DateFromTime (t : Z) : Z :=
  DayWithinYear t - month_start (MonthFromTime t) (InLeapYear t) + 1.

Definition WeekDay (t : Z) : Z := (Day t + 4) mod 7.

Definition MakeTime (hour min sec ms : Z) : Z :=
  hour * msPerHour + min * msPerMinute + sec * msPerSecond + ms.

(** Day number of the given date; months outside 0..11 carry into the year
    and the date counts on from the first of the month. *)
Definition MakeDay (year month date : Z) : Z :=
  let ym := year + month / 12 in
  let mn := month mod 12 in
  DayFromYear ym + month_start mn (DaysInYear ym - 365) + date - 1.

Definition MakeDate (day time : Z) : Z := day * msPerDay + time.

(** Time values beyond 8.64e15 ms are not dates. *)
Definition TimeClip (t : Z) : option Z :=
  if Z.abs t <=? 8640000000000000 then Some t else None.

(** ToIntegerOrInfinity on the finite numbers; NaN and the infinities make
    the date invalid. *)
Definition to_integer (a : JS.number) : option Z :=
  match a with
  | JS.Fin q => Some (Z.quot (Qnum q) (Z.pos (Qden q)))
  | _ => None
  end.

(** A Date object: its time value, [None] for an Invalid Date. *)
Definition Date : Type := option Z.

(** The year, month index and day that [new Date(year, month, date, ...)]
    works with: integers, a year 0..99 standing for 1900 + year. *)
Definition date_args (year month date : JS.number) : option (Z * Z * Z) :=
  match to_integer year, to_integer month, to_integer date with
  | Some y, Some m, Some dt =>
      Some (if (0 <=? y) && (y <=? 99) then 1900 + y else y, m, dt)
  | _, _, _ => None
  end.

(** The first three numbers of [datePart.split("-").map(Number)]; a
    missing element is undefined and reads as NaN in [new Date]. *)
Definition date_components (dateStr : string) : JS.number * JS.number * JS.number :=
  let datePart := nth 0 (JS.split "T"%char (list_ascii_of_string dateStr)) [] in
  let nums := map JS.Number (JS.split "-"%char datePart) in
  (nth 0 nums JS.NaN, nth 1 nums JS.NaN, nth 2 nums JS.NaN).

(** The day number of the calendar date a start-date string names (its
    date part read as year-month-day); [None] when it names none. *)
Definition startDay (dateStr : string) : option Z :=
  let '(year, month, day) := date_components dateStr in
  match date_args year (JS.sub month (JS.Fin 1)) day with
  | Some (yr, m, dt) => Some (MakeDay yr m dt)
  | None => None
  end.

(** Length of month [m] (1..12) in a year of [365 + leap] days. *)
Definition days_in_month (leap m : Z) : Z :=
  match m with
  | 2 => 28 + leap
  | 4 | 6 | 9 | 11 => 30
  | _ => 31
  end.

(** [n] in decimal, padded with zeros to [width] digits. *)
Definition pad (width : nat) (n : Z) : JS.str :=
  replicate (width - length (JS.digits n)) "0"%char ++ JS.digits n.

(** The ISO timestamp of midnight UTC on a date, as the server sends it
    for the years 0 to 9999: "YYYY-MM-DDT00:00:00.000Z". *)
Definition iso_date (y m d : Z) : string :=
  string_of_list_ascii
    (pad 4 y ++ "-"%char :: pad 2 m ++ "-"%char :: pad 2 d
       ++ list_ascii_of_string "T00:00:00.000Z").
(** The largest day number whose local noon is a valid time value. *)
Definition max_day : Z := 99999998.

Definition weekday_short (w : Z) : string :=
  match w with
  | 0 => "Sun" | 1 => "Mon" | 2 => "Tue" | 3 => "Wed"
  | 4 => "Thu" | 5 => "Fri" | _ => "Sat"
  end.

Definition month_short (m : Z) : string :=
  match m with
  | 0 => "Jan" | 1 => "Feb" | 2 => "Mar" | 3 => "Apr" | 4 => "May"
  | 5 => "Jun" | 6 => "Jul" | 7 => "Aug" | 8 => "Sep" | 9 => "Oct"
  | 10 => "Nov" | _ => "Dec"
  end.

(** The en-US rendering with weekday short, month short, day numeric of
    the calendar day with day number [n], e.g. "Tue, Feb 3". *)
Definition formatCalendarDay (n : Z) : string :=
  let t := MakeDate n 0 in
  (weekday_short (WeekDay t) ++ ", " ++ month_short (MonthFromTime t) ++ " "
   ++ string_of_list_ascii (JS.Z_toString (DateFromTime t)))%string.

(** The calendar date (year, month 1..12, day) of a day number. *)
Definition civil (n : Z) : Z * Z * Z :=
  let t := MakeDate n 0 in
  (YearFromTime t, MonthFromTime t + 1, DateFromTime t).

Section LocalTime.

(** The host's time zone: offset of local time from UTC in milliseconds,
    at a UTC time value ([isUTC = true]) or at a local one. *)
Variable LocalTZA : Z -> bool -> Z.

Definition LocalTime (t : Z) : Z := t + LocalTZA t true.
Definition UTC (t : Z) : Z := t - LocalTZA t false.

(** [new Date(year, month, date, hours, minutes, seconds)] *)
Definition Date_new (year month date : JS.number) (hours minutes seconds : Z)
  : Date :=
  match date_args year month date with
  | Some (yr, m, dt) =>
      TimeClip (UTC (MakeDate (MakeDay yr m dt)
                              (MakeTime hours minutes seconds 0)))
  | None => None
  end.

(** [date.getDate()]; [None] is NaN. *)
Definition getDate (d : Date) : option Z :=
  match d with
  | Some t => Some (DateFromTime (LocalTime t))
  | None => None
  end.

(** [date.setDate(dt)] *)
Definition setDate (d : Date) (dt : option Z) : Date :=
  match d, dt with
  | Some t0, Some dt =>
      let t := LocalTime t0 in
      let newDate :=
        MakeDate (MakeDay (YearFromTime t) (MonthFromTime t) dt)
                 (TimeWithinDay t) in
      TimeClip (UTC newDate)
  | _, _ => None
  end.

(** [addDays] / [pdfAddDays]: copy the date, then
    [result.setDate(result.getDate() + days)]. *)
Definition addDays (date : Date) (days : Z) : Date :=
  let result := date in
  setDate result (option_map (fun g => g + days) (getDate result)).

(** [formatShootDate] / [pdfFormatShootDate]:
    [toLocaleDateString("en-US", { weekday: "short", month: "short",
    day: "numeric" })]. *)
Definition formatShootDate (date : Date) : string :=
  match date with
  | Some t => formatCalendarDay (Day (LocalTime t))
  | None => "Invalid Date"
  end.

(** [parseLocalDate] / [pdfParseLocalDate]: the date part at noon local
    time. *)
Definition parseLocalDate (dateStr : string) : Date :=
  let '(year, month, day) := date_components dateStr in
  Date_new year (JS.sub month (JS.Fin 1)) day 12 0 0.

(** ** Grouping by day with shoot dates (generateShootingSchedulePDF) *)

Record day : Type := mkDay {
  dayNumber : Z;
  strips : list Client.StripSlot;
  shootDate : option string
}.

(** [schedule.startDate ? pdfParseLocalDate(schedule.startDate) : null] *)
Definition startDate_of (schedule : Client.Schedule) : option Date :=
  match Client.startDate schedule with
  | None => None
  | Some EmptyString => None
  | Some s => Some (parseLocalDate s)
  end.

(** [startDate ? pdfFormatShootDate(pdfAddDays(startDate, currentDay - 1))
              : undefined] *)
Definition shootDate_for (startDate : option Date) (currentDay : Z)
  : option string :=
  match startDate with
  | Some sd => Some (formatShootDate (addDays sd (currentDay - 1)))
  | None => None
  end.

Definition day_step (m : gmap Z Db.DayBreak) (startDate : option Date)
    (st : list day * Z * list Client.StripSlot) (strip : Client.StripSlot)
  : list day * Z * list Client.StripSlot :=
  let '(days, currentDay, currentDayStrips) := st in
  let currentDayStrips := currentDayStrips ++ [strip] in
  match m !! Client.position strip with
  | Some dayBreak =>
      (days ++ [mkDay currentDay currentDayStrips
                      (shootDate_for startDate currentDay)],
       currentDay + 1, [])
  | None => (days, currentDay, currentDayStrips)
  end.

(** The [days] array of generateShootingSchedulePDF. *)
Definition scheduleDays (schedule : Client.Schedule) : list day :=
  let m := Client.dayBreakMap (Client.dayBreaks schedule) in
  let startDate := startDate_of schedule in
  let '(days, currentDay, currentDayStrips) :=
    fold_left (day_step m startDate) (Client.stripSlots schedule) ([], 1, []) in
  if (0 <? length currentDayStrips)%nat then
    days ++ [mkDay currentDay currentDayStrips
                   (shootDate_for startDate currentDay)]
  else days.

(** ** The strip board's shoot dates by day number (StripBoardTab) *)


End LocalTime.

End Date.

(* ===================================================================== *)
(** * A small production used in the examples *)
(* ===================================================================== *)

Module Sample.

Definition editor : Db.Caller := Db.mkCaller (Some "u1"%string) true true false.

(** Project p1 with schedule s1: three strips at positions 1, 2, 3 and day
    breaks after positions 2 (day 1) and 3 (day 2); one strip of another
    schedule. *)
Definition db0 : Db.Database :=
  Db.mkDatabase
    [Db.mkSchedule "s1" "p1" (Some "2026-02-03T00:00:00.000Z"%string);
     Db.mkSchedule "s2" "p2" None]
    [Db.mkStripSlot "a" "s1" "bd-a" 1; Db.mkStripSlot "b" "s1" "bd-b" 2;
     Db.mkStripSlot "x" "s2" "bd-x" 1; Db.mkStripSlot "c" "s1" "bd-c" 3]
    [Db.mkDayBreak "k2" "s1" 3 2 None None;
     Db.mkDayBreak "k1" "s1" 2 1 None None].

Definition sch0 : Db.Schedule :=
  Db.mkSchedule "s1" "p1" (Some "2026-02-03T00:00:00.000Z"%string).

Definition scene (n : string) (pages : string) (chars : list string)
  : Client.BreakdownSheet :=
  Client.mkBreakdown n (Some pages) (map Client.mkCast chars).

(** Five strips; character X plays in strip 3 only, character Y in strips
    1 and 5. *)
Definition strips5 : list Client.StripSlot :=
  [Client.mkStrip "a" 1 (scene "1" "1 2/8" ["Y"%string]);
   Client.mkStrip "b" 2 (scene "2" "3/8" []);
   Client.mkStrip "c" 3 (scene "2A" "2" ["X"%string]);
   Client.mkStrip "d" 4 (scene "3" "5/8" []);
   Client.mkStrip "e" 5 (scene "4" "1" ["Y"%string])].

(** Day breaks after positions 2 and 4. *)
Definition breaks24 : list Db.DayBreak :=
  [Db.mkDayBreak "k1" "s1" 2 1 None None;
   Db.mkDayBreak "k2" "s1" 4 2 None None].

Definition schedule5 : Client.Schedule :=
  Client.mkSchedule (Some "2026-02-03T00:00:00.000Z"%string) strips5 breaks24.

(** A host time zone with a daylight-saving start: five hours behind UTC
    until 2026-03-08 07:00 UTC (02:00 local), four hours behind after. *)
Definition tzEastern (t : Z) (isUTC : bool) : Z :=
  let transition := if isUTC then 1772953200000 else 1772953200000 - 18000000 in
  if t <? transition then -18000000 else -14400000.

(** The same board starting on the eve of the daylight-saving start. *)
Definition scheduleDST : Client.Schedule :=
  Client.mkSchedule (Some "2026-03-07T00:00:00.000Z"%string) strips5 breaks24.



Definition charX : Client.Character := Client.mkCharacter "X" 1 "Xavier".
Definition charY : Client.Character := Client.mkCharacter "Y" 2 "Yvonne".
Definition charZ : Client.Character := Client.mkCharacter "Z" 3 "Zed".

End Sample.

(* ===================================================================== *)
(** * The report tables (ReportsTab, StripBoardTab) *)
(* ===================================================================== *)

Module Reports.
Import Client.

(** [strips.reduce((sum, s) => sum + parsePageCount(s.breakdown.pageCount), 0)]:
    [dayPages] of generateShootingSchedulePDF, [totalPages] of the strip
    board. *)
Definition sumPages (strips : list StripSlot) : JS.number :=
  fold_left (fun sum s =>
               JS.add sum (PageCount.parsePageCount (pageCount (breakdown s))))
            strips (JS.Fin 0).

(** [calculatePagesForDay(startPos, endPos)]:
    [strips.filter((s) => s.position > startPos && s.position <= endPos)
           .reduce(...)]. *)
Definition calculatePagesForDay (strips : list StripSlot) (startPos endPos : Z)
  : JS.number :=
  sumPages (List.filter (fun s => (startPos <? position s) && (position s <=? endPos))
                        strips).

(** A row of the strip board: a strip, or the END OF DAY row with the
    day's page total. *)
Inductive row : Type :=
| StripRow (strip : StripSlot)
| DayBreakRow (dayBreak : Db.DayBreak) (totalPages : string).

(** One turn of [strips.forEach] in renderSchedule and
    generateStripBoardPDF: the strip, then the break row when a break
    follows the strip's position. *)
Definition row_step (strips : list StripSlot) (m : gmap Z Db.DayBreak)
    (st : list row * Z) (strip : StripSlot) : list row * Z :=
  let '(rows, lastDayBreakPos) := st in
  let rows := rows ++ [StripRow strip] in
  match m !! position strip with
  | Some dayBreak =>
      let pages := calculatePagesForDay strips lastDayBreakPos (position strip) in
      (rows ++ [DayBreakRow dayBreak (PageCount.formatPageCount pages)],
       position strip)
  | None => (rows, lastDayBreakPos)
  end.

(** The interleaved rows of the strip board. *)
Definition stripBoardRows (strips : list StripSlot) (dbs : list Db.DayBreak)
  : list row :=
  fst (fold_left (row_step strips (dayBreakMap dbs)) strips ([], 0)).

(** How a day segment shows on the strip board: its strips, then the row
    of the break that follows its last strip, if any, with the sum of the
    segment's pages. *)
Definition segment_rows (m : gmap Z Db.DayBreak) (seg : list StripSlot)
  : list row :=
  map StripRow seg ++
  match last seg with
  | Some l =>
      match m !! position l with
      | Some dayBreak =>
          [DayBreakRow dayBreak (PageCount.formatPageCount (sumPages seg))]
      | None => []
      end
  | None => []
  end.

(** A closed day: strips that no break follows, then one that a break
    follows. *)
Definition closed_day (m : gmap Z Db.DayBreak) (seg : list StripSlot) : Prop :=
  exists body l, seg = body ++ [l]
    /\ Forall (fun s => has m (position s) = false) body
    /\ has m (position l) = true.

(** One turn of [strips.map] in generateOneLinePDF: the row carries
    [currentDay.toString()] and the strip's columns; the day counter
    advances after a strip that a break follows. *)
Definition oneLine_step (m : gmap Z Db.DayBreak)
    (st : list (JS.str * StripSlot) * Z) (strip : StripSlot)
  : list (JS.str * StripSlot) * Z :=
  let '(tableData, currentDay) := st in
  (tableData ++ [(JS.Z_toString currentDay, strip)],
   if has m (position strip) then currentDay + 1 else currentDay).

(** [tableData] of generateOneLinePDF: the Day label of each strip. *)
Definition oneLineRows (strips : list StripSlot) (dbs : list Db.DayBreak)
  : list (JS.str * StripSlot) :=
  fst (fold_left (oneLine_step (dayBreakMap dbs)) strips ([], 1)).

(** [dayBreaks.length + (strips.length > 0 ? 1 : 0)] *)
Definition totalDays (strips : list StripSlot) (dbs : list Db.DayBreak) : nat :=
  (length dbs + (if (0 <? length strips)%nat then 1 else 0))%nat.

End Reports.

(* ===================================================================== *)
(** * The board after a move *)
(* ===================================================================== *)

Module Moves.
Import Db.

(** The rows of the table once the strip at position [old] of schedule
    [sid] has moved to [new]: each strip of the schedule sits at its
    [moved_position], every other row is as it was. *)
Definition moved_rows (sid : string) (old new : Z) (t : list StripSlot)
  : list StripSlot :=
  map (fun s => if in_schedule sid s
                then set_position (moved_position old new (position s)) s
                else s) t.

(** The position of the strip [id] of schedule [sid], if there is one. *)
Definition position_of (id sid : string) (d : Database) : option Z :=
  option_map position (stripSlot_findFirst id sid (stripSlots d)).

(** The rows of the other schedules. *)
Definition other_strips (sid : string) (d : Database) : list StripSlot :=
  List.filter (fun s => negb (in_schedule sid s)) (stripSlots d).

End Moves.

(* ===================================================================== *)
(** * DELETE /api/projects/[id]/schedule/daybreaks/[dbId] *)
(* ===================================================================== *)

Module DeleteDayBreak.
Import Db.

Inductive response : Type :=
| Error (status : Z) (error : string)
| Success.                               (* 200, { success: true } *)

Definition status_of (r : response) : Z :=
  match r with
  | Error st _ => st
  | Success => 200
  end.

(** [prisma.dayBreak.findFirst({ where: { id: dbId, scheduleId } })] *)
Definition dayBreak_findFirst (id sid : string) (t : list DayBreak)
  : option DayBreak :=
  find (fun b => String.eqb (db_id b) id && db_in_schedule sid b) t.

Definition DELETE (caller : Caller) (pid dbId : string) (d : Database)
  : response * Database :=
  match session_user caller with
  | None => (Error 401 "Unauthorized", d)
  | Some _ =>
  if negb (hasAccess caller) then
    (Error 404 "Project not found or access denied", d)
  else if negb (canEdit caller) && negb (isOwner caller) then
    (Error 403 "You don't have permission to manage day breaks", d)
  else
  match schedule_findUnique pid d with
  | None => (Error 404 "Schedule not found", d)
  | Some schedule =>
      match dayBreak_findFirst dbId (schedule_id schedule) (dayBreaks d) with
      | None => (Error 404 "Day break not found", d)
      | Some dayBreak =>
          (Success, with_dayBreaks d (dayBreak_delete dbId (dayBreaks d)))
      end
  end
  end.

End DeleteDayBreak.

(* ===================================================================== *)
(** * The strip board's day-break button (StripBoardTab, useSchedule) *)
(* ===================================================================== *)

Module Handlers.
Import Db.

(** [response.ok] *)
Definition ok (status : Z) : bool := (200 <=? status) && (status <=? 299).

(** [handleToggleDayBreak(afterPosition)]: the toggle request, then, unless
    it failed (apiPost throws on a response that is not ok), the renumber
    request. *)
Definition handleToggleDayBreak (caller : Caller) (pid : string)
    (afterPosition : Z) (newId : string) (d : Database) : Database :=
  let '(r, d1) := Toggle.POST caller pid (JNum (inject_Z afterPosition)) newId d in
  if ok (Toggle.status_of r) then snd (Renumber.POST caller pid d1) else d1.

(** The day breaks of the other schedules. *)
Definition other_dayBreaks (sid : string) (d : Database) : list DayBreak :=
  List.filter (fun b => negb (db_in_schedule sid b)) (dayBreaks d).

End Handlers.

(* ===================================================================== *)
(** * Project access (lib/project-access.ts) *)
(* ===================================================================== *)

Module Access.

Inductive ProjectMemberRole : Type := VIEWER | EDITOR | ADMIN.

(** [AccessLevel] without its null. *)
Inductive AccessLevel : Type := owner | admin | editor | viewer.

Record Project : Type := mkProject {
  project_id : string;
  ownerId : string
}.

(** Table "ProjectMember". *)
Record ProjectMember : Type := mkMember {
  member_projectId : string;
  member_userId : string;
  role : ProjectMemberRole
}.

Record Store : Type := mkStore {
  projects : list Project;
  projectMembers : list ProjectMember
}.

Record AccessResult : Type := mkAccess {
  hasAccess : bool;
  level : option AccessLevel;
  canEdit : bool;
  canManageMembers : bool;
  isOwner : bool
}.

Definition no_access : AccessResult := mkAccess false None false false false.

(** [project.members]: the member rows of the project selected by
    [where: { userId }]. *)
Definition members_of (st : Store) (projectId userId : string)
  : list ProjectMember :=
  List.filter (fun m => String.eqb (member_projectId m) projectId
                        && String.eqb (member_userId m) userId)
              (projectMembers st).

Definition roleToLevel (r : ProjectMemberRole) : AccessLevel :=
  match r with
  | ADMIN => admin
  | EDITOR => editor
  | VIEWER => viewer
  end.

Definition role_eqb (a b : ProjectMemberRole) : bool :=
  match a, b with
  | VIEWER, VIEWER | EDITOR, EDITOR | ADMIN, ADMIN => true
  | _, _ => false
  end.

Definition getProjectAccess (st : Store) (projectId userId : string)
  : AccessResult :=
  match find (fun p => String.eqb (project_id p) projectId) (projects st) with
  | None => no_access
  | Some project =>
      if String.eqb (ownerId project) userId then
        mkAccess true (Some owner) true true true
      else
        match members_of st projectId userId with
        | [] => no_access
        | membership :: _ =>
            mkAccess true (Some (roleToLevel (role membership)))
                     (role_eqb (role membership) ADMIN
                      || role_eqb (role membership) EDITOR)
                     (role_eqb (role membership) ADMIN)
                     false
        end
  end.

(** [levelHierarchy.indexOf(level)] on ["viewer", "editor", "admin",
    "owner"]; null is not in the array. *)
Definition levelIndex (l : option AccessLevel) : Z :=
  match l with
  | Some viewer => 0
  | Some editor => 1
  | Some admin => 2
  | Some owner => 3
  | None => -1
  end.

(** [requireProjectAccess]: the access result, or the message of the
    error thrown. *)
Definition requireProjectAccess (st : Store) (projectId userId : string)
    (minimumLevel : AccessLevel) : AccessResult + string :=
  let access := getProjectAccess st projectId userId in
  if negb (hasAccess access) then inr "Project not found or access denied"%string
  else
    let userLevelIndex := levelIndex (level access) in
    let requiredLevelIndex := levelIndex (Some minimumLevel) in
    if userLevelIndex <? requiredLevelIndex then
      inr "Insufficient permissions"%string
    else inl access.

(** What the schedule routes know of the caller after [auth()] and
    [getProjectAccess(projectId, session.user.id)]; [userId] is
    [session?.user?.id]. *)
Definition caller_of (st : Store) (projectId : string) (userId : option string)
  : Db.Caller :=
  match userId with
  | Some (String c u) =>
      let access := getProjectAccess st projectId (String c u) in
      Db.mkCaller (Some (String c u)) (hasAccess access) (canEdit access)
                  (isOwner access)
  | _ => Db.mkCaller None false false false
  end.

End Access.

(* ===================================================================== *)
(** * Breakdown sheets and their strips
      (api/projects/[id]/breakdowns, api/projects/[id]/schedule) *)
(* ===================================================================== *)

Module Breakdowns.
Import Db.

Section Sheets.

(** The columns of a breakdown sheet other than its identifier and its
    project, together with its cast and element rows. *)
Context {Columns : Type}.

(** Table "BreakdownSheet": primary key [id]. *)
Record BreakdownSheet : Type := mkSheet {
  bd_id : string;
  bd_projectId : string;
  columns : Columns
}.

Record Store : Type := mkStore {
  database : Database;
  breakdownSheets : list BreakdownSheet
}.

Inductive response : Type :=
| Error (status : Z) (error : string)
| Success                                   (* 200, { success: true } *)
| Created (breakdown : BreakdownSheet).     (* 201, the new breakdown *)

Definition status_of (r : response) : Z :=
  match r with
  | Error st _ => st
  | Success => 200
  | Created _ => 201
  end.

(** [prisma.breakdownSheet.findFirst({ where: { id: bdId, projectId } })] *)
Definition breakdownSheet_findFirst (bdId pid : string)
    (t : list BreakdownSheet) : option BreakdownSheet :=
  find (fun b => String.eqb (bd_id b) bdId && String.eqb (bd_projectId b) pid) t.

(** [include: { stripSlot: true }]: the strip of the breakdown (unique
    index on breakdownId), null when there is none. *)
Definition stripSlot_of (bdId : string) (t : list StripSlot) : option StripSlot :=
  find (fun s => String.eqb (breakdownId s) bdId) t.

(** [tx.stripSlot.delete({ where: { id } })] *)
Definition stripSlot_delete (id : string) (t : list StripSlot) : list StripSlot :=
  filter (fun s => String.eqb (strip_id s) id = false) t.

(** [tx.breakdownSheet.delete({ where: { id } })] *)
Definition breakdownSheet_delete (id : string) (t : list BreakdownSheet)
  : list BreakdownSheet :=
  filter (fun b => String.eqb (bd_id b) id = false) t.

(** DELETE /api/projects/[id]/breakdowns/[bdId] *)
Definition DELETE (caller : Caller) (pid bdId : string) (st : Store)
  : response * Store :=
  match session_user caller with
  | None => (Error 401 "Unauthorized", st)
  | Some _ =>
  if negb (hasAccess caller) then
    (Error 404 "Project not found or access denied", st)
  else if negb (canEdit caller) && negb (isOwner caller) then
    (Error 403 "You don't have permission to delete breakdowns", st)
  else
  match breakdownSheet_findFirst bdId pid (breakdownSheets st) with
  | None => (Error 404 "Breakdown not found", st)
  | Some existing =>
      let t := stripSlots (database st) in
      let t' :=
        match stripSlot_of (bd_id existing) t with
        | Some stripSlot =>
            let deletedPosition := position stripSlot in
            let scheduleId := strip_scheduleId stripSlot in
            stripSlot_updateMany scheduleId (fun p => deletedPosition <? p) (-1)
              (stripSlot_delete (strip_id stripSlot) t)
        | None => t
        end in
      (Success,
       mkStore (with_stripSlots (database st) t')
               (breakdownSheet_delete bdId (breakdownSheets st)))
  end
  end.

(** [!sceneNumbers || typeof sceneNumbers !== "string"] fails. *)
Definition valid_sceneNumbers (j : json) : bool :=
  match j with
  | JStr (String _ _) => true
  | _ => false
  end.

(** POST /api/projects/[id]/breakdowns.  [created] is the row that
    [tx.breakdownSheet.create] writes from the request body, [None] when
    building or writing it throws (the transaction then writes nothing);
    [newStripId] is the identifier the store generates for the strip. *)
Definition POST (caller : Caller) (pid : string) (sceneNumbers : json)
    (created : option BreakdownSheet) (newStripId : string) (st : Store)
  : response * Store :=
  match session_user caller with
  | None => (Error 401 "Unauthorized", st)
  | Some _ =>
  if negb (hasAccess caller) then
    (Error 404 "Project not found or access denied", st)
  else if negb (canEdit caller) && negb (isOwner caller) then
    (Error 403 "You don't have permission to create breakdowns", st)
  else if negb (valid_sceneNumbers sceneNumbers) then
    (Error 400 "Scene numbers are required", st)
  else
  match schedule_findUnique pid (database st) with
  | None => (Error 500 "Project schedule not found", st)
  | Some schedule =>
      let maxPosition :=
        stripSlot_maxPosition (schedule_id schedule) (stripSlots (database st)) in
      let nextPosition := int_or maxPosition 0 + 1 in
      match created with
      | None => (Error 500 "Failed to create breakdown", st)
      | Some newBreakdown =>
          let strip :=
            {| strip_id := newStripId; strip_scheduleId := schedule_id schedule;
               breakdownId := bd_id newBreakdown; position := nextPosition |} in
          (Created newBreakdown,
           mkStore (with_stripSlots (database st)
                      (stripSlots (database st) ++ [strip]))
                   (breakdownSheets st ++ [newBreakdown]))
      end
  end
  end.

End Sheets.

(** GET /api/projects/[id]/schedule: the schedule with its strips in
    position order, each with the breakdown its [breakdownId] names
    ([breakdown_of], total by the foreign key), and its day breaks in
    afterPosition order. *)
Inductive get_response : Type :=
| GetError (status : Z) (error : string)
| GetOk (schedule : Client.Schedule).

Definition GET (caller : Caller) (pid : string)
    (breakdown_of : string -> Client.BreakdownSheet) (d : Database)
  : get_response :=
  match session_user caller with
  | None => GetError 401 "Unauthorized"
  | Some _ =>
  if negb (hasAccess caller) then
    GetError 404 "Project not found or access denied"
  else
  match schedule_findUnique pid d with
  | None => GetError 404 "Schedule not found"
  | Some schedule =>
      let sid := schedule_id schedule in
      GetOk (Client.mkSchedule
               (startDate schedule)
               (map (fun s => Client.mkStrip (strip_id s) (position s)
                                (breakdown_of (breakdownId s)))
                    (orderBy position
                       (filter (fun s => in_schedule sid s = true) (stripSlots d))))
               (dayBreak_findMany sid (dayBreaks d)))
  end
  end.


End Breakdowns.

(* ===================================================================== *)
(** * The production calendar (ProductionCalendar) *)
(* ===================================================================== *)

Module Calendar.
Import Date.

(** A number that may be NaN ([None]), as the date getters return it. *)
Definition num (n : option Z) : JS.number :=
  match n with
  | Some z => JS.Fin (inject_Z z)
  | None => JS.NaN
  end.

(** [n + k] and [n - k] on such a number. *)
Definition plus (n : option Z) (k : Z) : option Z := option_map (fun z => z + k) n.

(** [String(n)] *)
Definition num_toString (n : option Z) : JS.str :=
  match n with
  | Some z => JS.Z_toString z
  | None => list_ascii_of_string "NaN"
  end.

(** [s.padStart(2, "0")] *)
Definition padStart2 (s : JS.str) : JS.str :=
  replicate (2 - length s) "0"%char ++ s.

Record CalendarDayInfo : Type := mkInfo {
  info_date : Date;
  shootDayNumber : Z            (* entries of the map have type "shoot" *)
}.

(** A cell of the month grid: [shoot] is [existingInfo?.shootDayNumber]. *)
Record cell : Type := mkCell {
  cell_date : Date;
  shoot : option Z;
  isCurrentMonth : bool
}.

Section Host.

Variable LocalTZA : Z -> bool -> Z.

(** [date.getFullYear()], [date.getMonth()], [date.getDay()]. *)
Definition getFullYear (d : Date) : option Z :=
  option_map (fun t => YearFromTime (LocalTime LocalTZA t)) d.
Definition getMonth (d : Date) : option Z :=
  option_map (fun t => MonthFromTime (LocalTime LocalTZA t)) d.
Definition getDay (d : Date) : option Z :=
  option_map (fun t => WeekDay (LocalTime LocalTZA t)) d.

(** [new Date(year, month, date)] *)
Definition Date_ymd (year month date : option Z) : Date :=
  Date_new LocalTZA (num year) (num month) (num date) 0 0 0.

(** [new Date(year, month + 1, 0).getDate()] *)
Definition getDaysInMonth (year month : option Z) : option Z :=
  getDate LocalTZA (Date_ymd year (plus month 1) (Some 0)).

(** [new Date(year, month, 1).getDay()] *)
Definition getFirstDayOfMonth (year month : option Z) : option Z :=
  getDay (Date_ymd year month (Some 1)).

(** [a === b] on numbers: NaN equals nothing. *)
Definition num_eqb (a b : option Z) : bool :=
  match a, b with
  | Some x, Some y => x =? y
  | _, _ => false
  end.

Definition isSameDay (d1 d2 : Date) : bool :=
  num_eqb (getFullYear d1) (getFullYear d2)
  && num_eqb (getMonth d1) (getMonth d2)
  && num_eqb (getDate LocalTZA d1) (getDate LocalTZA d2).

(** Noon of day number [n] on the local clock, as a Date. *)
Definition localNoon (n : Z) : Date :=
  Some (UTC LocalTZA (MakeDate n (MakeTime 12 0 0 0))).

(** [formatDateForInput]: year-month-day of the local date, month and day
    padded to two digits. *)
Definition formatDateForInput (date : Date) : string :=
  let year := getFullYear date in
  let month := padStart2 (num_toString (plus (getMonth date) 1)) in
  let day := padStart2 (num_toString (getDate LocalTZA date)) in
  string_of_list_ascii (num_toString year ++ "-"%char :: month ++ "-"%char :: day).

(** The loop [for (let day = 1; day <= totalDays; day++)] of calendarMap,
    [n] turns to go. *)
Fixpoint mark_days (n : nat) (currentDate : Date) (shootDay : Z)
    (map : gmap string CalendarDayInfo) : gmap string CalendarDayInfo :=
  match n with
  | O => map
  | S n' =>
      let dateKey := formatDateForInput currentDate in
      mark_days n' (addDays LocalTZA currentDate 1) (shootDay + 1)
                (<[dateKey := mkInfo currentDate shootDay]> map)
  end.

(** [calendarMap]: the shoot days by date key; empty without a start
    date. *)
Definition calendarMap (schedule : Client.Schedule) : gmap string CalendarDayInfo :=
  match startDate_of LocalTZA schedule with
  | None => ∅
  | Some startDate =>
      let totalDays := (length (Client.dayBreaks schedule) + 1)%nat in
      mark_days totalDays startDate 1 ∅
  end.

(** [schedule.dayBreaks.length + (schedule.stripSlots.length > 0 ? 1 : 0)] *)
Definition totalShootDays (schedule : Client.Schedule) : nat :=
  (length (Client.dayBreaks schedule)
   + (if (0 <? length (Client.stripSlots schedule))%nat then 1 else 0))%nat.

Definition grid_cell (calendarMap : gmap string CalendarDayInfo) (date : Date)
    (current : bool) : cell :=
  mkCell date (option_map shootDayNumber (calendarMap !! formatDateForInput date))
         current.

(** [calendarDays]: the trailing days of the previous month, the days of
    the month, and leading days of the next month up to 42 cells. *)
Definition calendarDays (viewDate : Date) (calendarMap : gmap string CalendarDayInfo)
  : list cell :=
  let year := getFullYear viewDate in
  let month := getMonth viewDate in
  let daysInMonth := getDaysInMonth year month in
  let firstDay := getFirstDayOfMonth year month in
  let daysInPrevMonth := getDaysInMonth year (plus month (-1)) in
  let previous :=
    match firstDay with
    | Some f =>
        map (fun i => grid_cell calendarMap
                        (Date_ymd year (plus month (-1)) (plus daysInPrevMonth (- i)))
                        false)
            (reverse (seqZ 0 f))
    | None => []
    end in
  let current :=
    match daysInMonth with
    | Some n =>
        map (fun day => grid_cell calendarMap (Date_ymd year month (Some day)) true)
            (seqZ 1 n)
    | None => []
    end in
  let days := previous ++ current in
  let remainingDays := 42 - Z.of_nat (length days) in
  days ++ map (fun day => grid_cell calendarMap
                            (Date_ymd year (plus month 1) (Some day)) false)
              (seqZ 1 remainingDays).

End Host.

(** The date key "YYYY-MM-DD" of a day number. *)
Definition dateKey (n : Z) : string :=
  let '(y, m, d) := civil n in
  string_of_list_ascii
    (JS.Z_toString y ++ "-"%char :: padStart2 (JS.Z_toString m)
       ++ "-"%char :: padStart2 (JS.Z_toString d)).

End Calendar.

(* ===================================================================== *)
(** * Removing a member (DELETE /api/projects/[id]/members/[userId]) *)
(* ===================================================================== *)

Module Members.
Import Access.

Inductive response : Type :=
| Error (status : Z) (error : string)
| Success.                       (* 200 { success: true } *)

Definition status_of (r : response) : Z :=
  match r with
  | Error status _ => status
  | Success => 200
  end.

(** The key [projectId_userId] of a member row; the table has a unique
    index on it. *)
Definition has_key (projectId userId : string) (m : ProjectMember) : bool :=
  String.eqb (member_projectId m) projectId && String.eqb (member_userId m) userId.

(** [prisma.projectMember.delete({ where: { projectId_userId } })] *)
Definition projectMember_delete (projectId userId : string) (st : Store) : Store :=
  mkStore (projects st)
          (List.filter (fun m => negb (has_key projectId userId m))
                       (projectMembers st)).

(** The handler; [sessionUser] is [session?.user?.id]. *)
Definition DELETE (sessionUser : option string) (projectId memberUserId : string)
    (st : Store) : response * Store :=
  match sessionUser with
  | Some (String c u) =>
      let access := getProjectAccess st projectId (String c u) in
      if negb (hasAccess access) then
        (Error 404 "Project not found or access denied", st)
      else if negb (canManageMembers access) && negb (isOwner access) then
        (Error 403 "Only owner or admin can manage members", st)
      else
        let project :=
          find (fun p => String.eqb (project_id p) projectId) (projects st) in
        if match project with
           | Some p => String.eqb (ownerId p) memberUserId
           | None => false
           end
        then (Error 400 "Cannot remove the project owner", st)
        else
          match List.filter (has_key projectId memberUserId) (projectMembers st) with
          | [] => (Error 404 "Member not found", st)
          | membership :: _ =>
              (Success, projectMember_delete projectId memberUserId st)
          end
  | _ => (Error 401 "Unauthorized", st)
  end.

End Members.

(* ===================================================================== *)
(** * Reordering the cast (POST /api/projects/[id]/characters/reorder) *)
(* ===================================================================== *)

Module Characters.
Import Db.

(** Table "Character": the columns the route's queries name. *)
Record Character : Type := mkChar {
  char_id : string;
  char_projectId : string;
  char_number : Z
}.

Definition set_number (n : Z) (c : Character) : Character :=
  mkChar (char_id c) (char_projectId c) n.

Definition in_project (pid : string) (c : Character) : bool :=
  String.eqb (char_projectId c) pid.

(** [prisma.character.findMany({ where: { projectId } })] *)
Definition character_findMany (pid : string) (t : list Character)
  : list Character :=
  List.filter (in_project pid) t.

(** [prisma.character.update({ where: { id }, data: { number } })].  It
    throws ([None]) when no row has the id, and when another character of
    the same project holds the number: the unique index on
    (projectId, number) is checked by each statement. *)
Definition character_update (id : string) (n : Z) (t : list Character)
  : option (list Character) :=
  match find (fun c => String.eqb (char_id c) id) t with
  | None => None
  | Some c =>
      if existsb (fun c' => negb (String.eqb (char_id c') id)
                            && in_project (char_projectId c) c'
                            && (char_number c' =? n)) t
      then None
      else Some (map (fun c' => if String.eqb (char_id c') id
                                then set_number n c' else c') t)
  end.

(** [prisma.$transaction(characterIds.map((charId, index) => update(charId,
    index + 1)))]: the updates one after the other from [index] on; [None]
    when one of them throws. *)
Fixpoint transaction (characterIds : list string) (index : Z)
    (t : list Character) : option (list Character) :=
  match characterIds with
  | [] => Some t
  | charId :: rest =>
      match character_update charId (index + 1) t with
      | None => None
      | Some t' => transaction rest (index + 1) t'
      end
  end.

Inductive response : Type :=
| Error (status : Z) (error : string)
| Success (reorderedCharacters : list Character).     (* 200 *)

Definition status_of (r : response) : Z :=
  match r with
  | Error st _ => st
  | Success _ => 200
  end.

(** The handler; [characterIds] is [None] when the body's field is not an
    array.  A transaction that throws is rolled back and answered 500. *)
Definition POST (caller : Caller) (pid : string)
    (characterIds : option (list string)) (t : list Character)
  : response * list Character :=
  match session_user caller with
  | None => (Error 401 "Unauthorized", t)
  | Some _ =>
  if negb (hasAccess caller) then
    (Error 404 "Project not found or access denied", t)
  else if negb (canEdit caller) && negb (isOwner caller) then
    (Error 403 "You don't have permission to reorder characters", t)
  else
  match characterIds with
  | None | Some [] => (Error 400 "characterIds must be a non-empty array", t)
  | Some characterIds =>
      let characters := character_findMany pid t in
      let validIds := map char_id characters in
      let invalidIds :=
        List.filter (fun id => negb (existsb (String.eqb id) validIds))
                    characterIds in
      if (0 <? length invalidIds)%nat then
        (Error 400 "Some character IDs are invalid or don't belong to this project", t)
      else if negb (length characterIds =? length characters)%nat then
        (Error 400 "All characters must be included in the reorder array", t)
      else
        match transaction characterIds 0 t with
        | None => (Error 500 "Failed to reorder characters", t)
        | Some t' =>
            (Success (orderBy char_number (character_findMany pid t')), t')
        end
  end
  end.

(** The ids [l] name, one after the other, the characters of the project
    that hold the numbers [k], [k + 1], ... *)
Definition listed_from (pid : string) (t : list Character) (l : list string)
    (k : Z) : Prop :=
  Forall2 (fun id j => exists c, c ∈ character_findMany pid t
                                 /\ char_id c = id /\ char_number c = j)
          l (seqZ k (Z.of_nat (length l))).

(** A cast of three, numbered 1, 2, 3, beside a character of another
    project. *)
Definition sampleCast : list Character :=
  [mkChar "c1" "p1" 1; mkChar "c2" "p1" 2; mkChar "x" "p2" 1; mkChar "c3" "p1" 3].

Definition sampleEditor : Caller := mkCaller (Some "edith"%string) true true false.

End Characters.

(* ===================================================================== *)
(** * Facts about JavaScript strings and numbers *)
(* ===================================================================== *)

Section JSFacts.
Import JS.

Lemma isdig_code c : isdig c = true <-> 48 <= code c <= 57.
Proof. unfold isdig. rewrite andb_true_iff, !Z.leb_le. tauto. Qed.

Lemma code_digit_char d : 0 <= d <= 9 -> code (digit_char d) = 48 + d.
Proof.
  intros Hd. unfold code, digit_char, chr.
  rewrite nat_ascii_embedding by lia. lia.
Qed.

Lemma dec_digit_digit_char d : 0 <= d <= 9 -> dec_digit (digit_char d) = Some d.
Proof.
  intros Hd. unfold dec_digit. rewrite code_digit_char by done.
  destruct (Z.leb_spec 48 (48 + d)), (Z.leb_spec (48 + d) 57); simpl;
    try lia; f_equal; lia.
Qed.

Lemma isdig_digit_char d : 0 <= d <= 9 -> isdig (digit_char d) = true.
Proof. intros Hd. apply isdig_code. rewrite code_digit_char by done. lia. Qed.

(** A digit is none of the characters the parsers look for. *)
Lemma isdig_not_char c (x : ascii) :
  isdig c = true -> isdig x = false -> Ascii.eqb c x = false.
Proof.
  intros Hc Hx. destruct (Ascii.eqb_spec c x) as [->|]; [congruence | done].
Qed.

Lemma isdig_not_ws c : isdig c = true -> is_ws c = false.
Proof.
  intros [H1 H2]%isdig_code. unfold is_ws.
  destruct (Z.leb_spec 9 (code c)), (Z.leb_spec (code c) 13),
    (Z.eqb_spec (code c) 32); simpl; try reflexivity; lia.
Qed.

(** ** Digits of a non-negative integer *)

Lemma digits_go_value fuel : forall n acc,
  0 <= n < 10 ^ Z.of_nat fuel ->
  digits_acc 10 dec_digit (digits_go fuel n acc) 0
  = digits_acc 10 dec_digit acc n.
Proof.
  induction fuel as [|f IH]; intros n acc Hn.
  - simpl in *. replace n with 0 by lia. reflexivity.
  - cbn [digits_go].
    assert (Hm : 0 <= n mod 10 <= 9) by (pose proof (Z.mod_pos_bound n 10); lia).
    destruct (Z.ltb_spec n 10) as [Hlt|Hge].
    + cbn [digits_acc]. rewrite dec_digit_digit_char by done.
      rewrite Z.mod_small by lia. reflexivity.
    + rewrite IH.
      * cbn [digits_acc]. rewrite dec_digit_digit_char by done.
        f_equal. pose proof (Z.div_mod n 10). lia.
      * rewrite Nat2Z.inj_succ, Z.pow_succ_r in Hn by lia.
        split; [apply Z.div_pos; lia | apply Z.div_lt_upper_bound; lia].
Qed.

Lemma digits_fuel n : 0 <= n -> n < 10 ^ Z.of_nat (S (Z.to_nat (Z.log2 n))).
Proof.
  intros Hn. rewrite Nat2Z.inj_succ, Z2Nat.id by apply Z.log2_nonneg.
  destruct (Z.eq_dec n 0) as [->|Hne]; [reflexivity|].
  pose proof (Z.log2_spec n ltac:(lia)) as [_ Hlt].
  eapply Z.lt_le_trans; [exact Hlt|].
  apply Z.pow_le_mono_l. pose proof (Z.log2_nonneg n). lia.
Qed.

Lemma digits_value n : 0 <= n -> digits_acc 10 dec_digit (digits n) 0 = Some n.
Proof.
  intros Hn. unfold digits. rewrite digits_go_value; [reflexivity|].
  split; [done | by apply digits_fuel].
Qed.

Lemma digits_go_isdig fuel : forall n acc,
  0 <= n -> forallb isdig acc = true -> forallb isdig (digits_go fuel n acc) = true.
Proof.
  induction fuel as [|f IH]; intros n acc Hn Hacc; [done|].
  cbn [digits_go].
  assert (Hm : 0 <= n mod 10 <= 9) by (pose proof (Z.mod_pos_bound n 10); lia).
  assert (Hacc' : forallb isdig (digit_char (n mod 10) :: acc) = true).
  { cbn [forallb]. rewrite isdig_digit_char by done. done. }
  destruct (n <? 10); [done|]. apply IH; [apply Z.div_pos; lia | done].
Qed.

Lemma digits_go_length fuel : forall n acc,
  (length acc < length (digits_go (S fuel) n acc))%nat.
Proof.
  induction fuel as [|f IH]; intros n acc.
  - cbn [digits_go]. destruct (n <? 10); simpl; lia.
  - change (digits_go (S (S f)) n acc)
      with (if n <? 10 then digit_char (n mod 10) :: acc
            else digits_go (S f) (n / 10) (digit_char (n mod 10) :: acc)).
    destruct (n <? 10); [simpl; lia|].
    specialize (IH (n / 10) (digit_char (n mod 10) :: acc)). simpl in *. lia.
Qed.

Lemma digits_isdig n : 0 <= n -> forallb isdig (digits n) = true.
Proof. intros Hn. by apply digits_go_isdig. Qed.

Lemma digits_nonempty n : digits n <> [].
Proof.
  unfold digits. intros H.
  pose proof (digits_go_length (Z.to_nat (Z.log2 n)) n []) as Hl.
  rewrite H in Hl. simpl in Hl. lia.
Qed.

(** ** Trimming and splitting strings of known shape *)

Lemma trimStart_head c r : is_ws c = false -> trimStart (c :: r) = c :: r.
Proof. intros H. simpl. by rewrite H. Qed.

Lemma trim_id (l : str) :
  (forall c r, l = c :: r -> is_ws c = false) ->
  (forall c r, rev l = c :: r -> is_ws c = false) ->
  trim l = l.
Proof.
  intros Hh Ht. unfold trim.
  assert (E1 : trimStart l = l).
  { destruct l as [|c r]; [done|]. apply trimStart_head. by eapply Hh. }
  rewrite E1.
  assert (E2 : trimStart (rev l) = rev l).
  { destruct (rev l) as [|c r] eqn:E; [done|]. apply trimStart_head. by eapply Ht. }
  rewrite E2. apply rev_involutive.
Qed.

Lemma split_go_none sep : forall l cur,
  existsb (Ascii.eqb sep) l = false ->
  split_go sep cur l = [rev cur ++ l].
Proof.
  induction l as [|c r IH]; intros cur H; simpl.
  - by rewrite app_nil_r.
  - simpl in H. apply orb_false_iff in H as [H1 H2].
    rewrite Ascii.eqb_sym, H1. rewrite IH by done. simpl.
    by rewrite <- app_assoc.
Qed.

Lemma split_go_at sep : forall l1 cur l2,
  existsb (Ascii.eqb sep) l1 = false ->
  split_go sep cur (l1 ++ sep :: l2) = (rev cur ++ l1) :: split_go sep [] l2.
Proof.
  induction l1 as [|c r IH]; intros cur l2 H; simpl.
  - rewrite Ascii.eqb_refl. by rewrite app_nil_r.
  - simpl in H. apply orb_false_iff in H as [H1 H2].
    rewrite Ascii.eqb_sym, H1. rewrite IH by done. simpl.
    by rewrite <- app_assoc.
Qed.

Lemma split_none sep l :
  existsb (Ascii.eqb sep) l = false -> split sep l = [l].
Proof. intros H. unfold split. by rewrite split_go_none. Qed.

Lemma split_at sep l1 l2 :
  existsb (Ascii.eqb sep) l1 = false ->
  split sep (l1 ++ sep :: l2) = l1 :: split sep l2.
Proof. intros H. unfold split. by rewrite split_go_at. Qed.

Lemma digits_no_char (x : ascii) l :
  forallb isdig l = true -> isdig x = false -> existsb (Ascii.eqb x) l = false.
Proof.
  intros Hl Hx. induction l as [|c r IH]; [done|].
  simpl in *. apply andb_true_iff in Hl as [Hc Hr].
  rewrite Ascii.eqb_sym, (isdig_not_char c x) by done. by apply IH.
Qed.

Lemma cut_digits p l :
  forallb isdig l = true -> (forall c, isdig c = true -> p c = false) ->
  cut p l = (l, None).
Proof.
  intros Hl Hp. induction l as [|c r IH]; [done|].
  simpl in *. apply andb_true_iff in Hl as [Hc Hr].
  rewrite (Hp c Hc), (IH Hr). done.
Qed.

Lemma trim_digits l : forallb isdig l = true -> trim l = l.
Proof.
  intros Hl. apply trim_id.
  - intros c r ->. simpl in Hl. apply andb_true_iff in Hl as [Hc _].
    by apply isdig_not_ws.
  - intros c r E.
    assert (Hrev : forallb isdig (rev l) = true).
    { rewrite forallb_forall in *. intros x Hx. apply Hl. by apply in_rev. }
    rewrite E in Hrev. simpl in Hrev.
    apply andb_true_iff in Hrev as [Hc _]. by apply isdig_not_ws.
Qed.

Lemma trim_ends (a m : str) (z : ascii) :
  a <> [] -> forallb isdig a = true -> isdig z = true ->
  trim (a ++ m ++ [z]) = a ++ m ++ [z].
Proof.
  intros Ha Da Dz. apply trim_id.
  - intros c r E. destruct a as [|c0 a']; [done|].
    simpl in E. injection E as <- _. simpl in Da.
    apply andb_true_iff in Da as [Hc _]. by apply isdig_not_ws.
  - intros c r E. rewrite !rev_app_distr in E. simpl in E.
    injection E as <- _. by apply isdig_not_ws.
Qed.

(** ** [Number] on a run of digits *)

Lemma Number_digits_list l n :
  l <> [] -> forallb isdig l = true ->
  digits_acc 10 dec_digit l 0 = Some n ->
  Number l = Fin (inject_Z n * inject_Z 1).
Proof.
  intros Hne Hl Hv. unfold Number.
  rewrite trim_digits by done.
  destruct l as [|c r]; [done|].
  assert (Hc : isdig c = true) by (simpl in Hl; by apply andb_true_iff in Hl as [? _]).
  pose proof Hc as [Hc1 Hc2]%isdig_code.
  assert (Hnd : nondecimal (c :: r) = None).
  { unfold nondecimal. destruct r as [|x r']; [done|].
    assert (Hx : isdig x = true).
    { simpl in Hl. apply andb_true_iff in Hl as [_ Hl].
      by apply andb_true_iff in Hl as [? _]. }
    apply isdig_code in Hx as [Hx1 Hx2].
    destruct (code c =? 48); [|done].
    repeat match goal with
    | |- context [code x =? ?k] =>
        destruct (Z.eqb_spec (code x) k); [lia|]
    end. done. }
  rewrite Hnd.
  assert (Hs : take_sign (c :: r) = (false, c :: r)).
  { unfold take_sign.
    destruct (Z.eqb_spec (code c) 45); [lia|].
    destruct (Z.eqb_spec (code c) 43); [lia|]. done. }
  rewrite Hs.
  assert (Hinf : str_eqb (c :: r) (list_ascii_of_string "Infinity") = false).
  { unfold str_eqb. apply bool_decide_eq_false. intros E.
    simpl in E. injection E as -> _. vm_compute in Hc. done. }
  rewrite Hinf.
  unfold unsigned_decimal.
  rewrite (cut_digits is_e (c :: r)); [|done|]; cycle 1.
  { intros x [Hx1 Hx2]%isdig_code. unfold is_e.
    destruct (Z.eqb_spec (code x) 101), (Z.eqb_spec (code x) 69); simpl; lia || done. }
  rewrite (cut_digits is_dot (c :: r)); [|done|]; cycle 1.
  { intros x [Hx1 Hx2]%isdig_code. unfold is_dot.
    destruct (Z.eqb_spec (code x) 46); lia || done. }
  unfold parse_digits. rewrite Hv. reflexivity.
Qed.

Lemma Number_digits n :
  0 <= n -> Number (digits n) = Fin (inject_Z n * inject_Z 1).
Proof.
  intros Hn. apply Number_digits_list.
  - apply digits_nonempty.
  - by apply digits_isdig.
  - by apply digits_value.
Qed.

(** ** Floors *)

Lemma Qfloor_unique (y : Q) (z : Z) :
  (inject_Z z <= y)%Q -> (y < inject_Z (z + 1))%Q -> Qfloor y = z.
Proof.
  intros H1 H2.
  pose proof (Qfloor_le y) as H3. pose proof (Qlt_floor y) as H4.
  assert (z < Qfloor y + 1).
  { rewrite Zlt_Qlt. eapply Qle_lt_trans; [exact H1 | exact H4]. }
  assert (Qfloor y < z + 1).
  { rewrite Zlt_Qlt. eapply Qle_lt_trans; [exact H3 | exact H2]. }
  lia.
Qed.

End JSFacts.

(* ===================================================================== *)
(** * Page counts: formatting and parsing *)
(* ===================================================================== *)

Section PageCountFacts.
Import JS PageCount.

Lemma formatPageCount_Fin p :
  formatPageCount (Fin p) =
  string_of_list_ascii
    (if eighths_of p =? 0 then Z_toString (whole_of p)
     else if whole_of p =? 0 then
       Z_toString (eighths_of p) ++ list_ascii_of_string "/8"
     else Z_toString (whole_of p) ++ " "%char :: Z_toString (eighths_of p)
            ++ list_ascii_of_string "/8").
Proof. reflexivity. Qed.

Lemma formatPageCount_comp p q : (p == q)%Q ->
  formatPageCount (Fin p) = formatPageCount (Fin q).
Proof.
  intros E. rewrite !formatPageCount_Fin. unfold whole_of, eighths_of.
  rewrite (Qfloor_comp _ _ E).
  assert (E2 : ((p - inject_Z (Qfloor q)) * 8 + (1 # 2)
                == (q - inject_Z (Qfloor q)) * 8 + (1 # 2))%Q) by (rewrite E; reflexivity).
  rewrite (Qfloor_comp _ _ E2). reflexivity.
Qed.

Lemma whole_eighths k :
  whole_of (k # 8) = k / 8 /\ eighths_of (k # 8) = k mod 8.
Proof.
  assert (Hw : whole_of (k # 8) = k / 8) by reflexivity.
  split; [done|]. unfold eighths_of. fold (whole_of (k # 8)). rewrite Hw.
  pose proof (Z.div_mod k 8 ltac:(lia)) as Hdm.
  assert (E : ((k # 8) - inject_Z (k / 8) == inject_Z (k mod 8) / 8)%Q).
  { replace (k mod 8) with (k - 8 * (k / 8)) by lia.
    rewrite (Qmake_Qdiv k 8). unfold Zminus. rewrite inject_Z_plus, inject_Z_opp, inject_Z_mult.
    field. }
  assert (E3 : (((k # 8) - inject_Z (k / 8)) * 8 + (1 # 2)
                == inject_Z (k mod 8) + (1 # 2))%Q) by (rewrite E; field).
  apply Qfloor_unique; rewrite E3.
  - lra.
  - rewrite inject_Z_plus. change (inject_Z 1) with 1%Q. lra.
Qed.

Lemma parsePageCount_nonempty (l : str) : l <> [] ->
  parsePageCount (Some (string_of_list_ascii l))
  = sum_tokens (split " "%char (trim l)).
Proof.
  intros Hl. unfold parsePageCount. rewrite list_ascii_of_string_of_list_ascii.
  by destruct l.
Qed.

(** Round trip on [k] eighths, [k >= 0]. *)
Lemma parse_format_eighths k : 0 <= k ->
  num_eq (parsePageCount (Some (formatPageCount (Fin (k # 8))))) (Fin (k # 8)).
Proof.
  intros Hk. rewrite formatPageCount_Fin.
  destruct (whole_eighths k) as [-> ->].
  set (w := k / 8). set (e := k mod 8).
  assert (Hw : 0 <= w) by (apply Z.div_pos; lia).
  assert (He : 0 <= e < 8) by (apply Z.mod_pos_bound; lia).
  assert (Hk8 : k = 8 * w + e) by (apply Z.div_mod; lia).
  assert (Hval : (k # 8 == inject_Z w + inject_Z e / 8)%Q).
  { rewrite Hk8, (Qmake_Qdiv _ 8), inject_Z_plus, inject_Z_mult. field. }
  assert (HZw : Z_toString w = digits w).
  { unfold Z_toString. destruct (Z.ltb_spec w 0); [lia|done]. }
  assert (HZe : Z_toString e = digits e).
  { unfold Z_toString. destruct (Z.ltb_spec e 0); [lia|done]. }
  rewrite HZw, HZe.
  pose proof (digits_isdig w Hw) as Dw.
  pose proof (digits_isdig e ltac:(lia)) as De.
  pose proof (digits_nonempty w) as Nw.
  pose proof (digits_nonempty e) as Ne.
  assert (Hslash8 : forall l, forallb isdig l = true -> l <> [] ->
            token_value (l ++ list_ascii_of_string "/8")
            = div (Number l) (Fin (inject_Z 8 * inject_Z 1))).
  { intros l Dl Nl. unfold token_value, includes.
    rewrite existsb_app. simpl (existsb _ (list_ascii_of_string "/8")).
    rewrite orb_true_r.
    change (list_ascii_of_string "/8") with ("/"%char :: list_ascii_of_string "8").
    rewrite split_at by (by apply digits_no_char).
    rewrite split_none by done. reflexivity. }
  destruct (Z.eqb_spec e 0) as [He0|He0].
  - (* a whole number of pages *)
    rewrite parsePageCount_nonempty by done.
    rewrite trim_digits by done.
    rewrite split_none by (by apply digits_no_char).
    unfold sum_tokens, token_value, includes. cbn [fold_left].
    rewrite (digits_no_char "/"%char) by done.
    rewrite Number_digits by done.
    unfold or_else, truthy, Qis_zero. cbn [Qnum Qmult inject_Z].
    destruct (Z.eqb_spec (w * 1) 0); simpl; rewrite Hval, He0;
      [replace w with 0 by lia|]; unfold Qeq; simpl; lia.
  - assert (HNe : div (Number (digits e)) (Fin (inject_Z 8 * inject_Z 1))
                  = Fin (inject_Z e * inject_Z 1 / (inject_Z 8 * inject_Z 1))).
    { rewrite Number_digits by lia. reflexivity. }
    destruct (Z.eqb_spec w 0) as [Hw0|Hw0].
    + (* only eighths *)
      rewrite parsePageCount_nonempty by (by destruct (digits e)).
      change (list_ascii_of_string "/8") with ("/"%char :: ["8"%char]).
      pose proof (trim_ends (digits e) ["/"%char] "8"%char Ne De eq_refl) as Ht.
      cbn [app] in Ht. rewrite Ht. clear Ht.
      rewrite split_none; cycle 1.
      { rewrite existsb_app, (digits_no_char " "%char) by done. done. }
      unfold sum_tokens. cbn [fold_left].
      change ("/"%char :: ["8"%char]) with (list_ascii_of_string "/8").
      rewrite Hslash8, HNe by done. simpl.
      rewrite Hval, Hw0. field.
    + (* whole pages and eighths *)
      rewrite parsePageCount_nonempty by (by destruct (digits w)).
      change (list_ascii_of_string "/8") with ("/"%char :: ["8"%char]).
      replace (digits w ++ " "%char :: digits e ++ "/"%char :: ["8"%char])
        with (digits w ++ (" "%char :: digits e ++ ["/"%char]) ++ ["8"%char])
        by (simpl; by rewrite <- app_assoc).
      rewrite trim_ends by done.
      replace (digits w ++ (" "%char :: digits e ++ ["/"%char]) ++ ["8"%char])
        with (digits w ++ " "%char :: (digits e ++ list_ascii_of_string "/8"))
        by (simpl; by rewrite <- app_assoc).
      rewrite split_at by (by apply digits_no_char).
      rewrite split_none; cycle 1.
      { rewrite existsb_app, (digits_no_char " "%char) by done. done. }
      unfold sum_tokens. cbn [fold_left].
      rewrite Hslash8, HNe by done.
      unfold token_value, includes.
      rewrite (digits_no_char "/"%char) by done.
      rewrite Number_digits by done.
      unfold or_else, truthy, Qis_zero. cbn [Qnum Qmult inject_Z].
      destruct (Z.eqb_spec (w * 1) 0); [lia|]. simpl.
      rewrite Hval. field.
Qed.


Lemma num_eq_Fin_trans a p q : num_eq a (Fin p) -> (p == q)%Q -> num_eq a (Fin q).
Proof. destruct a; simpl; try done. intros H1 H2. by rewrite H1. Qed.

(** C9: formatting a non-negative page count made of whole eighths and
    parsing the result back recovers the page count exactly; and
    [formatPageCount(0)] is "0", which parses to 0. *)
Theorem parse_format_roundtrip :
  (forall x : Q, (0 <= x)%Q -> (exists k : Z, (x == k # 8)%Q) ->
     num_eq (parsePageCount (Some (formatPageCount (Fin x)))) (Fin x))
  /\ formatPageCount (Fin 0) = "0"%string
  /\ num_eq (parsePageCount (Some "0"%string)) (Fin 0).
Proof.
  split; [|split; [reflexivity | vm_compute; reflexivity]].
  intros x Hx [k Hk].
  assert (0 <= k).
  { rewrite Hk in Hx. unfold Qle in Hx. simpl in Hx. lia. }
  rewrite (formatPageCount_comp x (k # 8)) by done.
  eapply num_eq_Fin_trans; [by apply parse_format_eighths | by symmetry].
Qed.

Lemma parse_format_roundtrip_witness :
  num_eq (parsePageCount (Some (formatPageCount (Fin (5 # 4))))) (Fin (5 # 4)).
Proof.
  apply (proj1 parse_format_roundtrip (5 # 4)).
  - unfold Qle; simpl; lia.
  - exists 10. unfold Qeq; simpl; lia.
Defined.

(** C10: when the fractional part of a non-negative page count is above
    15/16 (or equal to it) the eighths round to 8 and are printed as "8/8"
    next to the unchanged whole part; the result is never the next whole
    number.  In particular [formatPageCount(15/16)] is "8/8". *)
Theorem formatPageCount_no_carry :
  (forall p : Q, (0 <= p)%Q -> (15 # 16 <= p - inject_Z (Qfloor p))%Q ->
     formatPageCount (Fin p) =
       string_of_list_ascii
         (if Qfloor p =? 0 then list_ascii_of_string "8/8"
          else Z_toString (Qfloor p) ++ list_ascii_of_string " 8/8")
     /\ formatPageCount (Fin p)
        <> string_of_list_ascii (Z_toString (Qfloor p + 1)))
  /\ formatPageCount (Fin (15 # 16)) = "8/8"%string.
Proof.
  split; [|reflexivity].
  intros p Hp Hfrac.
  assert (He : eighths_of p = 8).
  { unfold eighths_of. apply Qfloor_unique.
    - change (inject_Z 8) with 8%Q. lra.
    - change (inject_Z (8 + 1)) with 9%Q.
      pose proof (Qlt_floor p) as Hlt. rewrite inject_Z_plus in Hlt.
      change (inject_Z 1) with 1%Q in Hlt. lra. }
  assert (Hout : formatPageCount (Fin p) =
       string_of_list_ascii
         (if Qfloor p =? 0 then list_ascii_of_string "8/8"
          else Z_toString (Qfloor p) ++ list_ascii_of_string " 8/8")).
  { rewrite formatPageCount_Fin, He. unfold whole_of.
    destruct (Qfloor p =? 0); reflexivity. }
  split; [exact Hout|].
  rewrite Hout. intros E.
  apply (f_equal list_ascii_of_string) in E.
  rewrite !list_ascii_of_string_of_list_ascii in E.
  assert (Hw : 0 <= Qfloor p).
  { change 0 with (Qfloor 0). by apply Qfloor_resp_le. }
  assert (Hno : existsb (Ascii.eqb "/"%char) (Z_toString (Qfloor p + 1)) = false).
  { unfold Z_toString. destruct (Z.ltb_spec (Qfloor p + 1) 0); [lia|].
    apply digits_no_char; [apply digits_isdig; lia | reflexivity]. }
  rewrite <- E in Hno.
  destruct (Qfloor p =? 0).
  - vm_compute in Hno. discriminate.
  - rewrite existsb_app in Hno. apply orb_false_iff in Hno as [_ Hno].
    vm_compute in Hno. discriminate.
Qed.

Lemma formatPageCount_no_carry_witness :
  formatPageCount (Fin (63 # 32)) = "1 8/8"%string.
Proof.
  refine (eq_trans (proj1 (proj1 formatPageCount_no_carry (63 # 32) _ _)) _).
  - unfold Qle; simpl; lia.
  - vm_compute. discriminate.
  - reflexivity.
Defined.

(** A token without a slash never contributes NaN: [Number(part) || 0]. *)
Lemma token_value_plain part :
  includes "/"%char part = false -> token_value part <> NaN.
Proof.
  intros H. unfold token_value. rewrite H. unfold or_else.
  destruct (Number part); simpl; try done. by destruct (negb _).
Qed.

(** NaN absorbs every later addition. *)
Lemma sum_from_NaN parts :
  fold_left (fun total part => add total (token_value part)) parts NaN = NaN.
Proof. induction parts as [|p parts IH]; [done|]. exact IH. Qed.

(** One token that evaluates to NaN makes the whole page count NaN. *)
Lemma sum_tokens_NaN parts part :
  part ∈ parts -> token_value part = NaN -> sum_tokens parts = NaN.
Proof.
  unfold sum_tokens. generalize (Fin 0) as total.
  induction parts as [|p parts IH]; intros total Hin Hnan;
    [by apply elem_of_nil in Hin|].
  cbn [fold_left]. apply elem_of_cons in Hin as [<-|Hin].
  - rewrite Hnan.
    assert (add total NaN = NaN) as -> by (by destruct total).
    apply sum_from_NaN.
  - by apply IH.
Qed.

(** C5: a fraction token whose denominator (or numerator) is not a number
    makes the whole page count NaN instead of contributing 0, and a zero
    denominator makes it infinite: ["3/x"] and ["1 3/x"] parse to NaN. *)
Theorem parsePageCount_malformed_fraction :
  parsePageCount (Some "3/x"%string) = NaN
  /\ parsePageCount (Some "1 3/x"%string) = NaN
  /\ isFinite (parsePageCount (Some "1 3/x"%string)) = false
  /\ isFinite (parsePageCount (Some "1/0"%string)) = false.
Proof. repeat split; vm_compute; reflexivity. Qed.

End PageCountFacts.

(* ===================================================================== *)
(** * Facts about the tables *)
(* ===================================================================== *)

Section DbFacts.
Import Db.

Lemma filter_map_pres {A} (P : A -> bool) (g : A -> A) (l : list A) :
  (forall x, P (g x) = P x) ->
  filter (fun x => P x = true) (map g l) = map g (filter (fun x => P x = true) l).
Proof.
  intros Hg. induction l as [|x l IH]; [done|].
  cbn [map]. rewrite !filter_cons, Hg, IH. by destruct (decide (P x = true)).
Qed.

Lemma NoDup_map_inj_on {A B} (f : A -> B) (l : list A) x y :
  NoDup (map f l) -> x ∈ l -> y ∈ l -> f x = f y -> x = y.
Proof.
  induction l as [|a l IH]; intros Hnd Hx Hy E; [by apply elem_of_nil in Hx|].
  cbn [map] in Hnd. apply NoDup_cons in Hnd as [Ha Hnd].
  apply elem_of_cons in Hx as [->|Hx]; apply elem_of_cons in Hy as [->|Hy].
  - done.
  - exfalso. apply Ha. rewrite E. change (map f l) with (f <$> l).
    by apply list_elem_of_fmap_2.
  - exfalso. apply Ha. rewrite <- E. change (map f l) with (f <$> l).
    by apply list_elem_of_fmap_2.
  - by apply IH.
Qed.

Lemma find_Some_elem {A} (P : A -> bool) (l : list A) x :
  find P l = Some x -> x ∈ l /\ P x = true.
Proof.
  intros H. apply find_some in H as [H1 H2]. split; [|done].
  by apply list_elem_of_In.
Qed.

Lemma find_None_all {A} (P : A -> bool) (l : list A) x :
  find P l = None -> x ∈ l -> P x = false.
Proof.
  intros H Hx. apply list_elem_of_In in Hx. by eapply find_none in H.
Qed.

(** The maximum computed by an aggregate. *)
Lemma fold_max_opt l : forall a,
  match fold_left max_opt l a with
  | Some m =>
      (forall x, x ∈ l -> x <= m) /\ (forall y, a = Some y -> y <= m)
      /\ (m ∈ l \/ a = Some m)
  | None => l = [] /\ a = None
  end.
Proof.
  induction l as [|x l IH]; intros a.
  - simpl. destruct a as [y|]; [|done].
    split; [intros ? H; by apply elem_of_nil in H|].
    split; [intros ? [= ->]; lia | by right].
  - cbn [fold_left]. specialize (IH (max_opt a x)).
    destruct (fold_left max_opt l (max_opt a x)) as [m|]; cycle 1.
    { destruct IH as [_ H]. destruct a; simpl in H; discriminate. }
    destruct IH as (H1 & H2 & H3).
    assert (Hx : x <= m) by (destruct a; simpl in H2; specialize (H2 _ eq_refl); lia).
    split; [|split].
    + intros z [->|Hz]%elem_of_cons; [done | by apply H1].
    + intros y ->. simpl in H2. specialize (H2 _ eq_refl). lia.
    + destruct H3 as [H3|H3]; [left; by apply elem_of_cons; right|].
      destruct a as [y|]; simpl in H3; injection H3 as <-.
      * destruct (Z.max_spec y x) as [[_ ->]|[_ ->]];
          [left; apply elem_of_cons; by left | by right].
      * left. apply elem_of_cons. by left.
Qed.

(** On a dense schedule the largest position is the number of strips. *)
Lemma dense_maxPosition sid d :
  dense sid d -> positions sid d <> [] ->
  stripSlot_maxPosition sid (stripSlots d)
  = Some (Z.of_nat (length (positions sid d))).
Proof.
  intros Hd Hne. unfold stripSlot_maxPosition. fold (positions sid d).
  pose proof (fold_max_opt (positions sid d) None) as H.
  set (N := Z.of_nat (length (positions sid d))) in *.
  assert (HN : 1 <= N) by (unfold N; destruct (positions sid d); simpl; [done|lia]).
  destruct (fold_left max_opt (positions sid d) None) as [m|]; [|by destruct H].
  destruct H as (H1 & _ & [H3|H3]); [|done].
  f_equal. apply Z.le_antisymm.
  - rewrite Hd in H3. apply elem_of_seqZ in H3. fold N in H3. lia.
  - apply H1. rewrite Hd. apply elem_of_seqZ. fold N. lia.
Qed.

Lemma with_dayBreaks_id d : with_dayBreaks d (dayBreaks d) = d.
Proof. by destruct d. Qed.


Lemma as_Int_spec q z : as_Int q = Some z -> (q == inject_Z z)%Q.
Proof.
  unfold as_Int. intros H. rewrite <- (Qred_correct q).
  destruct (Qred q) as [a b]. cbn [Qnum Qden] in H.
  destruct (Z.eqb_spec (Z.pos b) 1) as [E|]; [|done].
  injection H as <-. injection E as ->. reflexivity.
Qed.

Lemma as_Int_inject_Z z : as_Int (inject_Z z) = Some z.
Proof.
  unfold as_Int.
  assert (E : Qred (inject_Z z) = inject_Z z).
  { apply Qcanon.Qred_identity. simpl. apply Z.gcd_1_r. }
  by rewrite E.
Qed.

(** Moving a strip permutes the positions 1..N. *)
Lemma moved_position_inj old new x y :
  old <> new -> moved_position old new x = moved_position old new y -> x = y.
Proof.
  unfold moved_position. intros Hne.
  destruct (Z.eqb_spec x old), (Z.eqb_spec y old), (Z.ltb_spec old new),
    (Z.ltb_spec old x), (Z.leb_spec x new), (Z.ltb_spec old y),
    (Z.leb_spec y new), (Z.leb_spec new x), (Z.ltb_spec x old),
    (Z.leb_spec new y), (Z.ltb_spec y old); simpl; lia.
Qed.

Lemma moved_position_range old new N x :
  1 <= old <= N -> 1 <= new <= N -> 1 <= x <= N ->
  1 <= moved_position old new x <= N.
Proof.
  unfold moved_position. intros Ho Hn Hx.
  destruct (Z.eqb_spec x old), (Z.ltb_spec old new),
    (Z.ltb_spec old x), (Z.leb_spec x new),
    (Z.leb_spec new x), (Z.ltb_spec x old); simpl; lia.
Qed.

Lemma moved_position_perm old new N :
  old <> new -> 1 <= old <= N -> 1 <= new <= N ->
  map (moved_position old new) (seqZ 1 N) ≡ₚ seqZ 1 N.
Proof.
  intros Hne Ho Hn.
  apply submseteq_length_Permutation.
  - apply NoDup_submseteq.
    + change (NoDup (moved_position old new <$> seqZ 1 N)).
      apply NoDup_fmap_2_strong; [|apply NoDup_seqZ].
      intros x y _ _. by apply moved_position_inj.
    + intros x Hx. change (x ∈ moved_position old new <$> seqZ 1 N) in Hx.
      apply list_elem_of_fmap in Hx as (y & -> & Hy).
      apply elem_of_seqZ in Hy. apply elem_of_seqZ.
      pose proof (moved_position_range old new N y Ho Hn). lia.
  - by rewrite length_map.
Qed.

End DbFacts.

Section ReorderFacts.
Import Db Reorder.

(** The row a strip becomes in the transaction. *)
Lemma transaction_rows sid id old np n t :
  as_Int np = Some n ->
  transaction sid id old np t =
  Some (map (fun s =>
          let s1 :=
            if in_schedule sid s &&
               (if old <? n then (old <? position s) && (position s <=? n)
                else (n <=? position s) && (position s <? old))
            then set_position (position s + (if old <? n then -1 else 1)) s
            else s in
          if String.eqb (strip_id s1) id then set_position n s1 else s1) t).
Proof.
  intros Hn.
  unfold transaction. rewrite Hn. f_equal.
  unfold stripSlot_update, stripSlot_updateMany.
  destruct (old <? n); rewrite map_map; reflexivity.
Qed.

Lemma transaction_positions sid id old np n t strip :
  as_Int np = Some n ->
  NoDup (map strip_id t) ->
  NoDup (map position (filter (fun s => in_schedule sid s = true) t)) ->
  strip ∈ t -> strip_id strip = id -> in_schedule sid strip = true ->
  position strip = old ->
  exists t', transaction sid id old np t = Some t' /\
    map position (filter (fun s => in_schedule sid s = true) t')
    = map (moved_position old n)
          (map position (filter (fun s => in_schedule sid s = true) t)).
Proof.
  intros Hn Hpk Hpos Hin Hid Hsch Hold.
  eexists. split; [by apply transaction_rows|].
  rewrite filter_map_pres; cycle 1.
  { intros s. cbv zeta.
    destruct (in_schedule sid s && _); cbn;
      destruct (String.eqb _ id); reflexivity. }
  rewrite !map_map. apply map_ext_in. intros s Hs.
  apply list_elem_of_In, list_elem_of_filter in Hs as [Hs1 Hs2].
  cbv zeta. rewrite Hs1. cbn [andb].
  assert (Hiff : String.eqb (strip_id s) id = (position s =? old)).
  { destruct (String.eqb_spec (strip_id s) id) as [E|E];
      destruct (Z.eqb_spec (position s) old) as [E'|E']; try done.
    - exfalso. apply E'. rewrite <- Hold. f_equal.
      apply (NoDup_map_inj_on strip_id t); [done..|congruence].
    - exfalso. apply E. rewrite <- Hid. f_equal.
      apply (NoDup_map_inj_on position
               (filter (fun s => in_schedule sid s = true) t)); try done.
      + by apply list_elem_of_filter.
      + by apply list_elem_of_filter.
      + congruence. }
  unfold moved_position.
  destruct (old <? n);
    match goal with
    | |- context [if ?c then set_position _ s else s] => destruct c
    end; cbn [strip_id position set_position]; rewrite Hiff;
    destruct (position s =? old); reflexivity.
Qed.


(** The outcomes of the handler: an error or "no change" leave the database
    as it was; an update comes from a committed transaction. *)
Lemma reorder_POST_cases caller pid stripId newPosition d :
  let r := fst (POST caller pid stripId newPosition d) in
  let d' := snd (POST caller pid stripId newPosition d) in
  (d' = d /\ status_of r <> 200) \/ (d' = d /\ r = NoChange) \/
  (exists sch id np n strip t',
      schedule_findUnique pid d = Some sch /\
      stripId = JStr id /\ newPosition = JNum np /\ as_Int np = Some n /\
      stripSlot_findFirst id (schedule_id sch) (stripSlots d) = Some strip /\
      position strip <> n /\
      1 <= n <= int_or (stripSlot_maxPosition (schedule_id sch) (stripSlots d)) 1 /\
      transaction (schedule_id sch) id (position strip) np (stripSlots d) = Some t' /\
      d' = with_stripSlots d t' /\ status_of r = 200).
Proof.
  unfold POST.
  destruct (session_user caller); [|left; by split].
  destruct (negb (hasAccess caller)); [left; by split|].
  destruct (negb (canEdit caller) && negb (isOwner caller)); [left; by split|].
  destruct stripId as [| |?|?|sx|]; try (left; by split).
  destruct sx as [|c id0]; [left; by split|].
  destruct newPosition as [| |?|np|?|]; try (left; by split).
  destruct (Qlt_le_dec np 1) as [|Hge1]; [left; by split|].
  destruct (schedule_findUnique pid d) as [sch|] eqn:Hsch; [|left; by split].
  destruct (stripSlot_findFirst _ _ _) as [strip|] eqn:Hstrip; [|left; by split].
  destruct (Qeq_bool _ np) eqn:Hsame; [right; left; by split|].
  destruct (Qlt_le_dec _ np) as [|Hmax]; [left; by split|].
  destruct (transaction _ _ _ np _) as [t'|] eqn:Htx; [|left; by split].
  right; right.
  assert (exists n, as_Int np = Some n) as [n Hn].
  { unfold transaction in Htx. destruct (as_Int np); [by eexists|done]. }
  pose proof (as_Int_spec _ _ Hn) as Hq.
  exists sch, (String c id0), np, n, strip, t'.
  repeat split; try done.
  - intros E. apply Qeq_bool_neq in Hsame. apply Hsame. rewrite Hq, E. reflexivity.
  - rewrite Hq in Hge1. change 1%Q with (inject_Z 1) in Hge1.
    by rewrite Zle_Qle.
  - rewrite Hq in Hmax. by rewrite Zle_Qle.
Qed.

Lemma dense_NoDup sid d : dense sid d -> NoDup (positions sid d).
Proof. intros H. rewrite H. apply NoDup_seqZ. Qed.

(** A committed transaction permutes the positions 1..N of its schedule. *)
Lemma reorder_update_dense d sch id np n strip t' :
  strip_pk d ->
  dense (schedule_id sch) d ->
  as_Int np = Some n ->
  stripSlot_findFirst id (schedule_id sch) (stripSlots d) = Some strip ->
  position strip <> n ->
  1 <= n <= int_or (stripSlot_maxPosition (schedule_id sch) (stripSlots d)) 1 ->
  transaction (schedule_id sch) id (position strip) np (stripSlots d) = Some t' ->
  positions (schedule_id sch) (with_stripSlots d t')
  = map (moved_position (position strip) n) (positions (schedule_id sch) d)
  /\ dense (schedule_id sch) (with_stripSlots d t')
  /\ 1 <= n <= Z.of_nat (length (positions (schedule_id sch) d)).
Proof.
  intros Hpk Hdense Hn Hfind Hmove Hrange Htx.
  set (sid := schedule_id sch) in *.
  apply find_Some_elem in Hfind as [Hin Hmatch].
  apply andb_true_iff in Hmatch as [Hid Hsid].
  apply String.eqb_eq in Hid.
  destruct (transaction_positions sid id (position strip) np n (stripSlots d) strip)
    as (t'' & Htx' & Hpos); try done.
  { by apply dense_NoDup. }
  assert (t'' = t') as -> by congruence.
  assert (Hpos' : positions sid (with_stripSlots d t')
                  = map (moved_position (position strip) n) (positions sid d))
    by exact Hpos.
  split; [done|]. unfold dense. rewrite Hpos', length_map.
  set (N := Z.of_nat (length (positions sid d))) in *.
  cut (1 <= n <= N /\ 1 <= position strip <= N).
  { intros [Hn' Ho']. split; [|done].
    etrans; [|apply (moved_position_perm (position strip) n N); done].
    change (moved_position (position strip) n <$> positions sid d
            ≡ₚ moved_position (position strip) n <$> seqZ 1 N).
    by apply fmap_Permutation. }
  assert (Hold : position strip ∈ positions sid d).
  { unfold positions. change (position strip ∈ position <$>
      filter (fun s => in_schedule sid s = true) (stripSlots d)).
    apply list_elem_of_fmap_2. by apply list_elem_of_filter. }
  assert (Hne : positions sid d <> [])
    by (intros E; rewrite E in Hold; by apply elem_of_nil in Hold).
  rewrite (dense_maxPosition sid d Hdense Hne) in Hrange. fold N in Hrange.
  pose proof Hold as Hold'. rewrite Hdense in Hold'. apply elem_of_seqZ in Hold'.
  fold N in Hold'.
  assert (HN : int_or (Some N) 1 = N).
  { unfold int_or. destruct (Z.eqb_spec N 0); [lia|done]. }
  rewrite HN in Hrange. lia.
Qed.

(** One reorder call, successful or not, keeps the positions 1..N. *)
Lemma reorder_step_dense caller pid stripId newPosition d sch :
  strip_pk d ->
  schedule_findUnique pid d = Some sch ->
  dense (schedule_id sch) d ->
  dense (schedule_id sch) (snd (POST caller pid stripId newPosition d))
  /\ length (positions (schedule_id sch) (snd (POST caller pid stripId newPosition d)))
     = length (positions (schedule_id sch) d).
Proof.
  intros Hpk Hsch Hdense.
  destruct (reorder_POST_cases caller pid stripId newPosition d)
    as [[-> _]|[[-> _]|Hup]]; [done|done|].
  destruct Hup as (sch' & id & np & n & strip & t' & Hsch' & _ & _ & Hn
                   & Hfind & Hmove & Hrange & Htx & -> & _).
  assert (sch' = sch) as -> by congruence.
  destruct (reorder_update_dense d sch id np n strip t') as (Hpos & Hd & _);
    try done.
  split; [done|]. by rewrite Hpos, length_map.
Qed.

(** A reorder call keeps the identifiers of the strips and the schedules. *)
Lemma reorder_step_frame caller pid stripId newPosition d :
  map strip_id (stripSlots (snd (POST caller pid stripId newPosition d)))
  = map strip_id (stripSlots d)
  /\ schedules (snd (POST caller pid stripId newPosition d)) = schedules d.
Proof.
  destruct (reorder_POST_cases caller pid stripId newPosition d)
    as [[-> _]|[[-> _]|Hup]]; [done|done|].
  destruct Hup as (sch & id & np & n & strip & t' & _ & _ & _ & Hn
                   & _ & _ & _ & Htx & -> & _).
  split; [|done]. cbn [stripSlots with_stripSlots].
  rewrite (transaction_rows _ _ _ _ n) in Htx by done. injection Htx as <-.
  rewrite map_map. apply map_ext. intros s. cbv zeta.
  destruct (in_schedule _ s && _); cbn; destruct (String.eqb _ id); reflexivity.
Qed.

(** After any sequence of reorder calls on a schedule whose positions are
    exactly 1..N, the positions are exactly 1..N. *)
Lemma reorder_sequence_dense caller pid requests : forall d sch,
  strip_pk d ->
  schedule_findUnique pid d = Some sch ->
  dense (schedule_id sch) d ->
  dense (schedule_id sch) (reorders caller pid requests d)
  /\ length (positions (schedule_id sch) (reorders caller pid requests d))
     = length (positions (schedule_id sch) d).
Proof.
  induction requests as [|[stripId newPosition] rest IH]; intros d sch Hpk Hsch Hd;
    [done|].
  unfold reorders. cbn [fold_left fst snd].
  destruct (reorder_step_dense caller pid stripId newPosition d sch Hpk Hsch Hd)
    as [Hd' Hlen].
  destruct (reorder_step_frame caller pid stripId newPosition d) as [Hids Hschs].
  destruct (IH (snd (POST caller pid stripId newPosition d)) sch) as [H1 H2].
  - unfold strip_pk. by rewrite Hids.
  - unfold schedule_findUnique. by rewrite Hschs.
  - done.
  - split; [exact H1|]. unfold reorders in H2. by rewrite H2.
Qed.

(** C1: on a schedule whose positions are exactly 1..N, a successful
    reorder leaves the positions exactly 1..N (same N), without duplicates
    or gaps: either nothing moved, or every position p became
    [moved_position old new p] (down by one in (old, new], up by one in
    [new, old), the moved strip on new). *)
Theorem reorder_preserves_density caller pid stripId newPosition d sch :
  strip_pk d ->
  schedule_findUnique pid d = Some sch ->
  dense (schedule_id sch) d ->
  status_of (fst (POST caller pid stripId newPosition d)) = 200 ->
  let sid := schedule_id sch in
  let d' := snd (POST caller pid stripId newPosition d) in
  dense sid d'
  /\ length (positions sid d') = length (positions sid d)
  /\ (d' = d \/
      exists id strip np new,
        stripId = JStr id /\ newPosition = JNum np /\ (np == inject_Z new)%Q
        /\ stripSlot_findFirst id sid (stripSlots d) = Some strip
        /\ 1 <= new <= Z.of_nat (length (positions sid d))
        /\ positions sid d'
           = map (moved_position (position strip) new) (positions sid d)).
Proof.
  intros Hpk Hsch Hdense Hok sid d'. unfold d'.
  destruct (reorder_POST_cases caller pid stripId newPosition d)
    as [[_ Hne]|[[-> _]|Hup]]; [done|by auto|].
  destruct Hup as (sch' & id & np & n & strip & t' & Hsch' & -> & -> & Hn
                   & Hfind & Hmove & Hrange & Htx & Hd' & _).
  assert (sch' = sch) as -> by congruence. fold sid in Hfind, Hrange, Htx.
  destruct (reorder_update_dense d sch id np n strip t') as (Hpos & Hd & HnN);
    try done.
  fold sid in Hpos, Hd, HnN. rewrite Hd'.
  split; [done|]. split; [by rewrite Hpos, length_map|].
  right. exists id, strip, np, n.
  repeat split; try done; try lia. by apply as_Int_spec.
Qed.

Lemma reorder_preserves_density_witness :
  dense "s1" (snd (POST Sample.editor "p1" (JStr "a") (JNum 3) Sample.db0))
  /\ positions "s1" (snd (POST Sample.editor "p1" (JStr "a") (JNum 3) Sample.db0))
     = [3; 1; 2].
Proof.
  split; [|vm_compute; reflexivity].
  apply (reorder_preserves_density Sample.editor "p1" (JStr "a") (JNum 3)
           Sample.db0 Sample.sch0).
  - apply (bool_decide_unpack _). vm_compute. reflexivity.
  - reflexivity.
  - unfold dense. vm_compute. reflexivity.
  - reflexivity.
Defined.

(** The status codes of the error taxonomy. *)
Lemma reorder_POST_authorised caller pid stripId newPosition d :
  authorised caller ->
  POST caller pid stripId newPosition d =
  match stripId with
  | JStr (String c id') =>
      let id := String c id' in
      match newPosition with
      | JNum np =>
          if Qlt_le_dec np 1 then
            (Error 400 "newPosition must be a positive number", d)
          else
          match schedule_findUnique pid d with
          | None => (Error 404 "Schedule not found", d)
          | Some schedule =>
              let sid := schedule_id schedule in
              match stripSlot_findFirst id sid (stripSlots d) with
              | None => (Error 404 "Strip not found", d)
              | Some strip =>
                  let oldPosition := position strip in
                  if Qeq_bool (inject_Z oldPosition) np then (NoChange, d)
                  else
                    let maxPosition := stripSlot_maxPosition sid (stripSlots d) in
                    if Qlt_le_dec (inject_Z (int_or maxPosition 1)) np then
                      (Error 400 "newPosition exceeds the number of strips", d)
                    else
                      match transaction sid id oldPosition np (stripSlots d) with
                      | None => (Error 500 "Failed to reorder schedule", d)
                      | Some t' =>
                          let d' := with_stripSlots d t' in
                          (Updated
                             (orderBy position
                                (filter (fun s => in_schedule sid s = true) t')),
                           d')
                      end
              end
          end
      | _ => (Error 400 "newPosition must be a positive number", d)
      end
  | _ => (Error 400 "stripId is required", d)
  end.
Proof.
  intros ([u Hu] & Ha & He). unfold POST. rewrite Hu, Ha. cbn [negb].
  assert (negb (canEdit caller) && negb (isOwner caller) = false) as ->.
  { destruct He as [-> | ->]; cbn; [done | by rewrite andb_false_r]. }
  reflexivity.
Qed.




End ReorderFacts.

(* ===================================================================== *)
(** * Renumbering the day breaks *)
(* ===================================================================== *)

Section RenumberFacts.
Import Db Renumber.

Lemma insert_by_map {A} (key : A -> Z) (g : A -> A) x l :
  (forall y, key (g y) = key y) ->
  insert_by key (g x) (map g l) = map g (insert_by key x l).
Proof.
  intros Hg. induction l as [|y l IH]; [done|].
  cbn [map insert_by]. rewrite !Hg. destruct (key x <? key y); [done|].
  cbn [map]. by rewrite IH.
Qed.

Lemma orderBy_map {A} (key : A -> Z) (g : A -> A) l :
  (forall y, key (g y) = key y) ->
  orderBy key (map g l) = map g (orderBy key l).
Proof.
  intros Hg. induction l as [|x l IH]; [done|].
  cbn [map orderBy fold_right]. unfold orderBy in IH. rewrite IH.
  by apply insert_by_map.
Qed.

Lemma insert_by_perm {A} (key : A -> Z) x l : insert_by key x l ≡ₚ x :: l.
Proof.
  induction l as [|y l IH]; [done|]. cbn [insert_by].
  destruct (key x <? key y); [done|]. rewrite IH. apply Permutation_swap.
Qed.

Lemma orderBy_perm {A} (key : A -> Z) l : orderBy key l ≡ₚ l.
Proof.
  induction l as [|x l IH]; [done|]. cbn [orderBy fold_right].
  rewrite insert_by_perm. by apply Permutation_skip.
Qed.

Lemma insert_by_sorted {A} (key : A -> Z) x l :
  Sorted (key_le key) l -> Sorted (key_le key) (insert_by key x l).
Proof.
  induction l as [|y l IH]; intros Hs.
  - repeat constructor.
  - cbn [insert_by]. destruct (Z.ltb_spec (key x) (key y)).
    + constructor; [done|]. constructor. unfold key_le. lia.
    + apply Sorted_inv in Hs as [Hs Hhd]. constructor; [by apply IH|].
      destruct l as [|z l]; cbn [insert_by].
      * constructor. unfold key_le. lia.
      * destruct (key x <? key z).
        -- constructor. unfold key_le. lia.
        -- constructor. by apply HdRel_inv in Hhd.
Qed.

Lemma orderBy_sorted {A} (key : A -> Z) l : Sorted (key_le key) (orderBy key l).
Proof.
  induction l as [|x l IH]; [constructor|].
  cbn [orderBy fold_right]. by apply insert_by_sorted.
Qed.

Lemma rank_in_None id fetched :
  id ∉ map db_id fetched -> rank_in id fetched = None.
Proof.
  induction fetched as [|b r IH]; [done|]. cbn [map rank_in].
  intros Hn. apply not_elem_of_cons in Hn as [Hne Hn].
  destruct (String.eqb_spec (db_id b) id); [done|]. by rewrite IH.
Qed.

(** The updates of the transaction, as one pass over the table. *)
Lemma run_updates_spec fetched : forall k t,
  NoDup (map db_id fetched) ->
  run_updates k fetched t = map (renumber_row k fetched) t.
Proof.
  induction fetched as [|b rest IH]; intros k t Hnd.
  - cbn [run_updates]. unfold renumber_row. cbn [rank_in]. by rewrite map_id.
  - cbn [run_updates]. cbn [map] in Hnd. apply NoDup_cons in Hnd as [Hb Hnd].
    rewrite IH by done. unfold dayBreak_update. rewrite map_map.
    apply map_ext. intros x. unfold renumber_row. cbn [rank_in].
    cbv beta. rewrite (String.eqb_sym (db_id x) (db_id b)).
    destruct (String.eqb (db_id b) (db_id x)) eqn:E.
    + apply String.eqb_eq in E. cbn [db_id set_dayNumber]. rewrite <- E.
      rewrite rank_in_None by done. unfold set_dayNumber. f_equal. lia.
    + destruct (rank_in (db_id x) rest) as [i|]; [|done].
      cbn [option_map]. unfold set_dayNumber. f_equal. lia.
Qed.

Lemma renumber_row_fields k fetched b :
  db_id (renumber_row k fetched b) = db_id b
  /\ db_scheduleId (renumber_row k fetched b) = db_scheduleId b
  /\ afterPosition (renumber_row k fetched b) = afterPosition b.
Proof. unfold renumber_row. by destruct (rank_in _ _). Qed.

Lemma rank_in_map k0 fetched0 id fetched :
  rank_in id (map (renumber_row k0 fetched0) fetched) = rank_in id fetched.
Proof.
  induction fetched as [|b r IH]; [done|]. cbn [map rank_in].
  destruct (renumber_row_fields k0 fetched0 b) as [-> _]. by rewrite IH.
Qed.

(** Renumbering the fetched rows themselves numbers them 1, 2, ... *)
Lemma renumber_fetched fetched : forall k pre,
  NoDup (map db_id (pre ++ fetched)) ->
  map dayNumber
      (map (renumber_row k (pre ++ fetched)) fetched)
  = seqZ (k + Z.of_nat (length pre) + 1) (Z.of_nat (length fetched)).
Proof.
  induction fetched as [|b r IH]; intros k pre Hnd; [done|].
  cbn [map length]. rewrite seqZ_cons by lia.
  f_equal.
  - unfold renumber_row.
    assert (Hr : rank_in (db_id b) (pre ++ b :: r) = Some (Z.of_nat (length pre))).
    { clear IH. induction pre as [|a pre IHp].
      - cbn. by rewrite String.eqb_refl.
      - cbn [app rank_in length]. cbn [app map] in Hnd.
        apply NoDup_cons in Hnd as [Ha Hnd].
        destruct (String.eqb_spec (db_id a) (db_id b)) as [E|E].
        + exfalso. apply Ha. rewrite E, map_app. apply elem_of_app. right.
          cbn [map]. apply elem_of_cons. by left.
        + rewrite IHp by done. cbn [option_map]. f_equal. lia. }
    rewrite Hr. cbn. lia.
  - specialize (IH k (pre ++ [b])). rewrite <- !app_assoc in IH. cbn [app] in IH.
    rewrite IH by done. rewrite length_app. cbn [length]. f_equal; lia.
Qed.

Lemma renumber_row_idem k fetched b :
  renumber_row k fetched (renumber_row k fetched b) = renumber_row k fetched b.
Proof.
  unfold renumber_row at 1. destruct (renumber_row_fields k fetched b) as [-> _].
  unfold renumber_row. by destruct (rank_in (db_id b) fetched).
Qed.


Lemma NoDup_map_filter {A B} (f : A -> B) (P : A -> Prop)
    `{forall x, Decision (P x)} (l : list A) :
  NoDup (map f l) -> NoDup (map f (filter P l)).
Proof.
  induction l as [|x l IH]; [done|]. cbn [map]. intros [Hx Hl]%NoDup_cons.
  rewrite filter_cons. destruct (decide (P x)); [|by apply IH].
  cbn [map]. apply NoDup_cons. split; [|by apply IH].
  intros Hin. apply Hx.
  change (f x ∈ f <$> filter P l) in Hin.
  apply list_elem_of_fmap in Hin as (y & -> & Hy).
  apply list_elem_of_filter in Hy as [_ Hy].
  change (f y ∈ f <$> l). by apply list_elem_of_fmap_2.
Qed.

Lemma findMany_NoDup sid t :
  NoDup (map db_id t) -> NoDup (map db_id (dayBreak_findMany sid t)).
Proof.
  intros H. unfold dayBreak_findMany.
  change (NoDup (db_id <$> orderBy afterPosition
            (filter (fun b => db_in_schedule sid b = true) t))).
  rewrite orderBy_perm. by apply NoDup_map_filter.
Qed.

(** Fetching after the renumbering gives the fetched rows, renumbered. *)
Lemma findMany_renumbered sid k fetched t :
  dayBreak_findMany sid (map (renumber_row k fetched) t)
  = map (renumber_row k fetched) (dayBreak_findMany sid t).
Proof.
  unfold dayBreak_findMany.
  rewrite (filter_map_pres (db_in_schedule sid)); cycle 1.
  { intros b. unfold db_in_schedule.
    by destruct (renumber_row_fields k fetched b) as (_ & -> & _). }
  apply orderBy_map. intros b.
  by destruct (renumber_row_fields k fetched b) as (_ & _ & ->).
Qed.

Lemma renumber_POST_authorised caller pid d sch :
  authorised caller -> schedule_findUnique pid d = Some sch ->
  POST caller pid d =
  (Renumbered
     (dayBreak_findMany (schedule_id sch)
        (run_updates 0 (dayBreak_findMany (schedule_id sch) (dayBreaks d))
           (dayBreaks d))),
   with_dayBreaks d
     (run_updates 0 (dayBreak_findMany (schedule_id sch) (dayBreaks d))
        (dayBreaks d))).
Proof.
  intros ([u Hu] & Ha & He) Hsch. unfold POST. rewrite Hu, Ha. cbn [negb].
  assert (negb (canEdit caller) && negb (isOwner caller) = false) as ->.
  { destruct He as [-> | ->]; cbn; [done | by rewrite andb_false_r]. }
  by rewrite Hsch.
Qed.

(** C7: renumbering gives every day break of the schedule its 1-based rank
    in afterPosition order: afterwards the day breaks sorted by
    afterPosition are the same breaks as before, with dayNumbers exactly
    1, 2, ..., B, and a second call changes nothing. *)
Theorem renumber_ranks caller pid d sch :
  authorised caller ->
  schedule_findUnique pid d = Some sch ->
  dayBreak_pk d ->
  let sid := schedule_id sch in
  let before := dayBreak_findMany sid (dayBreaks d) in
  let d' := snd (POST caller pid d) in
  let after := dayBreak_findMany sid (dayBreaks d') in
  fst (POST caller pid d) = Renumbered after
  /\ Sorted (key_le afterPosition) after
  /\ map db_id after = map db_id before
  /\ map afterPosition after = map afterPosition before
  /\ map dayNumber after = seqZ 1 (Z.of_nat (length (afterPositions sid d)))
  /\ snd (POST caller pid d') = d'
  /\ fst (POST caller pid d') = fst (POST caller pid d).
Proof.
  intros Hauth Hsch Hpk sid before d' after.
  assert (Hd' : d' = with_dayBreaks d (map (renumber_row 0 before) (dayBreaks d))).
  { unfold d'. rewrite (renumber_POST_authorised _ _ _ sch) by done. cbn [snd].
    fold sid. fold before. rewrite run_updates_spec; [done|].
    by apply findMany_NoDup. }
  assert (Hafter : after = map (renumber_row 0 before) before).
  { unfold after. rewrite Hd'. cbn [dayBreaks with_dayBreaks].
    apply findMany_renumbered. }
  assert (Hnd : NoDup (map db_id before)) by (by apply findMany_NoDup).
  assert (Hsch' : schedule_findUnique pid d' = Some sch) by (by rewrite Hd').
  assert (Hidem : POST caller pid d' = (Renumbered after, d')).
  { rewrite (renumber_POST_authorised _ _ _ sch) by done. fold sid. fold after.
    assert (Ht : run_updates 0 after (dayBreaks d') = dayBreaks d').
    { rewrite run_updates_spec; cycle 1.
      { rewrite Hafter, map_map.
        erewrite map_ext; [exact Hnd|]. intros b.
        by destruct (renumber_row_fields 0 before b) as [-> _]. }
      rewrite Hd'. cbn [dayBreaks with_dayBreaks]. rewrite map_map.
      apply map_ext. intros b. rewrite Hafter.
      unfold renumber_row at 1. rewrite rank_in_map.
      destruct (renumber_row_fields 0 before b) as [-> _].
      unfold renumber_row. by destruct (rank_in (db_id b) before). }
    rewrite Ht. f_equal. apply with_dayBreaks_id. }
  repeat split.
  - rewrite (renumber_POST_authorised _ _ _ sch) by done. cbn [fst]. f_equal.
    unfold after, d'. by rewrite (renumber_POST_authorised _ _ _ sch) by done.
  - apply orderBy_sorted.
  - rewrite Hafter, map_map. apply map_ext. intros b.
    by destruct (renumber_row_fields 0 before b) as [-> _].
  - rewrite Hafter, map_map. apply map_ext. intros b.
    by destruct (renumber_row_fields 0 before b) as (_ & _ & ->).
  - rewrite Hafter.
    pose proof (renumber_fetched before 0 [] Hnd) as Hr.
    cbn [app length] in Hr. rewrite Hr.
    f_equal. f_equal. unfold afterPositions. rewrite length_map.
    unfold before, dayBreak_findMany. by rewrite orderBy_perm.
  - by rewrite Hidem.
  - rewrite Hidem. cbn [fst].
    rewrite (renumber_POST_authorised _ _ _ sch) by done. cbn [fst]. f_equal.
    unfold after, d'. by rewrite (renumber_POST_authorised _ _ _ sch) by done.
Qed.

Lemma renumber_ranks_witness :
  map dayNumber
      (dayBreak_findMany "s1" (dayBreaks (snd (POST Sample.editor "p1" Sample.db0))))
  = seqZ 1 (Z.of_nat (length (afterPositions "s1" Sample.db0))).
Proof.
  assert (Ha : authorised Sample.editor).
  { split; [by eexists|]. split; [reflexivity | left; reflexivity]. }
  assert (Hpk : dayBreak_pk Sample.db0).
  { apply (bool_decide_unpack _). vm_compute. reflexivity. }
  exact (proj1 (proj2 (proj2 (proj2 (proj2
           (renumber_ranks Sample.editor "p1" Sample.db0 Sample.sch0
              Ha eq_refl Hpk)))))).
Defined.

End RenumberFacts.

(* ===================================================================== *)
(** * Toggling a day break *)
(* ===================================================================== *)

Section ToggleFacts.
Import Db Toggle.

Lemma toggle_POST_authorised caller pid p newId d sch :
  authorised caller -> schedule_findUnique pid d = Some sch -> 0 <= p ->
  POST caller pid (JNum (inject_Z p)) newId d =
  match dayBreak_findUnique (schedule_id sch) p (dayBreaks d) with
  | Some existingDayBreak =>
      (Deleted existingDayBreak,
       with_dayBreaks d (dayBreak_delete (db_id existingDayBreak) (dayBreaks d)))
  | None =>
      let newDayBreak :=
        {| db_id := newId; db_scheduleId := schedule_id sch;
           afterPosition := p;
           dayNumber := int_or (dayBreak_maxDayNumber (schedule_id sch) (dayBreaks d)) 0 + 1;
           shootDate := None; notes := None |} in
      (Created newDayBreak, with_dayBreaks d (dayBreaks d ++ [newDayBreak]))
  end.
Proof.
  intros ([u Hu] & Ha & He) Hsch Hp. unfold POST. rewrite Hu, Ha. cbn [negb].
  assert (negb (canEdit caller) && negb (isOwner caller) = false) as ->.
  { destruct He as [-> | ->]; cbn; [done | by rewrite andb_false_r]. }
  destruct (Qlt_le_dec (inject_Z p) 0) as [Hlt|_].
  { exfalso. change 0%Q with (inject_Z 0) in Hlt. rewrite <- Zlt_Qlt in Hlt. lia. }
  rewrite Hsch, as_Int_inject_Z. reflexivity.
Qed.




Lemma afterPositions_elem sid d x :
  x ∈ afterPositions sid d <->
  exists b, b ∈ dayBreaks d /\ db_scheduleId b = sid /\ afterPosition b = x.
Proof.
  unfold afterPositions.
  change (map afterPosition ?l) with (afterPosition <$> l).
  rewrite list_elem_of_fmap. split.
  - intros (b & -> & [Hs Hb]%list_elem_of_filter).
    exists b. split; [done|]. split; [|done]. by apply String.eqb_eq.
  - intros (b & Hb & Hs & <-). exists b. split; [done|].
    apply list_elem_of_filter. split; [|done]. by apply String.eqb_eq.
Qed.



(** The day number of a recreated break need not be the original one:
    the break after position 2 has day number 1 before and 3 after two
    toggles. *)
Lemma toggle_twice_dayNumber_changes :
  map (fun b => (afterPosition b, dayNumber b)) (dayBreaks Sample.db0)
  = [(3, 2); (2, 1)]
  /\ map (fun b => (afterPosition b, dayNumber b))
       (dayBreaks (snd (POST Sample.editor "p1" (JNum (inject_Z 2)) "n2"
          (snd (POST Sample.editor "p1" (JNum (inject_Z 2)) "n1" Sample.db0)))))
     = [(3, 2); (2, 3)].
Proof. split; vm_compute; reflexivity. Qed.

End ToggleFacts.

(* ===================================================================== *)
(** * Day segments *)
(* ===================================================================== *)

Section SegmentFacts.
Import Client Segments.

Lemma dayBreakMap_lookup dbs : forall (m : gmap Z Db.DayBreak) p,
  is_Some (fold_left (fun m b => <[Db.afterPosition b := b]> m) dbs m !! p)
  <-> is_Some (m !! p) \/ p ∈ map Db.afterPosition dbs.
Proof.
  induction dbs as [|b dbs IH]; intros m p; cbn [fold_left map].
  - split; [by left | intros [H|H]; [done | by apply elem_of_nil in H]].
  - rewrite IH, elem_of_cons. destruct (decide (Db.afterPosition b = p)) as [<-|Hne].
    + rewrite lookup_insert_eq. split; [intros _; right; by left | by left; eexists].
    + rewrite lookup_insert_ne by done. split; intros [H|H]; auto.
      destruct H as [->|H]; [done | auto].
Qed.

(** A position has a break in the map iff some day break follows it. *)
Lemma has_dayBreakMap dbs p :
  has (dayBreakMap dbs) p = true <-> p ∈ map Db.afterPosition dbs.
Proof.
  unfold has, dayBreakMap.
  pose proof (dayBreakMap_lookup dbs ∅ p) as H. rewrite lookup_empty in H.
  destruct (fold_left _ dbs ∅ !! p) as [b|].
  - split; [intros _|done].
    destruct (proj1 H (ltac:(by eexists))) as [[? ?]|?]; done.
  - split; [done|]. intros Hp.
    destruct (proj2 H (or_intror Hp)) as [? ?]. done.
Qed.

(** The loop closes one segment per strip followed by a break and leaves
    the current day empty exactly when the last strip had a break. *)
Lemma group_fold m strips : forall days cur,
  length (fst (fold_left (group_step m) strips (days, cur)))
  = (length days
     + length (filter (fun s => has m (position s) = true) strips))%nat
  /\ (snd (fold_left (group_step m) strips (days, cur)) = [] <->
      match last strips with
      | Some s => has m (position s) = true
      | None => cur = []
      end).
Proof.
  induction strips as [|s r IH]; intros days cur.
  - cbn. split; [lia | done].
  - cbn [fold_left]. rewrite filter_cons, last_cons.
    assert (Hstep : group_step m (days, cur) s =
                    if has m (position s) then (days ++ [cur ++ [s]], [])
                    else (days, cur ++ [s])) by reflexivity.
    rewrite Hstep. clear Hstep.
    destruct (has m (position s)) eqn:Hs.
    + rewrite decide_True by done.
      destruct (IH (days ++ [cur ++ [s]]) []) as [H1 H2]. split.
      * rewrite H1, length_app. cbn [length]. lia.
      * rewrite H2. destruct (last r); intuition congruence.
    + rewrite decide_False by done.
      destruct (IH days (cur ++ [s])) as [H1 H2]. split; [done|].
      rewrite H2. destruct (last r); [done|].
      split; [|congruence]. intros E. by apply app_eq_nil in E as [_ ?].
Qed.

Lemma groupStripsByDay_length strips dbs s :
  last strips = Some s ->
  length (groupStripsByDay strips dbs)
  = (length (filter (fun s => has (dayBreakMap dbs) (position s) = true) strips)
     + (if has (dayBreakMap dbs) (position s) then 0 else 1))%nat.
Proof.
  intros Hlast. unfold groupStripsByDay.
  destruct (group_fold (dayBreakMap dbs) strips [] []) as [H1 H2].
  rewrite Hlast in H2.
  destruct (fold_left _ strips ([], [])) as [days cur]. cbn [fst snd] in *.
  cbn [length] in H1.
  destruct (has (dayBreakMap dbs) (position s)).
  - rewrite (proj2 H2 eq_refl). cbn [length Nat.ltb Nat.leb]. lia.
  - destruct cur as [|c cur]; [exfalso; by pose proof (proj1 H2 eq_refl)|].
    cbn [length Nat.ltb Nat.leb]. rewrite length_app. cbn [length]. lia.
Qed.

(** With distinct positions and distinct break positions that all belong
    to strips, the strips followed by a break are as many as the breaks. *)
Lemma breaks_counted strips dbs :
  NoDup (map position strips) ->
  NoDup (map Db.afterPosition dbs) ->
  (forall b, b ∈ dbs -> Db.afterPosition b ∈ map position strips) ->
  length (filter (fun s => has (dayBreakMap dbs) (position s) = true) strips)
  = length dbs.
Proof.
  intros Hs Hb Hsub.
  rewrite <- (length_map Db.afterPosition dbs).
  rewrite <- (length_map position (filter _ strips)).
  apply Permutation_length, NoDup_Permutation; [|done|].
  - by apply NoDup_map_filter.
  - intros p. change (map position ?l) with (position <$> l).
    rewrite list_elem_of_fmap. split.
    + intros (s & -> & [Hh _]%list_elem_of_filter). by apply has_dayBreakMap.
    + intros Hp.
      assert (Hp' : p ∈ position <$> strips).
      { change (Db.afterPosition <$> dbs) with (map Db.afterPosition dbs) in Hp.
        change (p ∈ Db.afterPosition <$> dbs) in Hp.
        apply list_elem_of_fmap in Hp as (b & -> & Hbin). by apply Hsub. }
      apply list_elem_of_fmap in Hp' as (s & -> & Hsin).
      exists s. split; [done|]. apply list_elem_of_filter. split; [|done].
      by apply has_dayBreakMap.
Qed.

(** C2 (amended): for a non-empty list of strips with distinct positions
    and B day breaks with distinct afterPositions that are all positions of
    strips, the grouping yields B segments when the last strip's position
    is a break position and B+1 when it is not; five strips with breaks
    after positions 2 and 4 give three segments of sizes 2, 2, 1. *)
Theorem day_segments_count :
  (forall strips dbs s,
     last strips = Some s ->
     NoDup (map position strips) ->
     NoDup (map Db.afterPosition dbs) ->
     (forall b, b ∈ dbs -> Db.afterPosition b ∈ map position strips) ->
     length (groupStripsByDay strips dbs)
     = if has (dayBreakMap dbs) (position s) then length dbs
       else S (length dbs))
  /\ map length (groupStripsByDay Sample.strips5 Sample.breaks24)
     = [2; 2; 1]%nat.
Proof.
  split; [|vm_compute; reflexivity].
  intros strips dbs s Hlast Hs Hb Hsub.
  rewrite (groupStripsByDay_length strips dbs s Hlast).
  rewrite breaks_counted by done.
  destruct (has _ _); lia.
Qed.

Lemma day_segments_count_witness :
  length (groupStripsByDay Sample.strips5 Sample.breaks24) = 3%nat.
Proof.
  refine (eq_trans (proj1 day_segments_count Sample.strips5 Sample.breaks24
                      (Client.mkStrip "e" 5 (Sample.scene "4" "1" ["Y"%string]))
                      eq_refl _ _ _) _).
  - apply (bool_decide_unpack _). vm_compute. reflexivity.
  - apply (bool_decide_unpack _). vm_compute. reflexivity.
  - intros b [->|[->|Hb%elem_of_nil]%elem_of_cons]%elem_of_cons; [| |done];
      apply (bool_decide_unpack _); vm_compute; reflexivity.
  - vm_compute. reflexivity.
Defined.

(** C2 as stated fails for a day break that follows no strip: one strip at
    position 1 and one break after position 5 give one segment, although
    the last strip's position is not a break position (B + 1 = 2); and an
    empty board with no break gives no segment (B + 1 = 1). *)
Lemma day_segments_count_counterexample :
  let strips := [Client.mkStrip "a" 1 (Sample.scene "1" "1" [])] in
  let dbs := [Db.mkDayBreak "k" "s1" 5 1 None None] in
  has (dayBreakMap dbs) 1 = false
  /\ length dbs = 1%nat
  /\ length (groupStripsByDay strips dbs) = 1%nat
  /\ length (groupStripsByDay [] []) = 0%nat.
Proof. repeat split; vm_compute; reflexivity. Qed.

End SegmentFacts.

(* ===================================================================== *)
(** * Day Out of Days *)
(* ===================================================================== *)

Section DOODFacts.
Import Client DOOD.

Lemma spec_scan_length works : forall started,
  length (spec_scan started works) = length works.
Proof.
  induction works as [|[] r IH]; intros started; cbn; [done|by rewrite IH..].
Qed.

Lemma last_work_index_lt works j :
  last_work_index works = Some j -> (j < length works)%nat.
Proof.
  revert j. induction works as [|w r IH]; intros j; cbn; [done|].
  destruct (last_work_index r) as [k|].
  - intros [= <-]. specialize (IH k eq_refl). lia.
  - destruct w; [|done]. intros [= <-]. lia.
Qed.

(** The scan, as a whole: it appends the statuses of the reference scan and
    remembers the last working day. *)
Lemma scan_fold char days : forall k a started last,
  fold_left (scan_step char)
    (combine (seqZ k (Z.of_nat (length days))) days) (mkScan a started last)
  = mkScan (a ++ spec_scan started (map (worksToday char) days))
           (started || existsb (fun b => b) (map (worksToday char) days))
           (last_or (map (worksToday char) days) last k).
Proof.
  induction days as [|day days IH]; intros k a started last.
  - cbn. by rewrite app_nil_r, orb_false_r.
  - cbn [length]. rewrite Nat2Z.inj_succ, seqZ_cons by lia.
    rewrite Z.pred_succ. cbn [combine fold_left map].
    unfold scan_step at 2. cbn [hasStarted status lastWorkDay].
    unfold last_or. cbn [last_work_index spec_scan existsb].
    destruct (worksToday char day) eqn:Hw.
    + assert (Hst : (if negb started
                     then mkScan (a ++ ["SW"%string]) true k
                     else mkScan (a ++ ["W"%string]) started k)
                    = mkScan (a ++ [(if started then "W" else "SW")%string]) true k)
        by (by destruct started).
      rewrite Hst, IH. unfold last_or. rewrite <- app_assoc. cbn [app].
      rewrite orb_true_r. cbn [orb]. f_equal.
      destruct (last_work_index _); lia.
    + assert (Hst : (if started
                     then mkScan (a ++ ["H"%string]) started last
                     else mkScan (a ++ [""%string]) started last)
                    = mkScan (a ++ [(if started then "H" else "")%string]) started last)
        by (by destruct started).
      rewrite Hst, IH. unfold last_or. rewrite <- app_assoc. cbn [app orb].
      f_equal. destruct (last_work_index _); lia.
Qed.

(** The index written after the scan lies inside the status array. *)
Lemma lastWorkDay_in_range char days :
  let st := fold_left (scan_step char) (indexed days) (mkScan [] false (-1)) in
  -1 <= lastWorkDay st < Z.of_nat (length (status st)).
Proof.
  unfold indexed. rewrite scan_fold. cbn [status lastWorkDay app].
  rewrite spec_scan_length. unfold last_or.
  destruct (last_work_index _) as [j|] eqn:Hj; [|lia].
  apply last_work_index_lt in Hj. lia.
Qed.

(** Writing one value at a list of indices. *)
Lemma sets_lookup v idxs : forall (a : list string) (i : nat),
  fold_left (fun a j => array_set a j v) idxs a !! i
  = if bool_decide (i ∈ map Z.to_nat idxs) && bool_decide (i < length a)%nat
    then Some v else a !! i.
Proof.
  induction idxs as [|j idxs IH]; intros a i; cbn [fold_left map].
  - by rewrite bool_decide_eq_false_2 by apply not_elem_of_nil.
  - rewrite IH. unfold array_set. rewrite length_insert.
    destruct (decide (i < length a)%nat) as [Hlt|Hge].
    + rewrite (bool_decide_eq_true_2 (i < length a)%nat) by done.
      rewrite !andb_true_r.
      destruct (decide (i ∈ map Z.to_nat idxs)) as [Hin|Hnin].
      * rewrite !bool_decide_eq_true_2; [done| |done].
        apply elem_of_cons. by right.
      * rewrite (bool_decide_eq_false_2 _ Hnin).
        destruct (decide (Z.to_nat j = i)) as [E|E].
        -- rewrite bool_decide_eq_true_2 by (apply elem_of_cons; by left).
           subst i. by rewrite list_lookup_insert_eq.
        -- rewrite bool_decide_eq_false_2
             by (intros [?|?]%elem_of_cons; congruence).
           by rewrite list_lookup_insert_ne.
    + rewrite (bool_decide_eq_false_2 (i < length a)%nat) by done.
      rewrite !andb_false_r.
      rewrite !lookup_ge_None_2; [done|lia|rewrite length_insert; lia].
Qed.

Lemma clear_after_lookup a last i :
  -1 <= last ->
  clear_after a last !! i
  = if bool_decide (last < Z.of_nat i) && bool_decide (i < length a)%nat
    then Some ""%string else a !! i.
Proof.
  intros Hlast. unfold clear_after. rewrite sets_lookup.
  destruct (decide (i < length a)%nat) as [Hlt|Hge].
  - rewrite (bool_decide_eq_true_2 (i < length a)%nat) by done.
    rewrite !andb_true_r.
    assert (Hiff : i ∈ map Z.to_nat
              (seqZ (last + 1) (Z.of_nat (length a) - (last + 1)))
            <-> last < Z.of_nat i).
    { change (map Z.to_nat ?l) with (Z.to_nat <$> l).
      rewrite list_elem_of_fmap. split.
      - intros (j & -> & Hj%elem_of_seqZ). lia.
      - intros Hi. exists (Z.of_nat i). split; [lia|].
        apply elem_of_seqZ. lia. }
    by rewrite (bool_decide_ext _ _ Hiff).
  - rewrite (bool_decide_eq_false_2 (i < length a)%nat) by done.
    by rewrite !andb_false_r.
Qed.

(** Without a working day the reference scan is blank throughout. *)
Lemma spec_scan_blank works i :
  last_work_index works = None -> (i < length works)%nat ->
  spec_scan false works !! i = Some ""%string.
Proof.
  revert i. induction works as [|w r IH]; intros i; cbn; [lia|].
  destruct (last_work_index r) eqn:E; [done|]. destruct w; [done|].
  intros _ Hi. destruct i as [|i]; [done|]. cbn. apply IH; [done|lia].
Qed.

Lemma statuses_spec char days :
  statuses char days = spec_statuses (map (worksToday char) days).
Proof.
  unfold statuses, indexed. rewrite scan_fold.
  cbn [status lastWorkDay app]. unfold spec_statuses, last_or.
  set (works := map (worksToday char) days).
  set (a := spec_scan false works).
  assert (Hlen : length a = length works) by apply spec_scan_length.
  destruct (last_work_index works) as [j|] eqn:Hj.
  - pose proof (last_work_index_lt works j Hj) as Hjlt.
    rewrite Z.add_0_l.
    assert (H0 : (0 <=? Z.of_nat j) = true) by (apply Z.leb_le; lia).
    rewrite H0. cbn [andb].
    unfold array_get. destruct (Z.ltb_spec (Z.of_nat j) 0) as [|_]; [lia|].
    rewrite Nat2Z.id.
    destruct (a !! j) as [s|] eqn:Hs; cycle 1.
    { apply lookup_ge_None in Hs. lia. }
    set (promoted := (if String.eqb s "SW" then "SWF" else "WF")%string).
    assert (Hset : (if negb (bool_decide (Some s = Some "SW"%string))
                    then array_set a (Z.of_nat j) "WF"%string
                    else array_set a (Z.of_nat j) "SWF"%string)
                   = <[j := promoted]> a).
    { unfold array_set, promoted. rewrite Nat2Z.id.
      destruct (String.eqb_spec s "SW") as [->|Hne].
      - by rewrite bool_decide_eq_true_2.
      - rewrite bool_decide_eq_false_2; [done|]. by intros [= ->]. }
    rewrite Hset. apply list_eq. intros i.
    rewrite clear_after_lookup by lia. rewrite length_insert.
    unfold spec_finish. rewrite list_lookup_imap.
    destruct (decide (i < length a)%nat) as [Hlt|Hge]; cycle 1.
    { rewrite (bool_decide_eq_false_2 (i < length a)%nat) by done.
      rewrite andb_false_r.
      rewrite !lookup_ge_None_2; [done|lia|rewrite length_insert; lia]. }
    rewrite (bool_decide_eq_true_2 (i < length a)%nat) by done.
    rewrite andb_true_r.
    destruct (a !! i) as [si|] eqn:Hsi; cycle 1.
    { apply lookup_ge_None in Hsi. lia. }
    cbn [fmap option_fmap option_map].
    destruct (Nat.ltb_spec i j) as [Hij|Hij].
    + rewrite bool_decide_eq_false_2 by lia.
      rewrite list_lookup_insert_ne by lia. by rewrite Hsi.
    + destruct (Nat.eqb_spec i j) as [->|Hne].
      * rewrite bool_decide_eq_false_2 by lia.
        rewrite list_lookup_insert_eq by lia.
        unfold promoted. by replace si with s by congruence.
      * by rewrite bool_decide_eq_true_2 by lia.
  - cbn [Z.leb andb]. change (0 <=? -1) with false. cbn [andb].
    apply list_eq. intros i. rewrite clear_after_lookup by lia.
    destruct (decide (i < length a)%nat) as [Hlt|Hge].
    + rewrite bool_decide_eq_true_2 by lia.
      rewrite (bool_decide_eq_true_2 (i < length a)%nat) by done.
      cbn [andb]. symmetry. apply spec_scan_blank; [done|lia].
    + rewrite (bool_decide_eq_false_2 (i < length a)%nat) by done.
      by rewrite andb_false_r.
Qed.

Lemma workDays_spec a : workDays a = spec_workDays a.
Proof.
  unfold workDays, spec_workDays. f_equal. apply filter_ext. intros s.
  unfold is_work. cbn [existsb]. rewrite orb_false_r.
  destruct (decide (s ∈ ["SW"; "W"; "WF"; "SWF"]%string)) as [Hin|Hnin].
  - rewrite bool_decide_eq_true_2 by done.
    repeat (apply elem_of_cons in Hin as [->|Hin]; [done|]).
    by apply elem_of_nil in Hin.
  - rewrite bool_decide_eq_false_2 by done.
    destruct (String.eqb_spec s "W") as [->|_];
      [exfalso; apply Hnin; set_solver|].
    destruct (String.eqb_spec s "SW") as [->|_];
      [exfalso; apply Hnin; set_solver|].
    destruct (String.eqb_spec s "WF") as [->|_];
      [exfalso; apply Hnin; set_solver|].
    destruct (String.eqb_spec s "SWF") as [->|_];
      [exfalso; apply Hnin; set_solver|]. done.
Qed.

Lemma spec_scan_is_work works : forall started,
  Forall2 (fun s w => is_work s = w) (spec_scan started works) works.
Proof.
  induction works as [|w r IH]; intros started; [constructor|].
  destruct w; cbn [spec_scan]; constructor; try apply IH;
    by destruct started.
Qed.

Lemma last_work_index_works works k :
  last_work_index works = Some k ->
  works !! k = Some true /\ forall i, (k < i)%nat -> works !! i <> Some true.
Proof.
  revert k. induction works as [|w r IH]; intros k; cbn [last_work_index]; [done|].
  destruct (last_work_index r) as [j|] eqn:Hj.
  - intros [= <-]. destruct (IH j eq_refl) as [H1 H2]. split; [done|].
    intros [|i] Hi; [lia|]. cbn. apply H2. lia.
  - destruct w; [|done]. intros [= <-]. split; [done|].
    intros [|i] Hi; [lia|]. cbn. clear IH Hi. revert i.
    induction r as [|w' r' IHr]; intros i; [done|].
    cbn [last_work_index] in Hj.
    destruct (last_work_index r') eqn:Hj'; [done|]. destruct w'; [done|].
    destruct i as [|i]; [done|]. cbn. by apply IHr.
Qed.

Lemma last_work_index_none works i :
  last_work_index works = None -> works !! i <> Some true.
Proof.
  revert i. induction works as [|w r IH]; intros i; cbn [last_work_index]; [done|].
  destruct (last_work_index r) eqn:Hj; [done|]. destruct w; [done|].
  intros _. destruct i as [|i]; [done|]. cbn. by apply IH.
Qed.

(** A final status is a working one exactly on the days the member works. *)
Lemma spec_statuses_is_work works :
  Forall2 (fun s w => is_work s = w) (spec_statuses works) works.
Proof.
  unfold spec_statuses. cbv zeta.
  pose proof (spec_scan_is_work works false) as Hscan.
  destruct (last_work_index works) as [k|] eqn:Hk; [|done].
  destruct (last_work_index_works works k Hk) as [Hwk Hafter].
  apply Forall2_same_length_lookup_2.
  - unfold spec_finish. rewrite length_imap. by eapply Forall2_length.
  - intros i s w Hs Hw. unfold spec_finish in Hs.
    rewrite list_lookup_imap in Hs.
    destruct (spec_scan false works !! i) as [s0|] eqn:Hs0; [|done].
    cbn [fmap option_fmap option_map] in Hs. injection Hs as <-.
    pose proof (Forall2_lookup_lr _ _ _ _ _ _ Hscan Hs0 Hw) as Hsw.
    cbv beta in Hsw.
    destruct (Nat.ltb_spec i k); [exact Hsw|].
    destruct (Nat.eqb_spec i k) as [->|Hne].
    + assert (w = true) as -> by congruence.
      by destruct (String.eqb s0 "SW").
    + destruct w; [|reflexivity]. exfalso. apply (Hafter i); [lia|done].
Qed.

Lemma filter_is_work_length a works :
  Forall2 (fun s w => is_work s = w) a works ->
  length (List.filter is_work a) = length (List.filter (fun w => w) works).
Proof.
  induction 1 as [|s w a' works' Hsw _ IH]; [done|].
  cbn [List.filter]. rewrite Hsw. destruct w; cbn [length]; lia.
Qed.

(** The working-day count is the number of day segments the member works
    in. *)
Lemma workDays_counts_working_days char days :
  workDays (statuses char days)
  = length (List.filter (fun w => w) (map (worksToday char) days)).
Proof.
  rewrite statuses_spec. unfold workDays.
  apply filter_is_work_length, spec_statuses_is_work.
Qed.

(** C3: for every cast member and every list of day segments the status
    row of the DOOD matrix is the one of the reference algorithm, and the
    working-day count is the number of SW, W, WF and SWF entries.  A member
    appearing only in segment 2 of 3 gets "", "SWF", "" and 1 day; one
    appearing in segments 1 and 3 gets "SW", "H", "WF" and 2 days. *)
Theorem dood_matches_reference :
  (forall char days,
     statuses char days = spec_statuses (map (worksToday char) days)
     /\ workDays (statuses char days)
        = spec_workDays (spec_statuses (map (worksToday char) days)))
  /\ dood_row Sample.charX Sample.schedule5
     = ([""; "SWF"; ""]%string, 1%nat)
  /\ dood_row Sample.charY Sample.schedule5
     = (["SW"; "H"; "WF"]%string, 2%nat).
Proof.
  split; [|split; vm_compute; reflexivity].
  intros char days. split; [apply statuses_spec|].
  by rewrite workDays_spec, statuses_spec.
Qed.

End DOODFacts.

(* ===================================================================== *)
(** * Shoot dates *)
(* ===================================================================== *)

Section DateFacts.
Import Client Date.

Lemma MonthFromTime_range t : 0 <= MonthFromTime t <= 11.
Proof.
  unfold MonthFromTime.
  repeat match goal with
  | |- context [if ?c then _ else _] => destruct c
  end; lia.
Qed.

(** Counting days on from the date of [t] counts day numbers. *)
Lemma MakeDay_from_date t k :
  MakeDay (YearFromTime t) (MonthFromTime t) (DateFromTime t + k) = Day t + k.
Proof.
  pose proof (MonthFromTime_range t) as Hm.
  unfold MakeDay. rewrite Z.div_small, Z.mod_small by lia.
  rewrite Z.add_0_r.
  unfold DateFromTime, DayWithinYear, InLeapYear. lia.
Qed.

Lemma Day_MakeDate d tm : 0 <= tm < msPerDay -> Day (MakeDate d tm) = d.
Proof.
  intros H. unfold Day, MakeDate, msPerDay in *.
  rewrite Z.add_comm, Z.div_add by lia. rewrite Z.div_small by lia. lia.
Qed.

Lemma TimeWithinDay_MakeDate d tm :
  0 <= tm < msPerDay -> TimeWithinDay (MakeDate d tm) = tm.
Proof.
  intros H. unfold TimeWithinDay, MakeDate, msPerDay in *.
  rewrite Z.add_comm, Z.mod_add by lia. by rewrite Z.mod_small by lia.
Qed.

(** The days of the shooting schedule are the day segments, numbered from
    1, each with the shoot date of its number. *)
Lemma day_fold tz m sd strips : forall gdays cur,
  fold_left (day_step tz m sd) strips
    (imap (fun i ss => mkDay (Z.of_nat i + 1) ss (shootDate_for tz sd (Z.of_nat i + 1))) gdays,
     Z.of_nat (length gdays) + 1, cur)
  = let '(gdays', cur') := fold_left (Segments.group_step m) strips (gdays, cur) in
    (imap (fun i ss => mkDay (Z.of_nat i + 1) ss (shootDate_for tz sd (Z.of_nat i + 1))) gdays',
     Z.of_nat (length gdays') + 1, cur').
Proof.
  induction strips as [|s r IH]; intros gdays cur; [done|].
  cbn [fold_left].
  set (f := fun i ss => mkDay (Z.of_nat i + 1) ss
                          (shootDate_for tz sd (Z.of_nat i + 1))).
  assert (Hd : day_step tz m sd (imap f gdays, Z.of_nat (length gdays) + 1, cur) s
               = match m !! position s with
                 | Some _ => (imap f (gdays ++ [cur ++ [s]]),
                              Z.of_nat (length (gdays ++ [cur ++ [s]])) + 1, [])
                 | None => (imap f gdays, Z.of_nat (length gdays) + 1, cur ++ [s])
                 end).
  { unfold day_step. destruct (m !! position s); [|done].
    rewrite imap_app, length_app. cbn [imap length]. rewrite Nat.add_0_r.
    unfold f at 3. do 2 f_equal. lia. }
  assert (Hg : Segments.group_step m (gdays, cur) s
               = match m !! position s with
                 | Some _ => (gdays ++ [cur ++ [s]], [])
                 | None => (gdays, cur ++ [s])
                 end).
  { unfold Segments.group_step, has. by destruct (m !! position s). }
  rewrite Hd, Hg. destruct (m !! position s); apply IH.
Qed.

Lemma scheduleDays_segments tz schedule :
  scheduleDays tz schedule
  = imap (fun i ss =>
            mkDay (Z.of_nat i + 1) ss
                  (shootDate_for tz (startDate_of tz schedule) (Z.of_nat i + 1)))
         (Segments.groupStripsByDay (stripSlots schedule) (dayBreaks schedule)).
Proof.
  unfold scheduleDays, Segments.groupStripsByDay.
  pose proof (day_fold tz (dayBreakMap (dayBreaks schedule))
                (startDate_of tz schedule) (stripSlots schedule) [] []) as H.
  cbn [imap length] in H. change (Z.of_nat 0 + 1) with 1 in H. rewrite H.
  destruct (fold_left _ (stripSlots schedule) ([], [])) as [gdays cur].
  destruct (0 <? length cur)%nat; [|done].
  rewrite imap_app. cbn [imap]. by rewrite Nat.add_0_r.
Qed.

(** ** The calendar *)

Lemma DayFromYear_step y : DayFromYear (y + 1) = DayFromYear y + DaysInYear y.
Proof.
  unfold DayFromYear, DaysInYear.
  destruct (Z.eqb_spec (y mod 4) 0), (Z.eqb_spec (y mod 100) 0),
    (Z.eqb_spec (y mod 400) 0); cbn [negb];
    Z.to_euclidean_division_equations; lia.
Qed.

Lemma DayFromYear_mono a b : a <= b -> DayFromYear a <= DayFromYear b.
Proof. unfold DayFromYear. Z.to_euclidean_division_equations. lia. Qed.

(** [YearFromDay] is the year containing the day. *)
Lemma YearFromDay_spec n :
  DayFromYear (YearFromDay n) <= n < DayFromYear (YearFromDay n + 1).
Proof.
  unfold YearFromDay.
  set (y := 1970 + n * 400 / 146097).
  assert (H1 : DayFromYear (y - 1) <= n).
  { unfold DayFromYear, y. Z.to_euclidean_division_equations. lia. }
  assert (H2 : n < DayFromYear (y + 2)).
  { unfold DayFromYear, y. Z.to_euclidean_division_equations. lia. }
  destruct (Z.ltb_spec n (DayFromYear y)).
  - replace (y - 1 + 1) with y by lia. lia.
  - destruct (Z.leb_spec (DayFromYear (y + 1)) n).
    + replace (y + 1 + 1) with (y + 2) by lia. lia.
    + lia.
Qed.

Lemma YearFromDay_unique n y :
  DayFromYear y <= n < DayFromYear (y + 1) -> YearFromDay n = y.
Proof.
  intros Hy. pose proof (YearFromDay_spec n) as HY.
  destruct (Z.lt_trichotomy (YearFromDay n) y) as [Hlt|[->|Hgt]]; [|done|].
  - pose proof (DayFromYear_mono (YearFromDay n + 1) y). lia.
  - pose proof (DayFromYear_mono (y + 1) (YearFromDay n)). lia.
Qed.

(** The calendar date of the day number of a date is that date. *)
Ltac month_cases m Hd :=
  let H := fresh "Hcases" in
  assert (m = 1 \/ m = 2 \/ m = 3 \/ m = 4 \/ m = 5 \/ m = 6 \/ m = 7
          \/ m = 8 \/ m = 9 \/ m = 10 \/ m = 11 \/ m = 12) as H by lia;
  destruct H as [->|[->|[->|[->|[->|[->|[->|[->|[->|[->|[->| ->]]]]]]]]]]];
  repeat match goal with
  | |- context [month_start (?a - 1)] =>
      let v := eval vm_compute in (a - 1) in change (a - 1) with v
  end;
  unfold month_start, days_in_month in Hd |- *.

Lemma civil_MakeDay y m d :
  1 <= m <= 12 -> 1 <= d <= days_in_month (DaysInYear y - 365) m ->
  civil (MakeDay y (m - 1) d) = (y, m, d).
Proof.
  intros Hm Hd. unfold civil.
  remember (DaysInYear y - 365) as leap eqn:Eleap.
  assert (Hleap : leap = 0 \/ leap = 1).
  { subst leap. unfold DaysInYear. repeat destruct (negb _); lia. }
  assert (Hn : MakeDay y (m - 1) d
               = DayFromYear y + month_start (m - 1) leap + d - 1).
  { unfold MakeDay. rewrite Z.div_small, Z.mod_small by lia.
    by rewrite Z.add_0_r, <- Eleap. }
  assert (Hms : 0 <= month_start (m - 1) leap + d - 1 < DaysInYear y).
  { replace (DaysInYear y) with (365 + leap) by lia.
    clear Hn. month_cases m Hd; lia. }
  assert (HY : YearFromTime (MakeDate (MakeDay y (m - 1) d) 0) = y).
  { unfold YearFromTime. rewrite Day_MakeDate by (unfold msPerDay; lia).
    apply YearFromDay_unique. rewrite DayFromYear_step, Hn. lia. }
  assert (HL : InLeapYear (MakeDate (MakeDay y (m - 1) d) 0) = leap).
  { unfold InLeapYear. by rewrite HY, Eleap. }
  assert (HW : DayWithinYear (MakeDate (MakeDay y (m - 1) d) 0)
               = month_start (m - 1) leap + d - 1).
  { unfold DayWithinYear. rewrite HY, Day_MakeDate by (unfold msPerDay; lia).
    lia. }
  assert (HM : MonthFromTime (MakeDate (MakeDay y (m - 1) d) 0) = m - 1).
  { unfold MonthFromTime. rewrite HW, HL.
    clear Hn HY HL HW Hms. month_cases m Hd;
      repeat match goal with
      | |- context [?a <? ?b] => destruct (Z.ltb_spec a b); try lia
      end. }
  rewrite HY. f_equal; [f_equal; lia|].
  unfold DateFromTime. rewrite HW, HM, HL. lia.
Qed.

(** ** The start date as the server sends it *)

Lemma digits_acc_zeros k l :
  JS.digits_acc 10 JS.dec_digit (replicate k "0"%char ++ l) 0
  = JS.digits_acc 10 JS.dec_digit l 0.
Proof. induction k as [|k IH]; [done|]. cbn. exact IH. Qed.

Lemma pad_isdig w n : 0 <= n -> forallb JS.isdig (pad w n) = true.
Proof.
  intros Hn. unfold pad. rewrite forallb_app, digits_isdig by done.
  rewrite andb_true_r. induction (w - length (JS.digits n))%nat; [done|].
  cbn. done.
Qed.

Lemma Number_pad w n :
  0 <= n -> JS.Number (pad w n) = JS.Fin (inject_Z n * inject_Z 1).
Proof.
  intros Hn. apply Number_digits_list.
  - unfold pad. intros E. apply app_eq_nil in E as [_ E].
    by apply digits_nonempty in E.
  - by apply pad_isdig.
  - unfold pad. rewrite digits_acc_zeros. by apply digits_value.
Qed.

Lemma date_components_iso y m d :
  0 <= y -> 0 <= m -> 0 <= d ->
  date_components (iso_date y m d)
  = (JS.Fin (inject_Z y * inject_Z 1), JS.Fin (inject_Z m * inject_Z 1),
     JS.Fin (inject_Z d * inject_Z 1)).
Proof.
  intros Hy Hm Hd. unfold date_components, iso_date.
  rewrite list_ascii_of_string_of_list_ascii.
  pose proof (pad_isdig 4 y Hy) as Dy.
  pose proof (pad_isdig 2 m Hm) as Dm.
  pose proof (pad_isdig 2 d Hd) as Dd.
  change (list_ascii_of_string "T00:00:00.000Z")
    with ("T"%char :: list_ascii_of_string "00:00:00.000Z").
  replace (pad 4 y ++ "-"%char :: pad 2 m ++ "-"%char :: pad 2 d
             ++ "T"%char :: list_ascii_of_string "00:00:00.000Z")
    with ((pad 4 y ++ "-"%char :: pad 2 m ++ "-"%char :: pad 2 d)
            ++ "T"%char :: list_ascii_of_string "00:00:00.000Z")
    by (rewrite <- !app_assoc; cbn [app]; by rewrite <- !app_assoc).
  rewrite split_at; cycle 1.
  { rewrite existsb_app. cbn [existsb]. rewrite existsb_app. cbn [existsb].
    rewrite !(digits_no_char "T"%char) by done. done. }
  cbn [nth].
  rewrite split_at by (by apply digits_no_char).
  rewrite split_at by (by apply digits_no_char).
  rewrite split_none by (by apply digits_no_char).
  cbn [map nth]. by rewrite !Number_pad.
Qed.

(** A start date "YYYY-MM-DDT00:00:00.000Z" names the day number of the
    date YYYY-MM-DD (years 0..99 would be read as 1900..1999). *)
Lemma startDay_iso_date y m d :
  100 <= y -> 0 <= m -> 0 <= d ->
  startDay (iso_date y m d) = Some (MakeDay y (m - 1) d).
Proof.
  intros Hy Hm Hd. unfold startDay.
  rewrite date_components_iso by lia.
  unfold date_args, to_integer, JS.sub. cbn [Qnum Qden Qmult Qminus Qplus Qopp inject_Z].
  rewrite !Z.quot_1_r.
  destruct (Z.leb_spec 0 (y * 1)), (Z.leb_spec (y * 1) 99); cbn [andb]; try lia.
  all: do 2 f_equal; lia.
Qed.

Lemma startDay_nonempty s D0 : startDay s = Some D0 -> s <> ""%string.
Proof. intros H ->. vm_compute in H. discriminate. Qed.

Section TimeZone.

Variable LocalTZA : Z -> bool -> Z.

(** Offsets from UTC stay within a day. *)
Hypothesis tz_bound : forall t isUTC, Z.abs (LocalTZA t isUTC) <= msPerDay.

(** A local time goes to UTC and back with a shift of less than six hours:
    zero outside clock changes, the size of the change inside one. *)
Hypothesis tz_shift : forall x,
  Z.abs (LocalTZA (x - LocalTZA x false) true - LocalTZA x false)
  < 6 * msPerHour.


Lemma TimeClip_UTC d tm :
  Z.abs d <= max_day -> 0 <= tm < msPerDay ->
  TimeClip (UTC LocalTZA (MakeDate d tm)) = Some (UTC LocalTZA (MakeDate d tm)).
Proof.
  intros Hd Htm. unfold TimeClip.
  pose proof (tz_bound (MakeDate d tm) false) as Hb.
  unfold UTC, MakeDate, max_day, msPerDay in *.
  destruct (Z.leb_spec
    (Z.abs (d * 86400000 + tm - LocalTZA (d * 86400000 + tm) false))
    8640000000000000); [done|lia].
Qed.


Lemma parseLocalDate_startDay s D0 :
  startDay s = Some D0 ->
  parseLocalDate LocalTZA s
  = TimeClip (UTC LocalTZA (MakeDate D0 (MakeTime 12 0 0 0))).
Proof.
  unfold startDay, parseLocalDate, Date_new.
  destruct (date_components s) as [[year month] day].
  destruct (date_args _ _ _) as [[[yr m] dt]|]; [|done].
  by intros [= <-].
Qed.





End TimeZone.

Lemma tzEastern_bound t isUTC : Z.abs (Sample.tzEastern t isUTC) <= msPerDay.
Proof.
  unfold Sample.tzEastern, msPerDay.
  destruct (t <? _); lia.
Qed.




End DateFacts.

(* ===================================================================== *)
(** * Day segments and the report tables *)
(* ===================================================================== *)

Section ReportFacts.
Import Client Segments Reports.

Lemma group_step_eq m days cur s :
  group_step m (days, cur) s
  = if has m (position s) then (days ++ [cur ++ [s]], []) else (days, cur ++ [s]).
Proof. reflexivity. Qed.

Lemma group_fold_concat m strips : forall days cur,
  concat (fst (fold_left (group_step m) strips (days, cur)))
    ++ snd (fold_left (group_step m) strips (days, cur))
  = concat days ++ cur ++ strips.
Proof.
  induction strips as [|s r IH]; intros days cur; cbn [fold_left].
  - cbn [fst snd]. by rewrite app_nil_r.
  - rewrite group_step_eq. destruct (has m (position s)); rewrite IH.
    + rewrite concat_app. cbn [concat]. rewrite app_nil_r, <- !app_assoc. done.
    + by rewrite <- !app_assoc.
Qed.

Lemma group_fold_shape m strips : forall days cur,
  Forall (closed_day m) days ->
  Forall (fun s => has m (position s) = false) cur ->
  Forall (closed_day m) (fst (fold_left (group_step m) strips (days, cur)))
  /\ Forall (fun s => has m (position s) = false)
            (snd (fold_left (group_step m) strips (days, cur))).
Proof.
  induction strips as [|s r IH]; intros days cur Hdays Hcur; cbn [fold_left];
    [done|].
  rewrite group_step_eq. destruct (has m (position s)) eqn:Hs; apply IH; try done.
  - apply Forall_app. split; [done|]. apply Forall_singleton.
    by exists cur, s.
  - apply Forall_app. split; [done|]. by apply Forall_singleton.
Qed.

(** X1: the day segments, one after the other, are the strips of the
    board in their order: the grouping loses, repeats and reorders no
    strip. *)
Theorem groupStripsByDay_concat strips dbs :
  concat (groupStripsByDay strips dbs) = strips.
Proof.
  unfold groupStripsByDay.
  pose proof (group_fold_concat (dayBreakMap dbs) strips [] []) as H.
  destruct (fold_left _ strips ([], [])) as [days cur]. cbn [fst snd concat app] in H.
  destruct cur as [|c cur]; cbn [length Nat.ltb Nat.leb].
  - by rewrite app_nil_r in H.
  - rewrite concat_app. cbn [concat]. by rewrite app_nil_r.
Qed.

(** X2: every day segment is non-empty, a break follows none of its
    strips but the last, and a break follows the last strip of every
    segment other than the final one. *)
Theorem groupStripsByDay_boundaries strips dbs i seg :
  groupStripsByDay strips dbs !! i = Some seg ->
  exists body l,
    seg = body ++ [l]
    /\ Forall (fun s => has (dayBreakMap dbs) (position s) = false) body
    /\ ((S i < length (groupStripsByDay strips dbs))%nat ->
        has (dayBreakMap dbs) (position l) = true).
Proof.
  unfold groupStripsByDay. set (m := dayBreakMap dbs).
  destruct (group_fold_shape m strips [] []) as [Hdays Hcur]; [done..|].
  destruct (fold_left _ strips ([], [])) as [days cur]. cbn [fst snd] in *.
  assert (Hclosed : forall j sg, days !! j = Some sg ->
            exists body l, sg = body ++ [l]
              /\ Forall (fun s => has m (position s) = false) body
              /\ has m (position l) = true).
  { intros j sg Hj. exact (proj1 (Forall_lookup _ _) Hdays j sg Hj). }
  destruct (0 <? length cur)%nat eqn:Hlen.
  - intros Hi. apply lookup_app_Some in Hi as [Hi|[Hge Hi]].
    + destruct (Hclosed i seg Hi) as (body & l & -> & Hb & Hl).
      by exists body, l.
    + apply list_lookup_singleton_Some in Hi as [Hi <-].
      destruct cur as [|c cur _] using rev_ind; [done|].
      exists cur, c. split; [done|]. split.
      * by apply Forall_app in Hcur as [? _].
      * rewrite length_app. cbn [length]. lia.
  - intros Hi. destruct (Hclosed i seg Hi) as (body & l & -> & Hb & Hl).
    by exists body, l.
Qed.

Lemma groupStripsByDay_boundaries_witness :
  exists body l,
    [Client.mkStrip "c" 3 (Sample.scene "2A" "2" ["X"%string]);
     Client.mkStrip "d" 4 (Sample.scene "3" "5/8" [])] = body ++ [l]
    /\ Forall (fun s => has (dayBreakMap Sample.breaks24) (position s) = false) body
    /\ ((2 < length (groupStripsByDay Sample.strips5 Sample.breaks24))%nat ->
        has (dayBreakMap Sample.breaks24) (position l) = true).
Proof.
  apply (groupStripsByDay_boundaries Sample.strips5 Sample.breaks24 1).
  vm_compute. reflexivity.
Defined.

(** ** The Day column of the one-line schedule *)

Lemma oneLine_fold m strips : forall days cur tableData,
  tableData
  = concat (imap (fun i sg => map (fun s => (JS.Z_toString (Z.of_nat i + 1), s)) sg)
                 (days ++ [cur])) ->
  fst (fold_left (oneLine_step m) strips (tableData, Z.of_nat (length days) + 1))
  = concat (imap (fun i sg => map (fun s => (JS.Z_toString (Z.of_nat i + 1), s)) sg)
                 (fst (fold_left (group_step m) strips (days, cur))
                  ++ [snd (fold_left (group_step m) strips (days, cur))])).
Proof.
  induction strips as [|s r IH]; intros days cur tableData Ht; cbn [fold_left];
    [done|].
  rewrite group_step_eq.
  assert (Hstep : oneLine_step m (tableData, Z.of_nat (length days) + 1) s
                  = (tableData ++ [(JS.Z_toString (Z.of_nat (length days) + 1), s)],
                     if has m (position s) then Z.of_nat (length days) + 1 + 1
                     else Z.of_nat (length days) + 1)) by reflexivity.
  rewrite Hstep. clear Hstep.
  assert (Hpush : tableData ++ [(JS.Z_toString (Z.of_nat (length days) + 1), s)]
                  = concat (imap (fun i sg =>
                              map (fun s => (JS.Z_toString (Z.of_nat i + 1), s)) sg)
                              (days ++ [cur ++ [s]]))).
  { rewrite Ht, !imap_app, !concat_app. cbn [imap concat].
    rewrite !app_nil_r, Nat.add_0_r, map_app, app_assoc. done. }
  destruct (has m (position s)).
  - replace (Z.of_nat (length days) + 1 + 1)
      with (Z.of_nat (length (days ++ [cur ++ [s]])) + 1)
      by (rewrite length_app; cbn [length]; lia).
    apply IH. rewrite Hpush, (imap_app _ (days ++ [cur ++ [s]])), concat_app.
    cbn [imap concat map]. by rewrite !app_nil_r.
  - by apply IH.
Qed.

(** X3: the one-line schedule prints, for every strip, the number of the
    day of the shooting schedule that holds the strip: its rows are the
    strips of day 1 labelled "1", then those of day 2 labelled "2", and so
    on, whatever the host's time zone. *)
Theorem oneLine_days_match_schedule tz schedule :
  oneLineRows (stripSlots schedule) (dayBreaks schedule)
  = concat (map (fun d => map (fun s => (JS.Z_toString (Date.dayNumber d), s))
                              (Date.strips d))
                (Date.scheduleDays tz schedule)).
Proof.
  rewrite scheduleDays_segments.
  unfold oneLineRows, groupStripsByDay.
  set (m := dayBreakMap (dayBreaks schedule)).
  pose proof (oneLine_fold m (stripSlots schedule) [] [] [] eq_refl) as H.
  cbn [length] in H. change (Z.of_nat 0 + 1) with 1 in H. rewrite H. clear H.
  destruct (fold_left (group_step m) _ ([], [])) as [days cur]. cbn [fst snd].
  assert (Hmap : forall l : list (list StripSlot),
            map (fun d => map (fun s => (JS.Z_toString (Date.dayNumber d), s))
                              (Date.strips d))
                (imap (fun i ss => Date.mkDay (Z.of_nat i + 1) ss
                         (Date.shootDate_for tz (Date.startDate_of tz schedule)
                                             (Z.of_nat i + 1))) l)
            = imap (fun i sg => map (fun s => (JS.Z_toString (Z.of_nat i + 1), s)) sg) l).
  { intros l. change (map ?f ?x) with (f <$> x) at 1. by rewrite fmap_imap. }
  rewrite Hmap.
  destruct cur as [|c cur]; cbn [length Nat.ltb Nat.leb]; [|done].
  rewrite imap_app, concat_app. cbn [imap concat map]. by rewrite !app_nil_r.
Qed.

(** ** The page totals of the strip board *)

Lemma filter_none {A} (P : A -> bool) l :
  Forall (fun x => P x = false) l -> List.filter P l = [].
Proof.
  induction 1 as [|x l Hx _ IH]; [done|]. cbn [List.filter]. by rewrite Hx.
Qed.

Lemma filter_every {A} (P : A -> bool) l :
  Forall (fun x => P x = true) l -> List.filter P l = l.
Proof.
  induction 1 as [|x l Hx _ IH]; [done|]. cbn [List.filter]. by rewrite Hx, IH.
Qed.

Lemma segment_rows_closed m cur s dayBreak :
  m !! position s = Some dayBreak ->
  segment_rows m (cur ++ [s])
  = map StripRow cur
    ++ [StripRow s;
        DayBreakRow dayBreak (PageCount.formatPageCount (sumPages (cur ++ [s])))].
Proof.
  intros Hs. unfold segment_rows. rewrite last_snoc, Hs, map_app, <- app_assoc.
  done.
Qed.

Lemma segment_rows_open m cur :
  Forall (fun s => has m (position s) = false) cur ->
  segment_rows m cur = map StripRow cur.
Proof.
  intros Hcur. unfold segment_rows.
  destruct cur as [|c cur _] using rev_ind; [done|].
  rewrite last_snoc. apply Forall_app in Hcur as [_ Hc%Forall_inv].
  unfold has in Hc.
  destruct (m !! position c); [done|]. by rewrite app_nil_r.
Qed.

(** While the loop runs over strips in strictly increasing position, the
    strips past the last break and up to the current one are the current
    day. *)
Lemma rows_fold all m rest : forall past cur days rows lastPos,
  all = past ++ cur ++ rest ->
  Forall (fun x => position x <= lastPos) past ->
  StronglySorted Z.lt (lastPos :: map position (cur ++ rest)) ->
  Forall (fun s => has m (position s) = false) cur ->
  rows = concat (map (segment_rows m) days) ++ map StripRow cur ->
  fst (fold_left (row_step all m) rest (rows, lastPos))
  = concat (map (segment_rows m) (fst (fold_left (group_step m) rest (days, cur))))
    ++ map StripRow (snd (fold_left (group_step m) rest (days, cur)))
  /\ Forall (fun s => has m (position s) = false)
            (snd (fold_left (group_step m) rest (days, cur))).
Proof.
  induction rest as [|s r IH]; intros past cur days rows lastPos Hall Hdone Hsort
    Hcur Hrows; cbn [fold_left]; [done|].
  rewrite group_step_eq.
  assert (Hstep : row_step all m (rows, lastPos) s
    = match m !! position s with
      | Some dayBreak =>
          ((rows ++ [StripRow s])
             ++ [DayBreakRow dayBreak
                   (PageCount.formatPageCount
                      (calculatePagesForDay all lastPos (position s)))],
           position s)
      | None => (rows ++ [StripRow s], lastPos)
      end) by reflexivity.
  rewrite Hstep. clear Hstep.
  assert (Hhas : has m (position s)
                 = match m !! position s with Some _ => true | None => false end)
    by reflexivity.
  apply StronglySorted_inv in Hsort as [Hsort Hlast].
  rewrite map_app in Hsort, Hlast. cbn [map] in Hsort, Hlast.
  apply Forall_app in Hlast as [Hlast_cur Hlast_sr].
  apply Forall_cons in Hlast_sr as [Hlast_s Hlast_r].
  assert (Hcur_s : Forall (fun x => position x < position s) cur).
  { clear -Hsort. induction cur as [|c cur IHc]; [done|].
    cbn [map app] in Hsort. apply StronglySorted_inv in Hsort as [Hs Hc].
    constructor; [|by apply IHc].
    apply Forall_app in Hc as [_ Hc]. by apply Forall_cons in Hc as [? _]. }
  assert (Hsort_r : StronglySorted Z.lt (position s :: map position r)).
  { clear -Hsort. induction cur as [|c cur IHc]; [done|].
    cbn [map app] in Hsort. apply StronglySorted_inv in Hsort as [Hs _]. auto. }
  destruct (m !! position s) as [dayBreak|] eqn:Hs; rewrite Hhas.
  - assert (Hpages : calculatePagesForDay all lastPos (position s)
                     = sumPages (cur ++ [s])).
    { unfold calculatePagesForDay. f_equal. rewrite Hall.
      rewrite !List.filter_app. cbn [List.filter].
      rewrite filter_none, filter_every, filter_none; cycle 1.
      - apply StronglySorted_inv in Hsort_r as [_ Hr].
        apply (proj1 (List.Forall_map _ _ _)) in Hr.
        eapply Forall_impl; [exact Hr|].
        intros x Hx. cbv beta in Hx. apply andb_false_iff. right.
        apply Z.leb_gt. done.
      - apply (proj1 (List.Forall_map _ _ _)) in Hlast_cur.
        apply Forall_forall. intros x Hx.
        pose proof (proj1 (Forall_forall _ _) Hlast_cur x Hx) as H1.
        pose proof (proj1 (Forall_forall _ _) Hcur_s x Hx) as H2.
        cbv beta in H1, H2. apply andb_true_iff. split; [apply Z.ltb_lt|apply Z.leb_le]; lia.
      - eapply Forall_impl; [exact Hdone|]. intros x Hx. cbv beta in Hx.
        apply andb_false_iff. left. apply Z.ltb_ge. done.
      - replace ((lastPos <? position s) && (position s <=? position s)) with true.
        + done.
        + symmetry. apply andb_true_iff. split; [apply Z.ltb_lt|apply Z.leb_le]; lia. }
    rewrite Hpages.
    apply (IH (past ++ cur ++ [s]) []).
    + rewrite Hall, <- !app_assoc. done.
    + apply Forall_app. split.
      * eapply Forall_impl; [exact Hdone|]. intros x Hx. cbv beta in Hx. lia.
      * apply Forall_app. split.
        -- eapply Forall_impl; [exact Hcur_s|]. intros x Hx. cbv beta in Hx. lia.
        -- apply Forall_singleton. lia.
    + exact Hsort_r.
    + done.
    + rewrite map_app, concat_app. cbn [map concat].
      rewrite (segment_rows_closed m cur s dayBreak Hs), Hrows, !app_nil_r.
      rewrite <- !app_assoc. done.
  - apply (IH past (cur ++ [s])).
    + rewrite Hall, <- !app_assoc. done.
    + done.
    + rewrite <- app_assoc. cbn [app]. rewrite map_app. cbn [map].
      constructor; [done|]. apply Forall_app. split; [done|]. by constructor.
    + apply Forall_app. split; [done|]. by apply Forall_singleton.
    + rewrite Hrows, map_app, <- app_assoc. done.
Qed.

(** X4: on a board whose strips come in strictly increasing, positive
    positions, the strip board shows the day segments one after the other,
    each closed by the row of the break that follows its last strip, and
    the page total on that row is the sum over the strips of the segment:
    the total the shooting schedule prints for that day. *)
Theorem stripBoard_rows_by_segment strips dbs :
  StronglySorted Z.lt (map position strips) ->
  Forall (fun s => 0 < position s) strips ->
  stripBoardRows strips dbs
  = concat (map (segment_rows (dayBreakMap dbs)) (groupStripsByDay strips dbs)).
Proof.
  intros Hsort Hpos. unfold stripBoardRows, groupStripsByDay.
  set (m := dayBreakMap dbs).
  destruct (rows_fold strips m strips [] [] [] [] 0) as [Hrows Hcur]; try done.
  { constructor; [done|]. by apply (proj2 (List.Forall_map _ _ _)). }
  rewrite Hrows.
  destruct (fold_left (group_step m) strips ([], [])) as [days cur].
  cbn [fst snd] in *.
  destruct cur as [|c cur]; cbn [length Nat.ltb Nat.leb].
  - cbn [map]. by rewrite app_nil_r.
  - rewrite map_app, concat_app. cbn [map concat].
    by rewrite (segment_rows_open m (c :: cur) Hcur), app_nil_r.
Qed.

Lemma stripBoard_rows_by_segment_witness :
  stripBoardRows Sample.strips5 Sample.breaks24
  = concat (map (segment_rows (dayBreakMap Sample.breaks24))
                (groupStripsByDay Sample.strips5 Sample.breaks24)).
Proof.
  apply (stripBoard_rows_by_segment Sample.strips5 Sample.breaks24).
  - repeat constructor.
  - repeat constructor.
Defined.

(** X5: with distinct strip positions and breaks at distinct positions of
    strips, the day count in the strip board's header is the number of day
    segments, plus one when a break follows the last strip. *)
Theorem totalDays_segments strips dbs s :
  last strips = Some s ->
  NoDup (map position strips) ->
  NoDup (map Db.afterPosition dbs) ->
  (forall b, b ∈ dbs -> Db.afterPosition b ∈ map position strips) ->
  totalDays strips dbs
  = (length (groupStripsByDay strips dbs)
     + (if has (dayBreakMap dbs) (position s) then 1 else 0))%nat.
Proof.
  intros Hlast Hs Hb Hsub. unfold totalDays.
  rewrite (groupStripsByDay_length strips dbs s Hlast).
  rewrite breaks_counted by done.
  destruct strips as [|s0 r]; [done|]. cbn [length Nat.ltb Nat.leb].
  destruct (has _ _); lia.
Qed.

Lemma totalDays_segments_witness :
  totalDays Sample.strips5 [Db.mkDayBreak "k1" "s1" 2 1 None None;
                            Db.mkDayBreak "k2" "s1" 5 2 None None]
  = 3%nat
  /\ length (groupStripsByDay Sample.strips5
               [Db.mkDayBreak "k1" "s1" 2 1 None None;
                Db.mkDayBreak "k2" "s1" 5 2 None None]) = 2%nat.
Proof.
  split; [|vm_compute; reflexivity].
  refine (eq_trans (totalDays_segments Sample.strips5 _
                      (Client.mkStrip "e" 5 (Sample.scene "4" "1" ["Y"%string]))
                      eq_refl _ _ _) _).
  - apply (bool_decide_unpack _). vm_compute. reflexivity.
  - apply (bool_decide_unpack _). vm_compute. reflexivity.
  - intros b [->|[->|Hb%elem_of_nil]%elem_of_cons]%elem_of_cons; [| |done];
      apply (bool_decide_unpack _); vm_compute; reflexivity.
  - vm_compute. reflexivity.
Defined.

End ReportFacts.

(* ===================================================================== *)
(** * Moving strips: frame, undo, order *)
(* ===================================================================== *)

Section MoveFacts.
Import Db Reorder Moves.

Lemma set_position_same s : set_position (position s) s = s.
Proof. by destruct s. Qed.

Lemma find_map_pres {A} (P : A -> bool) (g : A -> A) (l : list A) :
  (forall x, P (g x) = P x) ->
  find P (map g l) = option_map g (find P l).
Proof.
  intros Hg. induction l as [|x l IH]; [done|].
  cbn [map find]. rewrite Hg. by destruct (P x).
Qed.

(** In a schedule with distinct positions, the strip a request names is
    the one at its position. *)
Lemma id_iff_position sid id t strip s :
  NoDup (map strip_id t) ->
  NoDup (map position (filter (fun s => in_schedule sid s = true) t)) ->
  strip ∈ t -> strip_id strip = id -> in_schedule sid strip = true ->
  s ∈ t -> in_schedule sid s = true ->
  String.eqb (strip_id s) id = (position s =? position strip).
Proof.
  intros Hpk Hpos Hin Hid Hsch Hs Hs1.
  destruct (String.eqb_spec (strip_id s) id) as [E|E];
    destruct (Z.eqb_spec (position s) (position strip)) as [E'|E']; try done.
  - exfalso. apply E'. f_equal.
    apply (NoDup_map_inj_on strip_id t); [done..|congruence].
  - exfalso. apply E. rewrite <- Hid. f_equal.
    apply (NoDup_map_inj_on position
             (filter (fun s => in_schedule sid s = true) t)); try done.
    + by apply list_elem_of_filter.
    + by apply list_elem_of_filter.
Qed.

(** The committed transaction, row by row. *)
Lemma transaction_moves sid id np n t strip :
  as_Int np = Some n ->
  NoDup (map strip_id t) ->
  NoDup (map position (filter (fun s => in_schedule sid s = true) t)) ->
  strip ∈ t -> strip_id strip = id -> in_schedule sid strip = true ->
  transaction sid id (position strip) np t
  = Some (moved_rows sid (position strip) n t).
Proof.
  intros Hn Hpk Hpos Hin Hid Hsch.
  rewrite (transaction_rows _ _ _ _ n) by done. f_equal.
  unfold moved_rows. apply map_ext_in. intros s Hs%list_elem_of_In.
  cbv zeta. destruct (in_schedule sid s) eqn:Hs1; cbn [andb].
  - pose proof (id_iff_position sid id t strip s Hpk Hpos Hin Hid Hsch Hs Hs1)
      as Hiff.
    unfold moved_position.
    destruct (position strip <? n);
      match goal with
      | |- context [if ?c then set_position _ s else s] => destruct c
      end; cbn [strip_id position set_position]; rewrite Hiff;
      destruct (position s =? position strip); try reflexivity;
      by rewrite set_position_same.
  - destruct (String.eqb_spec (strip_id s) id) as [E|E]; [|done].
    exfalso. assert (s = strip) as ->
      by (apply (NoDup_map_inj_on strip_id t); [done..|congruence]).
    congruence.
Qed.

Lemma moved_rows_in_schedule sid old new s :
  in_schedule sid
    (if in_schedule sid s
     then set_position (moved_position old new (position s)) s else s)
  = in_schedule sid s.
Proof. by destruct (in_schedule sid s) eqn:E. Qed.

Lemma moved_rows_positions sid old new t :
  map position (filter (fun s => in_schedule sid s = true) (moved_rows sid old new t))
  = map (moved_position old new)
        (map position (filter (fun s => in_schedule sid s = true) t)).
Proof.
  unfold moved_rows. rewrite filter_map_pres
    by (intros s; apply moved_rows_in_schedule).
  rewrite !map_map. apply map_ext_in.
  intros s [Hs _]%list_elem_of_In%list_elem_of_filter. by rewrite Hs.
Qed.

Lemma moved_rows_ids sid old new t :
  map strip_id (moved_rows sid old new t) = map strip_id t.
Proof.
  unfold moved_rows. rewrite map_map. apply map_ext. intros s.
  by destruct (in_schedule sid s).
Qed.

Lemma moved_rows_others sid old new t :
  List.filter (fun s => negb (in_schedule sid s)) (moved_rows sid old new t)
  = List.filter (fun s => negb (in_schedule sid s)) t.
Proof.
  induction t as [|s t IH]; [done|].
  unfold moved_rows in *. cbn [map List.filter].
  rewrite moved_rows_in_schedule, IH.
  by destruct (in_schedule sid s).
Qed.

Lemma moved_rows_find id sid old new t :
  stripSlot_findFirst id sid (moved_rows sid old new t)
  = option_map (fun s => set_position (moved_position old new (position s)) s)
               (stripSlot_findFirst id sid t).
Proof.
  unfold stripSlot_findFirst, moved_rows.
  rewrite find_map_pres.
  - destruct (find _ t) as [s|] eqn:Hs; [|done]. cbn [option_map].
    apply find_some in Hs as [_ Hs]. apply andb_true_iff in Hs as [_ ->]. done.
  - intros s. destruct (in_schedule sid s) eqn:E; [|by rewrite E].
    unfold in_schedule in *. cbn [strip_id strip_scheduleId set_position].
    by rewrite E.
Qed.

(** Moving back undoes the move. *)
Lemma moved_position_back old new p :
  moved_position new old (moved_position old new p) = p.
Proof.
  unfold moved_position.
  destruct (Z.eqb_spec p old), (Z.ltb_spec old new), (Z.ltb_spec new old),
    (Z.ltb_spec old p), (Z.leb_spec p new), (Z.leb_spec new p),
    (Z.ltb_spec p old); cbn [andb];
    repeat match goal with
    | |- context [?a =? ?b] => destruct (Z.eqb_spec a b)
    | |- context [?a <? ?b] => destruct (Z.ltb_spec a b)
    | |- context [?a <=? ?b] => destruct (Z.leb_spec a b)
    end; cbn [andb]; lia.
Qed.

Lemma moved_rows_back sid old new t :
  moved_rows sid new old (moved_rows sid old new t) = t.
Proof.
  unfold moved_rows. rewrite map_map. rewrite <- (map_id t) at 2.
  apply map_ext. intros s. rewrite moved_rows_in_schedule.
  destruct (in_schedule sid s) eqn:E; [|done].
  cbn [position set_position]. rewrite moved_position_back.
  by destruct s.
Qed.


Lemma moved_position_old old new : moved_position old new old = new.
Proof. unfold moved_position. by rewrite Z.eqb_refl. Qed.

(** A caller whose request was answered with 200 may edit the project. *)
Lemma reorder_ok_authorised caller pid stripId newPosition d :
  status_of (fst (POST caller pid stripId newPosition d)) = 200 ->
  authorised caller.
Proof.
  unfold POST, authorised.
  destruct (session_user caller); [|done].
  destruct (hasAccess caller); [|done].
  destruct (canEdit caller), (isOwner caller); cbn [negb andb]; try done;
    intros _; (split; [by eexists|]); (split; [done|]); auto.
Qed.

(** An authorised, well-formed, in-range request commits the move. *)
Lemma reorder_POST_moves caller pid id np n d sch strip :
  authorised caller -> strip_pk d ->
  schedule_findUnique pid d = Some sch ->
  dense (schedule_id sch) d ->
  id <> ""%string ->
  stripSlot_findFirst id (schedule_id sch) (stripSlots d) = Some strip ->
  as_Int np = Some n ->
  1 <= n <= Z.of_nat (length (positions (schedule_id sch) d)) ->
  n <> position strip ->
  POST caller pid (JStr id) (JNum np) d
  = (Updated (orderBy position
                (filter (fun s => in_schedule (schedule_id sch) s = true)
                        (moved_rows (schedule_id sch) (position strip) n (stripSlots d)))),
     with_stripSlots d (moved_rows (schedule_id sch) (position strip) n (stripSlots d))).
Proof.
  intros Hauth Hpk Hsch Hdense Hid Hfind Hn Hrange Hne.
  set (sid := schedule_id sch) in *.
  rewrite reorder_POST_authorised by done.
  destruct id as [|c id']; [done|].
  pose proof (as_Int_spec _ _ Hn) as Hq.
  destruct (Qlt_le_dec np 1) as [Hlt|_].
  { exfalso. rewrite Hq in Hlt. change 1%Q with (inject_Z 1) in Hlt.
    rewrite <- Zlt_Qlt in Hlt. lia. }
  cbv zeta. rewrite Hsch. fold sid. rewrite Hfind.
  destruct (Qeq_bool (inject_Z (position strip)) np) eqn:Heq.
  { exfalso. apply Qeq_bool_eq in Heq. rewrite Hq in Heq.
    apply Hne. symmetry. by apply inject_Z_injective. }
  pose proof Hfind as [Hin Hmatch]%find_Some_elem.
  apply andb_true_iff in Hmatch as [Hsid Hs1]. apply String.eqb_eq in Hsid.
  assert (Hnonempty : positions sid d <> []).
  { intros E. rewrite E in Hrange. cbn [length] in Hrange. lia. }
  rewrite (dense_maxPosition sid d Hdense Hnonempty).
  set (N := Z.of_nat (length (positions sid d))) in *.
  assert (HNi : int_or (Some N) 1 = N).
  { unfold int_or. destruct (Z.eqb_spec N 0); [lia|done]. }
  rewrite HNi.
  destruct (Qlt_le_dec (inject_Z N) np) as [Hlt|_].
  { exfalso. rewrite Hq in Hlt. rewrite <- Zlt_Qlt in Hlt. lia. }
  rewrite (transaction_moves sid (String c id') np n (stripSlots d) strip);
    try done.
  by apply dense_NoDup.
Qed.


(** What an answer of 200 tells about the request. *)
Lemma reorder_ok_inv caller pid stripId newPosition d sch :
  schedule_findUnique pid d = Some sch ->
  status_of (fst (POST caller pid stripId newPosition d)) = 200 ->
  authorised caller
  /\ exists id np strip,
      id <> ""%string /\ stripId = JStr id /\ newPosition = JNum np
      /\ stripSlot_findFirst id (schedule_id sch) (stripSlots d) = Some strip
      /\ ((inject_Z (position strip) == np)%Q
           /\ snd (POST caller pid stripId newPosition d) = d
          \/ exists n t',
              as_Int np = Some n /\ n <> position strip
              /\ 1 <= n <= int_or (stripSlot_maxPosition (schedule_id sch)
                                                         (stripSlots d)) 1
              /\ transaction (schedule_id sch) id (position strip) np
                             (stripSlots d) = Some t'
              /\ snd (POST caller pid stripId newPosition d)
                 = with_stripSlots d t').
Proof.
  intros Hsch Hok. split; [by eapply reorder_ok_authorised|].
  revert Hok. unfold POST.
  destruct (session_user caller); [|done].
  destruct (negb (hasAccess caller)); [done|].
  destruct (negb (canEdit caller) && negb (isOwner caller)); [done|].
  destruct stripId as [| |?|?|sx|]; try done.
  destruct sx as [|c id0]; [done|].
  destruct newPosition as [| |?|np|?|]; try done.
  destruct (Qlt_le_dec np 1) as [|Hge1]; [done|].
  rewrite Hsch.
  destruct (stripSlot_findFirst _ _ _) as [strip|] eqn:Hstrip; [|done].
  destruct (Qeq_bool _ np) eqn:Hsame.
  { intros _. exists (String c id0), np, strip. repeat split; try done.
    left. split; [by apply Qeq_bool_eq|done]. }
  destruct (Qlt_le_dec _ np) as [|Hmax]; [done|].
  destruct (transaction _ _ _ np _) as [t'|] eqn:Htx; [|done].
  intros _. exists (String c id0), np, strip. repeat split; try done.
  right.
  assert (exists n, as_Int np = Some n) as [n Hn].
  { unfold transaction in Htx. destruct (as_Int np); [by eexists|done]. }
  pose proof (as_Int_spec _ _ Hn) as Hq.
  exists n, t'. repeat split; try done.
  - intros E. apply Qeq_bool_neq in Hsame. apply Hsame. rewrite Hq, E. reflexivity.
  - rewrite Hq in Hge1. change 1%Q with (inject_Z 1) in Hge1.
    by rewrite Zle_Qle.
  - rewrite Hq in Hmax. by rewrite Zle_Qle.
Qed.

(** The strip a request finds sits at one of the positions 1..N. *)
Lemma found_position_range id sid d strip :
  dense sid d ->
  stripSlot_findFirst id sid (stripSlots d) = Some strip ->
  strip ∈ stripSlots d /\ strip_id strip = id /\ in_schedule sid strip = true
  /\ 1 <= position strip <= Z.of_nat (length (positions sid d))
  /\ int_or (stripSlot_maxPosition sid (stripSlots d)) 1
     = Z.of_nat (length (positions sid d)).
Proof.
  intros Hdense Hfind.
  apply find_Some_elem in Hfind as [Hin Hmatch].
  apply andb_true_iff in Hmatch as [Hid Hsid]. apply String.eqb_eq in Hid.
  assert (Hold : position strip ∈ positions sid d).
  { change (position strip ∈ position <$>
      filter (fun s => in_schedule sid s = true) (stripSlots d)).
    apply list_elem_of_fmap_2. by apply list_elem_of_filter. }
  assert (Hne : positions sid d <> [])
    by (intros E; rewrite E in Hold; by apply elem_of_nil in Hold).
  rewrite (dense_maxPosition sid d Hdense Hne).
  rewrite Hdense in Hold. apply elem_of_seqZ in Hold.
  set (N := Z.of_nat (length (positions sid d))) in *.
  repeat split; try done; try lia.
  unfold int_or. destruct (Z.eqb_spec N 0); [lia|done].
Qed.

(** One call leaves the rows of the other schedules and the day breaks as
    they were. *)
Lemma reorder_step_others caller pid stripId newPosition d sch :
  strip_pk d ->
  schedule_findUnique pid d = Some sch ->
  dense (schedule_id sch) d ->
  other_strips (schedule_id sch) (snd (POST caller pid stripId newPosition d))
  = other_strips (schedule_id sch) d
  /\ dayBreaks (snd (POST caller pid stripId newPosition d)) = dayBreaks d.
Proof.
  intros Hpk Hsch Hdense.
  destruct (reorder_POST_cases caller pid stripId newPosition d)
    as [[-> _]|[[-> _]|Hup]]; [done|done|].
  destruct Hup as (sch' & id & np & n & strip & t' & Hsch' & _ & _ & Hn
                   & Hfind & _ & _ & Htx & -> & _).
  assert (sch' = sch) as -> by congruence.
  split; [|done].
  destruct (found_position_range _ _ _ _ Hdense Hfind) as (Hin & Hid & Hs1 & _).
  rewrite (transaction_moves _ _ _ n _ strip) in Htx;
    [|done|done|by apply dense_NoDup|done..].
  injection Htx as <-. apply moved_rows_others.
Qed.

(** X6: whatever requests are sent to the reorder route, by whomever, a
    schedule whose positions are exactly 1..N keeps positions exactly
    1..N and the same strips; the strips of the other schedules, the day
    breaks and the schedules are never changed. *)
Theorem reorders_keep_board caller pid requests : forall d sch,
  strip_pk d ->
  schedule_findUnique pid d = Some sch ->
  dense (schedule_id sch) d ->
  let d' := reorders caller pid requests d in
  dense (schedule_id sch) d'
  /\ length (positions (schedule_id sch) d') = length (positions (schedule_id sch) d)
  /\ map strip_id (stripSlots d') = map strip_id (stripSlots d)
  /\ other_strips (schedule_id sch) d' = other_strips (schedule_id sch) d
  /\ dayBreaks d' = dayBreaks d
  /\ schedules d' = schedules d.
Proof.
  induction requests as [|[stripId newPosition] rest IH]; intros d sch Hpk Hsch Hd;
    [done|].
  cbv zeta. unfold reorders. cbn [fold_left fst snd].
  destruct (reorder_step_dense caller pid stripId newPosition d sch Hpk Hsch Hd)
    as [Hd' Hlen].
  destruct (reorder_step_frame caller pid stripId newPosition d) as [Hids Hschs].
  destruct (reorder_step_others caller pid stripId newPosition d sch Hpk Hsch Hd)
    as [Hoth Hbr].
  destruct (IH (snd (POST caller pid stripId newPosition d)) sch)
    as (H1 & H2 & H3 & H4 & H5 & H6).
  - unfold strip_pk. by rewrite Hids.
  - unfold schedule_findUnique. by rewrite Hschs.
  - done.
  - unfold reorders in H1, H2, H3, H4, H5, H6.
    repeat split; [done|congruence..].
Qed.

Lemma reorders_keep_board_witness :
  let d' := reorders Sample.editor "p1"
              [(JStr "a", JNum 3); (JStr "zz", JNum 1); (JStr "b", JNum (5 # 2));
               (JStr "c", JNum 1)] Sample.db0 in
  positions "s1" d' = [3; 2; 1]
  /\ dense "s1" d'
  /\ other_strips "s1" d' = [mkStripSlot "x" "s2" "bd-x" 1].
Proof.
  pose proof (reorders_keep_board Sample.editor "p1"
                [(JStr "a", JNum 3); (JStr "zz", JNum 1); (JStr "b", JNum (5 # 2));
                 (JStr "c", JNum 1)] Sample.db0 Sample.sch0) as H.
  cbv zeta in *. split; [vm_compute; reflexivity|].
  destruct H as (H1 & _ & _ & H4 & _).
  - apply (bool_decide_unpack _). vm_compute. reflexivity.
  - reflexivity.
  - unfold dense. vm_compute. reflexivity.
  - split; [exact H1|]. etrans; [exact H4|]. vm_compute. reflexivity.
Defined.

(** X7: after a reorder that was answered with 200, a request to move the
    same strip back to its former position is answered with 200 and
    restores the database exactly as it was. *)
Theorem reorder_undo caller pid id newPosition d sch strip :
  strip_pk d ->
  schedule_findUnique pid d = Some sch ->
  dense (schedule_id sch) d ->
  stripSlot_findFirst id (schedule_id sch) (stripSlots d) = Some strip ->
  status_of (fst (POST caller pid (JStr id) newPosition d)) = 200 ->
  let d' := snd (POST caller pid (JStr id) newPosition d) in
  let back := POST caller pid (JStr id) (JNum (inject_Z (position strip))) d' in
  status_of (fst back) = 200 /\ snd back = d.
Proof.
  intros Hpk Hsch Hdense Hfind Hok. cbv zeta.
  set (sid := schedule_id sch) in *.
  destruct (reorder_ok_inv _ _ _ _ _ _ Hsch Hok)
    as (Hauth & id' & np & strip' & Hid & [= <-] & -> & Hfind' & Hcase).
  fold sid in Hfind', Hcase.
  assert (strip' = strip) as -> by congruence.
  destruct (found_position_range _ _ _ _ Hdense Hfind)
    as (Hin & Hsid & Hs1 & Hrange & Hmax).
  destruct Hcase as [[Heq ->]|(n & t' & Hn & Hne & Hn_range & Htx & ->)].
  - rewrite reorder_POST_authorised by done.
    destruct id as [|c id0]; [done|].
    destruct (Qlt_le_dec (inject_Z (position strip)) 1) as [Hlt|_].
    { exfalso. change 1%Q with (inject_Z 1) in Hlt.
      rewrite <- Zlt_Qlt in Hlt. lia. }
    cbv zeta. rewrite Hsch. fold sid. rewrite Hfind.
    assert (Qeq_bool (inject_Z (position strip)) (inject_Z (position strip)) = true)
      as -> by (apply Qeq_bool_iff; reflexivity).
    done.
  - rewrite (transaction_moves _ _ _ n _ strip) in Htx;
      [|done|done|by apply dense_NoDup|done..].
    injection Htx as <-.
    set (t' := moved_rows sid (position strip) n (stripSlots d)).
    assert (Hfind2 : stripSlot_findFirst id sid (stripSlots (with_stripSlots d t'))
                     = Some (set_position n strip)).
    { cbn [stripSlots with_stripSlots]. unfold t'.
      rewrite moved_rows_find, Hfind. cbn [option_map].
      by rewrite moved_position_old. }
    assert (Hpos' : positions sid (with_stripSlots d t')
                    = map (moved_position (position strip) n) (positions sid d))
      by apply moved_rows_positions.
    rewrite Hmax in Hn_range.
    assert (Hdense' : dense sid (with_stripSlots d t')).
    { unfold dense. rewrite Hpos', length_map.
      etrans; [|apply (moved_position_perm (position strip) n); done].
      change (moved_position (position strip) n <$> positions sid d
              ≡ₚ moved_position (position strip) n
                   <$> seqZ 1 (Z.of_nat (length (positions sid d)))).
      by apply fmap_Permutation. }
    rewrite (reorder_POST_moves caller pid id (inject_Z (position strip))
               (position strip) (with_stripSlots d t') sch (set_position n strip));
      try done.
    + split; [done|]. cbn [snd stripSlots with_stripSlots position set_position].
      unfold t'. rewrite moved_rows_back. by destruct d.
    + unfold strip_pk. cbn [stripSlots with_stripSlots]. unfold t'.
      by rewrite moved_rows_ids.
    + apply as_Int_inject_Z.
    + fold sid. rewrite Hpos', length_map. done.
Qed.

Lemma reorder_undo_witness :
  snd (POST Sample.editor "p1" (JStr "a") (JNum (inject_Z 1))
         (snd (POST Sample.editor "p1" (JStr "a") (JNum 3) Sample.db0)))
  = Sample.db0.
Proof.
  apply (reorder_undo Sample.editor "p1" "a" (JNum 3) Sample.db0 Sample.sch0
           (mkStripSlot "a" "s1" "bd-a" 1)).
  - apply (bool_decide_unpack _). vm_compute. reflexivity.
  - reflexivity.
  - unfold dense. vm_compute. reflexivity.
  - reflexivity.
  - reflexivity.
Defined.



(** Two strips of a dense schedule at the same position are one strip. *)
Lemma same_position_same_id sid d a b sa sb :
  dense sid d ->
  stripSlot_findFirst a sid (stripSlots d) = Some sa ->
  stripSlot_findFirst b sid (stripSlots d) = Some sb ->
  position sa = position sb -> a = b.
Proof.
  intros Hdense Ha Hb E.
  destruct (found_position_range _ _ _ _ Hdense Ha) as (Hina & <- & Hsa & _).
  destruct (found_position_range _ _ _ _ Hdense Hb) as (Hinb & <- & Hsb & _).
  f_equal.
  apply (NoDup_map_inj_on position
           (filter (fun s => in_schedule sid s = true) (stripSlots d)));
    [by apply dense_NoDup|by apply list_elem_of_filter..|done].
Qed.



(** X9: dropping a strip onto another strip of the board is always
    accepted from a caller who may edit: the request the board sends (the
    dragged strip's id, the other strip's position) is answered with 200,
    the dragged strip takes the other strip's position and that strip
    moves by one towards the place the dragged strip left. *)
Theorem reorder_onto_strip caller pid a b d sch sa sb :
  authorised caller ->
  strip_pk d ->
  schedule_findUnique pid d = Some sch ->
  dense (schedule_id sch) d ->
  a <> ""%string -> a <> b ->
  stripSlot_findFirst a (schedule_id sch) (stripSlots d) = Some sa ->
  stripSlot_findFirst b (schedule_id sch) (stripSlots d) = Some sb ->
  let sid := schedule_id sch in
  let r := POST caller pid (JStr a) (JNum (inject_Z (position sb))) d in
  status_of (fst r) = 200
  /\ position_of a sid (snd r) = Some (position sb)
  /\ position_of b sid (snd r)
     = Some (if position sa <? position sb then position sb - 1
             else position sb + 1).
Proof.
  intros Hauth Hpk Hsch Hdense Ha Hab Hfa Hfb sid r. unfold r. clear r.
  fold sid in Hfa, Hfb.
  destruct (found_position_range _ _ _ _ Hdense Hfb) as (_ & _ & _ & Hrange & _).
  assert (Hne : position sb <> position sa).
  { intros E. apply Hab. symmetry.
    by eapply (same_position_same_id sid d b a sb sa). }
  rewrite (reorder_POST_moves caller pid a (inject_Z (position sb)) (position sb)
             d sch sa); try done; [|apply as_Int_inject_Z].
  fold sid. cbn [fst snd status_of]. split; [done|].
  unfold position_of. cbn [stripSlots with_stripSlots].
  rewrite !moved_rows_find, Hfa, Hfb. cbn [option_map position set_position].
  split; [by rewrite moved_position_old|].
  f_equal. unfold moved_position.
  destruct (Z.eqb_spec (position sb) (position sa)); [done|].
  destruct (Z.ltb_spec (position sa) (position sb)).
  - replace (position sb <=? position sb) with true
      by (symmetry; apply Z.leb_le; lia). done.
  - replace (position sb <=? position sb) with true
      by (symmetry; apply Z.leb_le; lia).
    replace (position sb <? position sa) with true
      by (symmetry; apply Z.ltb_lt; lia). done.
Qed.

Lemma reorder_onto_strip_witness :
  let r := POST Sample.editor "p1" (JStr "c") (JNum (inject_Z 1)) Sample.db0 in
  status_of (fst r) = 200
  /\ position_of "c" "s1" (snd r) = Some 1
  /\ position_of "a" "s1" (snd r) = Some 2.
Proof.
  apply (reorder_onto_strip Sample.editor "p1" "c" "a" Sample.db0 Sample.sch0
           (mkStripSlot "c" "s1" "bd-c" 3) (mkStripSlot "a" "s1" "bd-a" 1)).
  - split; [by eexists|]. split; [reflexivity | left; reflexivity].
  - apply (bool_decide_unpack _). vm_compute. reflexivity.
  - reflexivity.
  - unfold dense. vm_compute. reflexivity.
  - discriminate.
  - discriminate.
  - reflexivity.
  - reflexivity.
Defined.

End MoveFacts.

(* ===================================================================== *)
(** * Project access and the route guards *)
(* ===================================================================== *)

Section AccessFacts.
Import Db.

(** The access flags are nested. *)
Lemma access_flags_order st projectId userId :
  let a := Access.getProjectAccess st projectId userId in
  (Access.isOwner a = true -> Access.canManageMembers a = true)
  /\ (Access.canManageMembers a = true -> Access.canEdit a = true)
  /\ (Access.canEdit a = true -> Access.hasAccess a = true).
Proof.
  cbv zeta. unfold Access.getProjectAccess.
  destruct (find _ (Access.projects st)) as [project|]; [|by repeat split].
  destruct (String.eqb (Access.ownerId project) userId); [by repeat split|].
  destruct (Access.members_of st projectId userId) as [|m ms]; [by repeat split|].
  destruct (Access.role m); by repeat split.
Qed.

(** Requiring the level "editor" tests [canEdit]. *)
Lemma requireProjectAccess_editor st projectId userId :
  let a := Access.getProjectAccess st projectId userId in
  match Access.requireProjectAccess st projectId userId Access.editor with
  | inl r => Access.canEdit a = true /\ r = a
  | inr msg => Access.canEdit a = false
  end.
Proof.
  cbv zeta. unfold Access.requireProjectAccess, Access.getProjectAccess.
  destruct (find _ (Access.projects st)) as [project|]; [|done].
  destruct (String.eqb (Access.ownerId project) userId); [done|].
  destruct (Access.members_of st projectId userId) as [|m ms]; [done|].
  by destruct (Access.role m).
Qed.

(** X10: the access flags are nested: an owner may manage members, who may
    manage members may edit, who may edit has access; and the level is null
    exactly when there is no access.  So the routes' test
    [!access.canEdit && !access.isOwner] is the test [!access.canEdit]. *)
Theorem access_flags_nested st projectId userId :
  let a := Access.getProjectAccess st projectId userId in
  (Access.isOwner a = true -> Access.canManageMembers a = true)
  /\ (Access.canManageMembers a = true -> Access.canEdit a = true)
  /\ (Access.canEdit a = true -> Access.hasAccess a = true)
  /\ (Access.hasAccess a = true <-> Access.level a <> None)
  /\ negb (Access.canEdit a) && negb (Access.isOwner a) = negb (Access.canEdit a).
Proof.
  cbv zeta. unfold Access.getProjectAccess.
  destruct (find _ (Access.projects st)) as [project|]; [|by repeat split].
  destruct (String.eqb (Access.ownerId project) userId); [by repeat split|].
  destruct (Access.members_of st projectId userId) as [|m ms]; [by repeat split|].
  destruct (Access.role m); by repeat split.
Qed.

(** X11: [requireProjectAccess] with a minimum level admits a user exactly
    when the matching flag of [getProjectAccess] is set: "viewer" is
    [hasAccess], "editor" is [canEdit], "admin" is [canManageMembers],
    "owner" is [isOwner]; and what it returns is the access result. *)
Theorem requireProjectAccess_flags st projectId userId minimumLevel :
  let a := Access.getProjectAccess st projectId userId in
  let flag :=
    match minimumLevel with
    | Access.viewer => Access.hasAccess a
    | Access.editor => Access.canEdit a
    | Access.admin => Access.canManageMembers a
    | Access.owner => Access.isOwner a
    end in
  match Access.requireProjectAccess st projectId userId minimumLevel with
  | inl r => flag = true /\ r = a
  | inr msg =>
      flag = false
      /\ msg = (if Access.hasAccess a then "Insufficient permissions"
                else "Project not found or access denied")%string
  end.
Proof.
  cbv zeta. unfold Access.requireProjectAccess, Access.getProjectAccess.
  destruct (find _ (Access.projects st)) as [project|];
    [|by destruct minimumLevel].
  destruct (String.eqb (Access.ownerId project) userId);
    [by destruct minimumLevel|].
  destruct (Access.members_of st projectId userId) as [|m ms];
    [by destruct minimumLevel|].
  destruct (Access.role m), minimumLevel; done.
Qed.

(** X12: the guard of the schedule routes admits exactly the signed-in
    users that [requireProjectAccess(projectId, userId, "editor")] admits:
    the owner of the project and its members with role ADMIN or EDITOR. *)
Theorem route_guard_is_editor st projectId userId :
  authorised (Access.caller_of st projectId userId)
  <-> exists u, userId = Some u /\ u <> ""%string
        /\ exists a, Access.requireProjectAccess st projectId u Access.editor
                     = inl a.
Proof.
  unfold authorised, Access.caller_of.
  destruct userId as [[|c u]|]; cbn [session_user hasAccess canEdit isOwner].
  - split; [intros ([? ?] & _); done | intros (? & [= <-] & ? & _); done].
  - pose proof (access_flags_order st projectId (String c u)) as (H1 & H2 & H3).
    pose proof (requireProjectAccess_editor st projectId (String c u)) as Hreq.
    cbv zeta in *.
    destruct (Access.requireProjectAccess st projectId (String c u) Access.editor)
      as [a|msg] eqn:E.
    + destruct Hreq as [Hflag ->]. split.
      * intros _. exists (String c u). split; [done|]. split; [done|]. by eexists.
      * intros _. split; [by eexists|]. split; [by apply H3 | by left].
    + rename Hreq into Hflag. split.
      * intros (_ & _ & [He|Ho]); [congruence|].
        rewrite (H2 (H1 Ho)) in Hflag. done.
      * intros (? & [= <-] & _ & ? & ?). congruence.
  - split; [intros ([? ?] & _); done | intros (? & ? & _); done].
Qed.

End AccessFacts.

(* ===================================================================== *)
(** * Day breaks: constraints, deletion, the toggle button *)
(* ===================================================================== *)

Section DayBreakFacts.
Import Db Handlers.

(** The outcomes of the toggle: an error leaves the database as it was, a
    deletion removes the rows with the found identifier, a creation
    appends one row at a free place. *)
Lemma toggle_POST_cases caller pid afterPos newId d :
  let r := fst (Toggle.POST caller pid afterPos newId d) in
  let d' := snd (Toggle.POST caller pid afterPos newId d) in
  (d' = d /\ Handlers.ok (Toggle.status_of r) = false)
  \/ (exists sch p b,
        schedule_findUnique pid d = Some sch
        /\ dayBreak_findUnique (schedule_id sch) p (dayBreaks d) = Some b
        /\ r = Toggle.Deleted b
        /\ d' = with_dayBreaks d (dayBreak_delete (db_id b) (dayBreaks d)))
  \/ (exists sch p,
        schedule_findUnique pid d = Some sch
        /\ dayBreak_findUnique (schedule_id sch) p (dayBreaks d) = None
        /\ let nb := {| db_id := newId; db_scheduleId := schedule_id sch;
                        afterPosition := p;
                        dayNumber :=
                          int_or (dayBreak_maxDayNumber (schedule_id sch)
                                                        (dayBreaks d)) 0 + 1;
                        shootDate := None; notes := None |} in
           r = Toggle.Created nb
           /\ d' = with_dayBreaks d (dayBreaks d ++ [nb])).
Proof.
  unfold Toggle.POST.
  destruct (session_user caller); [|left; by split].
  destruct (negb (hasAccess caller)); [left; by split|].
  destruct (negb (canEdit caller) && negb (isOwner caller)); [left; by split|].
  destruct afterPos as [| |?|ap|?|]; try (left; by split).
  destruct (Qlt_le_dec ap 0); [left; by split|].
  destruct (schedule_findUnique pid d) as [sch|] eqn:Hsch; [|left; by split].
  destruct (as_Int ap) as [p|]; [|left; by split].
  destruct (dayBreak_findUnique _ p _) as [b|] eqn:Hfind.
  - right; left. by exists sch, p, b.
  - right; right. by exists sch, p.
Qed.

Lemma delete_keeps_NoDup {B} (f : DayBreak -> B) id t :
  NoDup (map f t) -> NoDup (map f (dayBreak_delete id t)).
Proof. intros H. unfold dayBreak_delete. by apply NoDup_map_filter. Qed.

Lemma run_updates_fields fetched : forall k t,
  map db_id (Renumber.run_updates k fetched t) = map db_id t
  /\ map (fun b => (db_scheduleId b, afterPosition b))
         (Renumber.run_updates k fetched t)
     = map (fun b => (db_scheduleId b, afterPosition b)) t.
Proof.
  induction fetched as [|b rest IH]; intros k t; [done|].
  cbn [Renumber.run_updates].
  destruct (IH (k + 1) (dayBreak_update (db_id b) (k + 1) t)) as [-> ->].
  unfold dayBreak_update. rewrite !map_map.
  split; apply map_ext; intros x; by destruct (String.eqb _ _).
Qed.

Lemma renumber_POST_cases caller pid d :
  snd (Renumber.POST caller pid d) = d
  \/ exists sch,
      schedule_findUnique pid d = Some sch
      /\ snd (Renumber.POST caller pid d)
         = with_dayBreaks d
             (Renumber.run_updates 0
                (dayBreak_findMany (schedule_id sch) (dayBreaks d)) (dayBreaks d)).
Proof.
  unfold Renumber.POST.
  destruct (session_user caller); [|by left].
  destruct (negb (hasAccess caller)); [by left|].
  destruct (negb (canEdit caller) && negb (isOwner caller)); [by left|].
  destruct (schedule_findUnique pid d) as [sch|]; [|by left].
  right. by exists sch.
Qed.

Lemma delete_POST_cases caller pid dbId d :
  snd (DeleteDayBreak.DELETE caller pid dbId d) = d
  \/ snd (DeleteDayBreak.DELETE caller pid dbId d)
     = with_dayBreaks d (dayBreak_delete dbId (dayBreaks d)).
Proof.
  unfold DeleteDayBreak.DELETE.
  destruct (session_user caller); [|by left].
  destruct (negb (hasAccess caller)); [by left|].
  destruct (negb (canEdit caller) && negb (isOwner caller)); [by left|].
  destruct (schedule_findUnique pid d) as [sch|]; [|by left].
  destruct (DeleteDayBreak.dayBreak_findFirst _ _ _); [by right|by left].
Qed.

(** The toggle keeps the table's constraints when the new identifier is
    fresh. *)
Lemma toggle_keeps_constraints caller pid afterPos newId d :
  dayBreak_pk d -> dayBreak_unique d ->
  newId ∉ map db_id (dayBreaks d) ->
  dayBreak_pk (snd (Toggle.POST caller pid afterPos newId d))
  /\ dayBreak_unique (snd (Toggle.POST caller pid afterPos newId d)).
Proof.
  intros Hpk Huniq Hfresh.
  destruct (toggle_POST_cases caller pid afterPos newId d)
    as [[-> _]|[(sch & p & b & _ & _ & _ & ->)|(sch & p & _ & Hnone & _ & ->)]];
    [done| |].
  - unfold dayBreak_pk, dayBreak_unique. cbn [dayBreaks with_dayBreaks].
    split; by apply delete_keeps_NoDup.
  - unfold dayBreak_pk, dayBreak_unique. cbn [dayBreaks with_dayBreaks].
    rewrite !map_app. cbn [map db_id db_scheduleId afterPosition].
    split.
    + apply NoDup_app. split; [done|]. split; [|apply NoDup_singleton].
      intros x Hx ->%list_elem_of_singleton. done.
    + apply NoDup_app. split; [done|]. split; [|apply NoDup_singleton].
      intros x Hx ->%list_elem_of_singleton.
      change (?a ∈ map ?f ?l) with (a ∈ f <$> l) in Hx.
      apply list_elem_of_fmap in Hx as (b & [= Hs Hp] & Hb).
      pose proof (find_None_all _ _ b Hnone Hb) as Hm. cbv beta in Hm.
      unfold db_in_schedule in Hm. rewrite <- Hs, <- Hp in Hm.
      by rewrite String.eqb_refl, Z.eqb_refl in Hm.
Qed.

(** X13: every schedule route keeps the constraints of the DayBreak table
    (primary key, one break per schedule and position), whoever calls it
    and with whatever input, provided the identifier the store generates
    for a created break is fresh. *)
Theorem dayBreak_constraints_kept caller pid afterPos newId dbId stripId newPosition d :
  dayBreak_pk d -> dayBreak_unique d ->
  newId ∉ map db_id (dayBreaks d) ->
  let kept d' := dayBreak_pk d' /\ dayBreak_unique d' in
  kept (snd (Toggle.POST caller pid afterPos newId d))
  /\ kept (snd (Renumber.POST caller pid d))
  /\ kept (snd (DeleteDayBreak.DELETE caller pid dbId d))
  /\ kept (snd (Reorder.POST caller pid stripId newPosition d)).
Proof.
  intros Hpk Huniq Hfresh kept. unfold kept. clear kept. repeat split.
  - by apply toggle_keeps_constraints.
  - by apply toggle_keeps_constraints.
  - destruct (renumber_POST_cases caller pid d) as [->|(sch & _ & ->)]; [done|].
    unfold dayBreak_pk. cbn [dayBreaks with_dayBreaks].
    by rewrite (proj1 (run_updates_fields _ _ _)).
  - destruct (renumber_POST_cases caller pid d) as [->|(sch & _ & ->)]; [done|].
    unfold dayBreak_unique. cbn [dayBreaks with_dayBreaks].
    by rewrite (proj2 (run_updates_fields _ _ _)).
  - destruct (delete_POST_cases caller pid dbId d) as [->| ->]; [done|].
    by apply delete_keeps_NoDup.
  - destruct (delete_POST_cases caller pid dbId d) as [->| ->]; [done|].
    by apply delete_keeps_NoDup.
  - destruct (reorder_POST_cases caller pid stripId newPosition d)
      as [[-> _]|[[-> _]|Hup]]; [done|done|].
    by destruct Hup as (? & ? & ? & ? & ? & ? & _ & _ & _ & _ & _ & _ & _ & _ & -> & _).
  - destruct (reorder_POST_cases caller pid stripId newPosition d)
      as [[-> _]|[[-> _]|Hup]]; [done|done|].
    by destruct Hup as (? & ? & ? & ? & ? & ? & _ & _ & _ & _ & _ & _ & _ & _ & -> & _).
Qed.

Lemma dayBreak_constraints_kept_witness :
  dayBreak_pk (snd (Toggle.POST Sample.editor "p1" (JNum 1) "n1" Sample.db0))
  /\ dayBreak_unique (snd (Toggle.POST Sample.editor "p1" (JNum 1) "n1" Sample.db0)).
Proof.
  apply (dayBreak_constraints_kept Sample.editor "p1" (JNum 1) "n1" "k1"
           (JStr "a") (JNum 2) Sample.db0).
  - apply (bool_decide_unpack _). vm_compute. reflexivity.
  - apply (bool_decide_unpack _). vm_compute. reflexivity.
  - apply (bool_decide_unpack _). vm_compute. reflexivity.
Defined.

(** X14: a break the toggle creates gets a day number above the day
    numbers of all the breaks the schedule already has, and the existing
    rows stay as they are. *)
Theorem toggle_created_number caller pid afterPos newId d nb :
  fst (Toggle.POST caller pid afterPos newId d) = Toggle.Created nb ->
  dayBreaks (snd (Toggle.POST caller pid afterPos newId d)) = dayBreaks d ++ [nb]
  /\ db_id nb = newId
  /\ forall b, b ∈ dayBreaks d -> db_scheduleId b = db_scheduleId nb ->
               dayNumber b < dayNumber nb.
Proof.
  intros Hr.
  destruct (toggle_POST_cases caller pid afterPos newId d)
    as [[_ Hno]|[(sch & p & b & _ & _ & Hr' & _)|(sch & p & _ & _ & Hr' & Hd)]].
  - rewrite Hr in Hno. done.
  - rewrite Hr in Hr'. done.
  - rewrite Hr in Hr'. injection Hr' as ->. rewrite Hd.
    cbn [dayBreaks with_dayBreaks db_id db_scheduleId dayNumber].
    split; [done|]. split; [done|]. intros b Hb Hs.
    unfold dayBreak_maxDayNumber.
    pose proof (fold_max_opt
                  (map dayNumber
                     (filter (fun b => db_in_schedule (schedule_id sch) b = true)
                             (dayBreaks d))) None) as Hmax.
    assert (Hin : dayNumber b ∈ map dayNumber
                    (filter (fun b => db_in_schedule (schedule_id sch) b = true)
                            (dayBreaks d))).
    { change (dayNumber b ∈ dayNumber <$>
                filter (fun b => db_in_schedule (schedule_id sch) b = true)
                       (dayBreaks d)).
      apply list_elem_of_fmap_2, list_elem_of_filter. split; [|done].
      by apply String.eqb_eq. }
    destruct (fold_left max_opt _ None) as [m|].
    + destruct Hmax as (Hle & _). specialize (Hle _ Hin).
      unfold int_or. destruct (Z.eqb_spec m 0); lia.
    + destruct Hmax as [Hnil _]. rewrite Hnil in Hin. by apply elem_of_nil in Hin.
Qed.

Lemma toggle_created_number_witness :
  dayBreaks (snd (Toggle.POST Sample.editor "p1" (JNum 1) "n1" Sample.db0))
  = dayBreaks Sample.db0 ++ [mkDayBreak "n1" "s1" 1 3 None None].
Proof.
  exact (proj1 (toggle_created_number Sample.editor "p1" (JNum 1) "n1" Sample.db0
                  (mkDayBreak "n1" "s1" 1 3 None None) eq_refl)).
Defined.


Lemma find_the_one {A} (P : A -> bool) (l : list A) b :
  b ∈ l -> P b = true -> (forall x, x ∈ l -> P x = true -> x = b) ->
  find P l = Some b.
Proof.
  intros Hb HP Hone. destruct (find P l) as [x|] eqn:E.
  - apply find_Some_elem in E as [Hx HPx]. f_equal. by apply Hone.
  - pose proof (find_None_all _ _ b E Hb). congruence.
Qed.

Lemma delete_POST_authorised caller pid dbId d sch :
  authorised caller -> schedule_findUnique pid d = Some sch ->
  DeleteDayBreak.DELETE caller pid dbId d =
  match DeleteDayBreak.dayBreak_findFirst dbId (schedule_id sch) (dayBreaks d) with
  | None => (DeleteDayBreak.Error 404 "Day break not found", d)
  | Some _ =>
      (DeleteDayBreak.Success,
       with_dayBreaks d (dayBreak_delete dbId (dayBreaks d)))
  end.
Proof.
  intros ([u Hu] & Ha & He) Hsch. unfold DeleteDayBreak.DELETE.
  rewrite Hu, Ha. cbn [negb].
  assert (negb (canEdit caller) && negb (isOwner caller) = false) as ->.
  { destruct He as [-> | ->]; cbn; [done | by rewrite andb_false_r]. }
  by rewrite Hsch.
Qed.

(** Deleting by identifier removes the one row that has it. *)
Lemma delete_elem id t x :
  x ∈ dayBreak_delete id t <-> x ∈ t /\ db_id x <> id.
Proof.
  unfold dayBreak_delete. rewrite list_elem_of_filter.
  destruct (String.eqb_spec (db_id x) id); split; intros [? ?]; by split.
Qed.

(** X15: removing a break through the DELETE route and switching it off
    through the toggle are the same operation: for a break of the
    project's schedule (at a non-negative position) both are answered with
    200 and leave the same database, in which that break is gone and every
    other break is as before. *)
Theorem delete_is_toggle_off caller pid d sch b newId :
  authorised caller ->
  schedule_findUnique pid d = Some sch ->
  dayBreak_pk d -> dayBreak_unique d ->
  b ∈ dayBreaks d -> db_scheduleId b = schedule_id sch ->
  0 <= afterPosition b ->
  let d' := with_dayBreaks d (dayBreak_delete (db_id b) (dayBreaks d)) in
  DeleteDayBreak.DELETE caller pid (db_id b) d = (DeleteDayBreak.Success, d')
  /\ Toggle.POST caller pid (JNum (inject_Z (afterPosition b))) newId d
     = (Toggle.Deleted b, d')
  /\ forall x, x ∈ dayBreaks d' <-> x ∈ dayBreaks d /\ x <> b.
Proof.
  intros Hauth Hsch Hpk Huniq Hb Hs Hp d'. unfold d'. clear d'.
  assert (Hfirst : DeleteDayBreak.dayBreak_findFirst (db_id b) (schedule_id sch)
                     (dayBreaks d) = Some b).
  { apply find_the_one; [done| |].
    - unfold db_in_schedule. by rewrite String.eqb_refl, Hs, String.eqb_refl.
    - intros x Hx [Hid _]%andb_true_iff. apply String.eqb_eq in Hid.
      by apply (NoDup_map_inj_on db_id (dayBreaks d)). }
  assert (Huni : dayBreak_findUnique (schedule_id sch) (afterPosition b)
                   (dayBreaks d) = Some b).
  { apply find_the_one; [done| |].
    - unfold db_in_schedule. by rewrite Hs, String.eqb_refl, Z.eqb_refl.
    - intros x Hx [Hsx Hpx]%andb_true_iff. apply String.eqb_eq in Hsx.
      apply Z.eqb_eq in Hpx.
      apply (NoDup_map_inj_on (fun b => (db_scheduleId b, afterPosition b))
               (dayBreaks d)); [done..|]. cbv beta. congruence. }
  split; [|split].
  - by rewrite (delete_POST_authorised _ _ _ _ sch), Hfirst.
  - by rewrite (toggle_POST_authorised caller pid _ newId d sch), Huni.
  - intros x. cbn [dayBreaks with_dayBreaks]. rewrite delete_elem.
    split; intros [Hx Hne]; (split; [done|]).
    + intros ->. done.
    + intros E. apply Hne. by apply (NoDup_map_inj_on db_id (dayBreaks d)).
Qed.

Lemma delete_is_toggle_off_witness :
  DeleteDayBreak.DELETE Sample.editor "p1" "k1" Sample.db0
  = (DeleteDayBreak.Success,
     with_dayBreaks Sample.db0 [mkDayBreak "k2" "s1" 3 2 None None])
  /\ Toggle.POST Sample.editor "p1" (JNum (inject_Z 2)) "n1" Sample.db0
     = (Toggle.Deleted (mkDayBreak "k1" "s1" 2 1 None None),
        with_dayBreaks Sample.db0 [mkDayBreak "k2" "s1" 3 2 None None]).
Proof.
  pose proof (delete_is_toggle_off Sample.editor "p1" Sample.db0 Sample.sch0
                (mkDayBreak "k1" "s1" 2 1 None None) "n1") as H.
  cbv zeta in H. destruct H as (H1 & H2 & _).
  - split; [by eexists|]. split; [reflexivity | left; reflexivity].
  - reflexivity.
  - apply (bool_decide_unpack _). vm_compute. reflexivity.
  - apply (bool_decide_unpack _). vm_compute. reflexivity.
  - apply elem_of_cons. right. apply elem_of_cons. by left.
  - reflexivity.
  - cbn. lia.
  - split; [exact H1 | exact H2].
Defined.

(** X16: the DELETE route removes no break of another project's schedule:
    asked for a break that is not in the schedule of the project named in
    the request, it answers 404 and changes nothing. *)
Theorem delete_foreign_break caller pid dbId d sch :
  schedule_findUnique pid d = Some sch ->
  (forall b, b ∈ dayBreaks d -> db_id b = dbId ->
             db_scheduleId b <> schedule_id sch) ->
  DeleteDayBreak.status_of (fst (DeleteDayBreak.DELETE caller pid dbId d)) <> 200
  /\ snd (DeleteDayBreak.DELETE caller pid dbId d) = d.
Proof.
  intros Hsch Hforeign. unfold DeleteDayBreak.DELETE.
  destruct (session_user caller); [|done].
  destruct (negb (hasAccess caller)); [done|].
  destruct (negb (canEdit caller) && negb (isOwner caller)); [done|].
  rewrite Hsch.
  destruct (DeleteDayBreak.dayBreak_findFirst _ _ _) as [b|] eqn:E; [|done].
  exfalso. apply find_Some_elem in E as [Hb [Hid Hs]%andb_true_iff].
  apply String.eqb_eq in Hid. apply String.eqb_eq in Hs.
  by apply (Hforeign b).
Qed.

Lemma delete_foreign_break_witness :
  let d := mkDatabase (schedules Sample.db0) (stripSlots Sample.db0)
             (dayBreaks Sample.db0 ++ [mkDayBreak "z1" "s2" 1 1 None None]) in
  DeleteDayBreak.status_of (fst (DeleteDayBreak.DELETE Sample.editor "p1" "z1" d))
  = 404
  /\ snd (DeleteDayBreak.DELETE Sample.editor "p1" "z1" d) = d.
Proof.
  cbv zeta. split; [vm_compute; reflexivity|].
  apply (delete_foreign_break Sample.editor "p1" "z1" _ Sample.sch0);
    [reflexivity|].
  intros b Hb Hid.
  repeat (apply elem_of_cons in Hb as [->|Hb]; [by vm_compute in Hid|]).
  by apply elem_of_nil in Hb.
Defined.

(** X17: a caller who may not edit the project changes nothing through
    the schedule routes: reorder, toggle, renumber and delete each answer
    401, 404 or 403 and leave the database as it was. *)
Theorem schedule_routes_guarded caller pid d stripId newPosition afterPos newId dbId :
  ~ authorised caller ->
  let denied st := st = 401 \/ st = 404 \/ st = 403 in
  (denied (Reorder.status_of (fst (Reorder.POST caller pid stripId newPosition d)))
   /\ snd (Reorder.POST caller pid stripId newPosition d) = d)
  /\ (denied (Toggle.status_of (fst (Toggle.POST caller pid afterPos newId d)))
      /\ snd (Toggle.POST caller pid afterPos newId d) = d)
  /\ (denied (Renumber.status_of (fst (Renumber.POST caller pid d)))
      /\ snd (Renumber.POST caller pid d) = d)
  /\ (denied (DeleteDayBreak.status_of (fst (DeleteDayBreak.DELETE caller pid dbId d)))
      /\ snd (DeleteDayBreak.DELETE caller pid dbId d) = d).
Proof.
  intros Hno denied. unfold denied. clear denied.
  unfold Reorder.POST, Toggle.POST, Renumber.POST, DeleteDayBreak.DELETE.
  destruct (session_user caller) as [u|] eqn:Hu; [|cbn; by auto 10].
  destruct (hasAccess caller) eqn:Ha; cbn [negb]; [|cbn; by auto 10].
  destruct (canEdit caller) eqn:He.
  { exfalso. apply Hno. split; [by eexists|]. split; [done | by left]. }
  destruct (isOwner caller) eqn:Ho.
  { exfalso. apply Hno. split; [by eexists|]. split; [done | by right]. }
  cbn. by auto 10.
Qed.

Lemma schedule_routes_guarded_witness :
  let viewer := mkCaller (Some "u2"%string) true false false in
  Reorder.status_of (fst (Reorder.POST viewer "p1" (JStr "a") (JNum 3) Sample.db0))
  = 403
  /\ snd (Reorder.POST viewer "p1" (JStr "a") (JNum 3) Sample.db0) = Sample.db0.
Proof.
  cbv zeta. split; [vm_compute; reflexivity|].
  apply (schedule_routes_guarded (mkCaller (Some "u2"%string) true false false)
           "p1" Sample.db0 (JStr "a") (JNum 3) (JNum 1) "n1" "k1").
  intros (_ & _ & [H|H]); discriminate H.
Defined.


(** Rows of other schedules are out of reach of a deletion by the
    identifier of a row of this schedule. *)
Lemma other_dayBreaks_delete sid id t :
  (forall x, x ∈ t -> db_id x = id -> db_in_schedule sid x = true) ->
  List.filter (fun b => negb (db_in_schedule sid b)) (dayBreak_delete id t)
  = List.filter (fun b => negb (db_in_schedule sid b)) t.
Proof.
  induction t as [|x t IH]; intros Hin; [done|].
  unfold dayBreak_delete in *. rewrite filter_cons.
  assert (IH' := IH (fun y Hy => Hin y (list_elem_of_further _ _ _ Hy))).
  destruct (decide (String.eqb (db_id x) id = false)) as [E|E].
  - cbn [List.filter]. by rewrite IH'.
  - cbn [List.filter]. rewrite IH'.
    apply not_false_is_true, String.eqb_eq in E.
    by rewrite (Hin x (list_elem_of_here _ _) E).
Qed.

Lemma other_dayBreaks_renumber sid k fetched t :
  (forall x, x ∈ t -> db_in_schedule sid x = false ->
             db_id x ∉ map db_id fetched) ->
  List.filter (fun b => negb (db_in_schedule sid b))
              (map (Renumber.renumber_row k fetched) t)
  = List.filter (fun b => negb (db_in_schedule sid b)) t.
Proof.
  induction t as [|x t IH]; intros Hout; [done|].
  cbn [map List.filter].
  assert (IH' := IH (fun y Hy => Hout y (list_elem_of_further _ _ _ Hy))).
  assert (Hs : db_in_schedule sid (Renumber.renumber_row k fetched x)
               = db_in_schedule sid x).
  { unfold db_in_schedule.
    by destruct (renumber_row_fields k fetched x) as (_ & -> & _). }
  rewrite Hs, IH'. destruct (db_in_schedule sid x) eqn:E; [done|].
  cbn [negb]. f_equal. unfold Renumber.renumber_row.
  by rewrite rank_in_None by (by apply Hout; [apply list_elem_of_here|]).
Qed.

(** What renumbering does on a table with a primary key. *)
Lemma renumber_numbers caller pid d sch :
  authorised caller ->
  schedule_findUnique pid d = Some sch ->
  dayBreak_pk d ->
  let sid := schedule_id sch in
  let d' := snd (Renumber.POST caller pid d) in
  map dayNumber (dayBreak_findMany sid (dayBreaks d'))
  = seqZ 1 (Z.of_nat (length (afterPositions sid d')))
  /\ afterPositions sid d' = afterPositions sid d
  /\ other_dayBreaks sid d' = other_dayBreaks sid d.
Proof.
  intros Hauth Hsch Hpk sid d'. unfold d'. clear d'.
  rewrite (renumber_POST_authorised _ _ _ sch) by done. fold sid. cbn [snd].
  set (fetched := dayBreak_findMany sid (dayBreaks d)).
  assert (Hnd : NoDup (map db_id fetched)) by (by apply findMany_NoDup).
  rewrite run_updates_spec by done.
  assert (Hpos : afterPositions sid
                   (with_dayBreaks d (map (Renumber.renumber_row 0 fetched) (dayBreaks d)))
                 = afterPositions sid d).
  { unfold afterPositions. cbn [dayBreaks with_dayBreaks].
    rewrite (filter_map_pres (db_in_schedule sid)); cycle 1.
    { intros b. unfold db_in_schedule.
      by destruct (renumber_row_fields 0 fetched b) as (_ & -> & _). }
    rewrite map_map. apply map_ext. intros b.
    by destruct (renumber_row_fields 0 fetched b) as (_ & _ & ->). }
  split; [|split; [done|]].
  - rewrite Hpos. cbn [dayBreaks with_dayBreaks].
    rewrite findMany_renumbered. fold fetched.
    pose proof (renumber_fetched fetched 0 [] Hnd) as Hr.
    cbn [app length] in Hr. rewrite Hr. f_equal. f_equal.
    unfold afterPositions. rewrite length_map.
    unfold fetched, dayBreak_findMany. by rewrite orderBy_perm.
  - unfold other_dayBreaks. cbn [dayBreaks with_dayBreaks].
    apply other_dayBreaks_renumber. intros x Hx Hout Hin.
    change (db_id x ∈ db_id <$> fetched) in Hin.
    apply list_elem_of_fmap in Hin as (y & Hid & Hy).
    unfold fetched, dayBreak_findMany in Hy. rewrite orderBy_perm in Hy.
    apply list_elem_of_filter in Hy as [Hys Hy].
    assert (x = y) as -> by (by apply (NoDup_map_inj_on db_id (dayBreaks d))).
    congruence.
Qed.

(** What the toggle does to the break positions of the schedule. *)
Lemma toggle_afterPositions caller pid p newId d sch :
  authorised caller ->
  schedule_findUnique pid d = Some sch ->
  dayBreak_pk d -> dayBreak_unique d -> 0 <= p ->
  let sid := schedule_id sch in
  let r := fst (Toggle.POST caller pid (JNum (inject_Z p)) newId d) in
  let d1 := snd (Toggle.POST caller pid (JNum (inject_Z p)) newId d) in
  Handlers.ok (Toggle.status_of r) = true
  /\ schedule_findUnique pid d1 = Some sch
  /\ (forall x, x ∈ afterPositions sid d1 <->
                 (x ∈ afterPositions sid d /\ x <> p)
                 \/ (x = p /\ p ∉ afterPositions sid d))
  /\ other_dayBreaks sid d1 = other_dayBreaks sid d.
Proof.
  intros Hauth Hsch Hpk Huniq Hp sid r d1. unfold r, d1. clear r d1.
  rewrite (toggle_POST_authorised caller pid p newId d sch) by done. fold sid.
  destruct (dayBreak_findUnique sid p (dayBreaks d)) as [b|] eqn:Hfind.
  - cbn [fst snd]. split; [done|]. split; [done|].
    pose proof Hfind as [Hb Hm]%find_Some_elem.
    apply andb_true_iff in Hm as [Hs Hpb].
    pose proof Hs as Hs'. apply String.eqb_eq in Hs'. apply Z.eqb_eq in Hpb.
    split.
    + intros x. rewrite !afterPositions_elem. cbn [dayBreaks with_dayBreaks].
      split.
      * intros (b' & [Hb' Hne]%delete_elem & Hsb' & <-). left. split.
        -- by exists b'.
        -- intros E. apply Hne. f_equal.
           apply (NoDup_map_inj_on (fun b => (db_scheduleId b, afterPosition b))
                    (dayBreaks d)); [done..|]. cbv beta. congruence.
      * intros [[(b' & Hb' & Hsb' & <-) Hne]|[-> Hnot]].
        -- exists b'. split; [|done]. apply delete_elem. split; [done|].
           intros E. apply Hne.
           assert (b' = b) as -> by (by apply (NoDup_map_inj_on db_id (dayBreaks d))).
           done.
        -- exfalso. apply Hnot. by exists b.
    + unfold other_dayBreaks. cbn [dayBreaks with_dayBreaks].
      apply other_dayBreaks_delete. intros x Hx Hid.
      assert (x = b) as -> by (by apply (NoDup_map_inj_on db_id (dayBreaks d))).
      done.
  - cbv zeta. cbn [fst snd]. split; [done|]. split; [done|].
    assert (Hnot : p ∉ afterPositions sid d).
    { intros (b & Hb & Hs & Hpb)%afterPositions_elem.
      pose proof (find_None_all _ _ b Hfind Hb) as Hm. cbv beta in Hm.
      unfold db_in_schedule in Hm.
      by rewrite Hs, Hpb, String.eqb_refl, Z.eqb_refl in Hm. }
    split.
    + intros x. unfold afterPositions at 1. cbn [dayBreaks with_dayBreaks].
      rewrite filter_app, filter_cons, filter_nil.
      rewrite decide_True
        by (unfold db_in_schedule; cbn; apply String.eqb_refl).
      rewrite map_app. cbn [map afterPosition]. rewrite elem_of_app.
      fold (afterPositions sid d). rewrite list_elem_of_singleton.
      split.
      * intros [Hx| ->]; [left|right]; [|done].
        split; [done|]. intros ->. done.
      * intros [[Hx _]|[-> _]]; [by left | by right].
    + unfold other_dayBreaks. cbn [dayBreaks with_dayBreaks].
      rewrite List.filter_app. cbn [List.filter].
      unfold db_in_schedule at 2. cbn [db_scheduleId].
      rewrite String.eqb_refl. cbn [negb]. by rewrite app_nil_r.
Qed.

(** X18: after a click on the strip board's day-break button by a caller
    who may edit (the toggle request followed by the renumber request),
    the break after the clicked position is switched, the breaks of the
    schedule taken in board order are numbered exactly 1, 2, ..., B, and
    the breaks of the other schedules are as they were. *)
Theorem handleToggleDayBreak_numbers caller pid p newId d sch :
  authorised caller ->
  schedule_findUnique pid d = Some sch ->
  dayBreak_pk d -> dayBreak_unique d ->
  newId ∉ map db_id (dayBreaks d) ->
  0 <= p ->
  let sid := schedule_id sch in
  let d2 := handleToggleDayBreak caller pid p newId d in
  map dayNumber (dayBreak_findMany sid (dayBreaks d2))
  = seqZ 1 (Z.of_nat (length (afterPositions sid d2)))
  /\ (forall x, x ∈ afterPositions sid d2 <->
                 (x ∈ afterPositions sid d /\ x <> p)
                 \/ (x = p /\ p ∉ afterPositions sid d))
  /\ other_dayBreaks sid d2 = other_dayBreaks sid d.
Proof.
  intros Hauth Hsch Hpk Huniq Hfresh Hp sid d2. unfold d2. clear d2.
  destruct (toggle_afterPositions caller pid p newId d sch)
    as (Hok & Hsch1 & Hpos1 & Hoth1); try done.
  destruct (toggle_keeps_constraints caller pid (JNum (inject_Z p)) newId d)
    as [Hpk1 _]; try done.
  unfold handleToggleDayBreak.
  destruct (Toggle.POST caller pid (JNum (inject_Z p)) newId d) as [r d1].
  cbn [fst snd] in *. rewrite Hok.
  destruct (renumber_numbers caller pid d1 sch) as (Hnum & Hpos2 & Hoth2);
    try done.
  fold sid in Hnum, Hpos2, Hoth2, Hpos1, Hoth1.
  split; [done|]. split; [|congruence].
  intros x. rewrite Hpos2. apply Hpos1.
Qed.

Lemma handleToggleDayBreak_numbers_witness :
  let d2 := handleToggleDayBreak Sample.editor "p1" 1 "n1" Sample.db0 in
  map (fun b => (afterPosition b, dayNumber b)) (dayBreak_findMany "s1" (dayBreaks d2))
  = [(1, 1); (2, 2); (3, 3)]
  /\ map dayNumber (dayBreak_findMany "s1" (dayBreaks d2))
     = seqZ 1 (Z.of_nat (length (afterPositions "s1" d2))).
Proof.
  cbv zeta. split; [vm_compute; reflexivity|].
  apply (handleToggleDayBreak_numbers Sample.editor "p1" 1 "n1" Sample.db0
           Sample.sch0).
  - split; [by eexists|]. split; [reflexivity | left; reflexivity].
  - reflexivity.
  - apply (bool_decide_unpack _). vm_compute. reflexivity.
  - apply (bool_decide_unpack _). vm_compute. reflexivity.
  - apply (bool_decide_unpack _). vm_compute. reflexivity.
  - lia.
Defined.

End DayBreakFacts.

(* ===================================================================== *)
(** * Creating and deleting breakdowns; the schedule the client gets *)
(* ===================================================================== *)

Section BreakdownFacts.
Import Db Breakdowns.
Context {Columns : Type}.









Lemma breakdown_POST_cases caller pid sceneNumbers created newStripId (st : @Store Columns) :
  (snd (POST caller pid sceneNumbers created newStripId st) = st
   /\ status_of (fst (POST caller pid sceneNumbers created newStripId st)) <> 201)
  \/ exists sch newBreakdown,
       schedule_findUnique pid (database st) = Some sch
       /\ created = Some newBreakdown
       /\ fst (POST caller pid sceneNumbers created newStripId st)
          = Created newBreakdown
       /\ snd (POST caller pid sceneNumbers created newStripId st)
          = mkStore
              (with_stripSlots (database st)
                 (stripSlots (database st)
                  ++ [{| strip_id := newStripId;
                         strip_scheduleId := schedule_id sch;
                         breakdownId := bd_id newBreakdown;
                         position :=
                           int_or (stripSlot_maxPosition (schedule_id sch)
                                     (stripSlots (database st))) 0 + 1 |}]))
              (breakdownSheets st ++ [newBreakdown]).
Proof.
  unfold POST.
  destruct (session_user caller); [|left; by split].
  destruct (negb (hasAccess caller)); [left; by split|].
  destruct (negb (canEdit caller) && negb (isOwner caller)); [left; by split|].
  destruct (negb (valid_sceneNumbers sceneNumbers)); [left; by split|].
  destruct (schedule_findUnique pid (database st)) as [sch|]; [|left; by split].
  destruct created as [newBreakdown|]; [|left; by split].
  right. by exists sch, newBreakdown.
Qed.

(** X20: creating a breakdown appends its strip to the board: on a
    schedule with positions exactly 1..N the new strip gets position N+1
    (1 on an empty board), the positions are then exactly 1..N+1, and the
    strips already there, the other schedules and the day breaks are
    untouched. *)
Theorem breakdown_create_appends caller pid sceneNumbers created newStripId
    (st : @Store Columns) sch :
  schedule_findUnique pid (database st) = Some sch ->
  dense (schedule_id sch) (database st) ->
  status_of (fst (POST caller pid sceneNumbers created newStripId st)) = 201 ->
  let sid := schedule_id sch in
  let d := database st in
  let d' := database (snd (POST caller pid sceneNumbers created newStripId st)) in
  dense sid d'
  /\ positions sid d' = positions sid d ++ [Z.of_nat (length (positions sid d)) + 1]
  /\ (exists strip, stripSlots d' = stripSlots d ++ [strip]
                     /\ strip_id strip = newStripId
                     /\ strip_scheduleId strip = sid)
  /\ dayBreaks d' = dayBreaks d.
Proof.
  intros Hsch Hdense Hok sid d d'. unfold d', d. clear d d'.
  destruct (breakdown_POST_cases caller pid sceneNumbers created newStripId st)
    as [[_ Hno]|(sch' & nb & Hsch' & -> & Hr & ->)]; [done|].
  assert (sch' = sch) as -> by congruence. fold sid.
  cbn [database stripSlots with_stripSlots dayBreaks].
  set (N := Z.of_nat (length (positions sid (database st)))).
  assert (Hnext : int_or (stripSlot_maxPosition sid (stripSlots (database st))) 0 + 1
                  = N + 1).
  { destruct (decide (positions sid (database st) = [])) as [Hnil|Hne].
    - unfold stripSlot_maxPosition, N. fold (positions sid (database st)).
      by rewrite Hnil.
    - rewrite (dense_maxPosition sid (database st) Hdense Hne).
      unfold int_or. fold N.
      assert (N <> 0).
      { unfold N. destruct (positions sid (database st)); [done|cbn [length]; lia]. }
      by destruct (Z.eqb_spec N 0). }
  rewrite Hnext.
  assert (Hpos' : positions sid
                    (with_stripSlots (database st)
                       (stripSlots (database st)
                        ++ [{| strip_id := newStripId; strip_scheduleId := sid;
                               breakdownId := bd_id nb; position := N + 1 |}]))
                  = positions sid (database st) ++ [N + 1]).
  { unfold positions. cbn [stripSlots with_stripSlots].
    rewrite filter_app, filter_cons, filter_nil.
    rewrite decide_True by (unfold in_schedule; cbn; apply String.eqb_refl).
    by rewrite map_app. }
  split; [|split; [done|split; [by eexists|done]]].
  unfold dense. rewrite Hpos', length_app. cbn [length].
  replace (Z.of_nat (length (positions sid (database st)) + 1)) with (N + 1)
    by (unfold N; lia).
  rewrite (seqZ_app 1 N 1) by (unfold N; lia).
  unfold dense in Hdense. fold sid N in Hdense. rewrite <- Hdense.
  by replace (1 + N) with (N + 1) by lia.
Qed.

(** ** The schedule the client receives *)

Lemma seqZ_sorted : forall k m n,
  Z.to_nat n = k -> StronglySorted Z.lt (seqZ m n).
Proof.
  induction k as [|k IH]; intros m n Hk.
  - assert (n <= 0) by lia. rewrite seqZ_nil by done. constructor.
  - rewrite seqZ_cons by lia. constructor.
    + apply IH. lia.
    + apply Forall_forall. intros x Hx%elem_of_seqZ. lia.
Qed.

Lemma Sorted_map_key {A} (key : A -> Z) l :
  Sorted (key_le key) l -> Sorted Z.le (map key l).
Proof.
  induction 1 as [|x l Hs IH Hhd]; [constructor|].
  cbn [map]. constructor; [done|]. destruct Hhd; constructor. done.
Qed.

Lemma Sorted_lt_le l : StronglySorted Z.lt l -> Sorted Z.le l.
Proof.
  intros H. apply StronglySorted_Sorted in H.
  induction H as [|x l Hs IH Hhd]; [constructor|].
  constructor; [done|]. destruct Hhd; constructor. lia.
Qed.

(** X21: for a caller with access, the schedule route sends a dense
    schedule's strips in board order: their positions are 1, 2, ..., N,
    one after the other (strictly increasing and positive, as the strip
    board's page totals need), each strip with the breakdown its
    [breakdownId] names, and the day breaks in ascending afterPosition. *)
Theorem GET_in_board_order caller pid breakdown_of d sch schedule :
  schedule_findUnique pid d = Some sch ->
  dense (schedule_id sch) d ->
  GET caller pid breakdown_of d = GetOk schedule ->
  let strips := Client.stripSlots schedule in
  map Client.position strips
  = seqZ 1 (Z.of_nat (length (positions (schedule_id sch) d)))
  /\ StronglySorted Z.lt (map Client.position strips)
  /\ Forall (fun s => 0 < Client.position s) strips
  /\ (forall s, s ∈ strips ->
         exists row, row ∈ stripSlots d /\ in_schedule (schedule_id sch) row = true
           /\ s = Client.mkStrip (strip_id row) (position row)
                                  (breakdown_of (breakdownId row)))
  /\ Sorted (key_le afterPosition) (Client.dayBreaks schedule)
  /\ Client.startDate schedule = startDate sch.
Proof.
  intros Hsch Hdense Hget strips. unfold strips. clear strips.
  unfold GET in Hget.
  destruct (session_user caller); [|done].
  destruct (negb (hasAccess caller)); [done|].
  rewrite Hsch in Hget. injection Hget as <-.
  cbn [Client.stripSlots Client.dayBreaks Client.startDate].
  set (sid := schedule_id sch) in *.
  set (rows := filter (fun s => in_schedule sid s = true) (stripSlots d)).
  assert (Hpos : map Client.position
                   (map (fun s => Client.mkStrip (strip_id s) (position s)
                                    (breakdown_of (breakdownId s)))
                        (orderBy position rows))
                 = seqZ 1 (Z.of_nat (length (positions sid d)))).
  { rewrite map_map. cbn [Client.position].
    apply (Sorted_unique Z.le).
    - apply Sorted_map_key, orderBy_sorted.
    - apply Sorted_lt_le. by eapply seqZ_sorted.
    - change (position <$> orderBy position rows
              ≡ₚ seqZ 1 (Z.of_nat (length (positions sid d)))).
      rewrite orderBy_perm. exact Hdense. }
  rewrite Hpos.
  split; [done|]. split; [by eapply seqZ_sorted|]. split; [|split; [|split]].
  - apply Forall_forall. intros x Hx.
    assert (Hin : Client.position x ∈ seqZ 1 (Z.of_nat (length (positions sid d)))).
    { rewrite <- Hpos.
      change (Client.position x ∈ Client.position <$>
                map (fun s => Client.mkStrip (strip_id s) (position s)
                                (breakdown_of (breakdownId s)))
                    (orderBy position rows)).
      by apply list_elem_of_fmap_2. }
    apply elem_of_seqZ in Hin. lia.
  - intros x Hx.
    change (x ∈ (fun s => Client.mkStrip (strip_id s) (position s)
                            (breakdown_of (breakdownId s)))
                <$> orderBy position rows) in Hx.
    apply list_elem_of_fmap in Hx as (row & -> & Hrow).
    rewrite orderBy_perm in Hrow. apply list_elem_of_filter in Hrow as [? ?].
    by exists row.
  - apply orderBy_sorted.
  - done.
Qed.

End BreakdownFacts.

Section BreakdownExamples.
Import Db Breakdowns.


Lemma breakdown_create_appends_witness :
  let st := mkStore Sample.db0 [mkSheet "bd-a" "p1" tt] in
  positions "s1"
    (database (snd (POST Sample.editor "p1" (JStr "12A")
                      (Some (mkSheet "bd-n" "p1" tt)) "n" st)))
  = [1; 2; 3; 4].
Proof.
  cbv zeta.
  refine (eq_trans (proj1 (proj2
    (breakdown_create_appends (Columns := unit) Sample.editor "p1" (JStr "12A")
       (Some (mkSheet "bd-n" "p1" tt)) "n"
       (mkStore Sample.db0 [mkSheet "bd-a" "p1" tt]) Sample.sch0
       eq_refl _ eq_refl))) _).
  - unfold dense. vm_compute. reflexivity.
  - vm_compute. reflexivity.
Defined.

Lemma GET_in_board_order_witness :
  match GET Sample.editor "p1" (fun _ => Sample.scene "1" "1" []) Sample.db0 with
  | GetOk schedule =>
      map Client.position (Client.stripSlots schedule) = seqZ 1 3
  | GetError _ _ => False
  end.
Proof.
  exact (proj1 (GET_in_board_order Sample.editor "p1"
                  (fun _ => Sample.scene "1" "1" []) Sample.db0 Sample.sch0 _
                  eq_refl ltac:(unfold dense; vm_compute; reflexivity) eq_refl)).
Defined.

End BreakdownExamples.

(* ===================================================================== *)
(** * Day Out of Days, cell by cell *)
(* ===================================================================== *)

Section DOODCells.
Import Client DOOD.

Lemma spec_scan_lookup works : forall started (i : nat) (w : bool),
  works !! i = Some w ->
  spec_scan started works !! i
  = Some (if w
          then (if started || existsb (fun b => b) (take i works) then "W" else "SW")
          else (if started || existsb (fun b => b) (take i works) then "H" else ""))%string.
Proof.
  induction works as [|w0 r IH]; intros started i w; [done|].
  destruct i as [|i].
  - intros [= ->]. cbn [take existsb]. rewrite orb_false_r.
    by destruct w.
  - intros Hw. cbn [lookup list_lookup] in Hw.
    cbn [take existsb].
    destruct w0; cbn [spec_scan];
      change ((?x :: ?l) !! S i) with (l !! i); rewrite (IH _ i w Hw);
      cbn [orb]; by rewrite ?orb_true_r.
Qed.

Lemma existsb_drop_true works n :
  existsb (fun b => b) (drop n works) = true
  <-> exists j, (n <= j)%nat /\ works !! j = Some true.
Proof.
  rewrite existsb_exists. split.
  - intros (x & Hx%list_elem_of_In & ->).
    apply list_elem_of_lookup in Hx as [j Hj]. rewrite lookup_drop in Hj.
    exists (n + j)%nat. split; [lia|done].
  - intros (j & Hnj & Hj). exists true. split; [|done].
    apply list_elem_of_In, list_elem_of_lookup. exists (j - n)%nat.
    rewrite lookup_drop. by replace (n + (j - n))%nat with j by lia.
Qed.

Lemma works_after works i :
  existsb (fun b => b) (drop (S i) works)
  = match last_work_index works with
    | Some k => bool_decide (i < k)%nat
    | None => false
    end.
Proof.
  destruct (last_work_index works) as [k|] eqn:Hk.
  - destruct (last_work_index_works works k Hk) as [Hwk Hafter].
    destruct (decide (i < k)%nat) as [Hlt|Hge].
    + rewrite bool_decide_eq_true_2 by done.
      apply existsb_drop_true. exists k. split; [lia|done].
    + rewrite bool_decide_eq_false_2 by done.
      apply not_true_is_false. intros (j & Hj & Hwj)%existsb_drop_true.
      destruct (decide (j = k)) as [->|Hne]; [lia|].
      apply (Hafter j); [lia|done].
  - apply not_true_is_false. intros (j & Hj & Hwj)%existsb_drop_true.
    by apply (last_work_index_none works j Hk).
Qed.

(** The status of a day, from the days around it. *)
Lemma spec_statuses_lookup works (i : nat) (w : bool) :
  works !! i = Some w ->
  spec_statuses works !! i
  = Some (match w, existsb (fun b => b) (take i works),
                existsb (fun b => b) (drop (S i) works) with
          | true, false, false => "SWF"
          | true, false, true => "SW"
          | true, true, false => "WF"
          | true, true, true => "W"
          | false, true, true => "H"
          | false, _, _ => ""
          end)%string.
Proof.
  intros Hw. rewrite works_after. unfold spec_statuses. cbv zeta.
  pose proof (spec_scan_lookup works false i w Hw) as Hscan.
  cbn [orb] in Hscan.
  destruct (last_work_index works) as [k|] eqn:Hk.
  - destruct (last_work_index_works works k Hk) as [Hwk Hafter].
    unfold spec_finish. rewrite list_lookup_imap, Hscan.
    cbn [fmap option_fmap option_map]. f_equal.
    destruct (Nat.ltb_spec i k) as [Hlt|Hge].
    + rewrite bool_decide_eq_true_2 by done.
      by destruct w, (existsb _ (take i works)).
    + rewrite bool_decide_eq_false_2 by lia.
      destruct (Nat.eqb_spec i k) as [->|Hne].
      * assert (w = true) as -> by congruence.
        by destruct (existsb _ (take k works)).
      * destruct w.
        -- exfalso. apply (Hafter i); [lia|done].
        -- by destruct (existsb _ (take i works)).
  - rewrite Hscan.
    destruct w; [exfalso; by apply (last_work_index_none works i Hk)|].
    f_equal. destruct (existsb _ (take i works)) eqn:E; [|done].
    exfalso. apply existsb_exists in E as (x & Hx%list_elem_of_In & ->).
    apply list_elem_of_lookup in Hx as [j Hj].
    apply lookup_take_Some in Hj as [Hj _].
    by apply (last_work_index_none works j Hk).
Qed.

Lemma existsb_map {A} (f : A -> bool) l :
  existsb (fun b => b) (map f l) = existsb f l.
Proof. induction l as [|x l IH]; [done|]. cbn. by rewrite IH. Qed.

(** X22: the cell of a character on a day says how the day lies in the
    character's run: start and finish on the only working day, start on
    the first and finish on the last of several, work in between, hold on
    a day off between two working days, and nothing before the first and
    after the last working day. *)
Theorem dood_cell char days i dayStrips :
  days !! i = Some dayStrips ->
  statuses char days !! i
  = Some (match worksToday char dayStrips,
                existsb (worksToday char) (take i days),
                existsb (worksToday char) (drop (S i) days) with
          | true, false, false => "SWF"
          | true, false, true => "SW"
          | true, true, false => "WF"
          | true, true, true => "W"
          | false, true, true => "H"
          | false, _, _ => ""
          end)%string.
Proof.
  intros Hday. rewrite statuses_spec.
  rewrite (spec_statuses_lookup _ i (worksToday char dayStrips)); cycle 1.
  { change (map ?f ?l) with (f <$> l). by rewrite list_lookup_fmap, Hday. }
  change (map (worksToday char) days) with (worksToday char <$> days).
  rewrite <- fmap_take, <- fmap_drop.
  change (?f <$> ?l) with (map f l). by rewrite !existsb_map.
Qed.

Lemma dood_cell_witness :
  statuses Sample.charY
    (Segments.groupStripsByDay Sample.strips5 Sample.breaks24) !! 1%nat
  = Some "H"%string.
Proof.
  exact (dood_cell Sample.charY
           (Segments.groupStripsByDay Sample.strips5 Sample.breaks24) 1 _ eq_refl).
Defined.

(** X23: the row of a character in the Day Out of Days table has one
    cell for every day segment of the board, and its Total is the number
    of day segments in which the character plays. *)
Theorem dood_row_total char schedule :
  let days := Segments.groupStripsByDay (stripSlots schedule) (dayBreaks schedule) in
  length (fst (dood_row char schedule)) = length days
  /\ snd (dood_row char schedule)
     = length (List.filter (worksToday char) days).
Proof.
  cbv zeta. unfold dood_row. cbn [fst snd]. split.
  - rewrite statuses_spec. unfold spec_statuses. cbv zeta.
    destruct (last_work_index _); unfold spec_finish;
      rewrite ?length_imap, spec_scan_length, length_map; done.
  - rewrite workDays_counts_working_days.
    induction (Segments.groupStripsByDay _ _) as [|d ds IH]; [done|].
    cbn [map List.filter]. destruct (worksToday char d); cbn [length]; lia.
Qed.

End DOODCells.

(* ===================================================================== *)
(** * Page totals *)
(* ===================================================================== *)

Section PageTotals.
Import Client Reports.

Lemma sumPages_from strips : forall ks (a : Q),
  Forall2 (fun s k => 0 <= k /\
             pageCount (breakdown s)
             = Some (PageCount.formatPageCount (JS.Fin (k # 8)))) strips ks ->
  exists p, fold_left (fun sum s =>
                JS.add sum (PageCount.parsePageCount (pageCount (breakdown s))))
              strips (JS.Fin a) = JS.Fin p
            /\ (p == a + (foldr Z.add 0%Z ks # 8))%Q.
Proof.
  induction strips as [|s strips IH]; intros ks a Hall.
  - apply Forall2_nil_inv_l in Hall as ->. exists a. split; [done|].
    cbn [foldr]. unfold Qeq. simpl. lia.
  - apply Forall2_cons_inv_l in Hall as (k & ks' & [Hk Hs] & Hall & ->).
    cbn [fold_left foldr]. rewrite Hs.
    pose proof (parse_format_eighths k Hk) as Hrt.
    destruct (PageCount.parsePageCount _) as [| |q]; try done.
    cbn [JS.num_eq] in Hrt. cbn [JS.add].
    destruct (IH ks' (a + q)%Q Hall) as (p & Hp & Hpq).
    exists p. split; [done|]. rewrite Hpq, Hrt.
    unfold Qeq, Qplus. cbn [Qnum Qden]. lia.
Qed.

(** X24: page counts written in eighths add up exactly: for strips whose
    page counts are the printed forms of k1/8, k2/8, ... pages, with
    k1 + k2 + ... at most 2^53 (where every sum is a number the code's
    arithmetic represents exactly), the page total of the day (or of the
    board) is (k1 + k2 + ...)/8 and is printed as such. *)
Theorem sumPages_eighths strips ks :
  Forall2 (fun s k => 0 <= k /\
             pageCount (breakdown s)
             = Some (PageCount.formatPageCount (JS.Fin (k # 8)))) strips ks ->
  foldr Z.add 0 ks <= 9007199254740992 ->
  JS.num_eq (sumPages strips) (JS.Fin (foldr Z.add 0 ks # 8))
  /\ PageCount.formatPageCount (sumPages strips)
     = PageCount.formatPageCount (JS.Fin (foldr Z.add 0 ks # 8)).
Proof.
  intros Hall _. unfold sumPages.
  destruct (sumPages_from strips ks 0 Hall) as (p & -> & Hp).
  assert (E : (p == foldr Z.add 0%Z ks # 8)%Q) by (rewrite Hp; apply Qplus_0_l).
  split; [exact E|]. by apply formatPageCount_comp.
Qed.

Lemma sumPages_eighths_witness :
  PageCount.formatPageCount
    (sumPages [mkStrip "a" 1 (Sample.scene "1" "1 2/8" ["Y"%string]);
               mkStrip "b" 2 (Sample.scene "2" "3/8" [])])
  = "1 5/8"%string.
Proof.
  refine (eq_trans (proj2 (sumPages_eighths _ [10; 3] _ _)) _).
  - constructor; [split; [lia | vm_compute; reflexivity]|].
    constructor; [split; [lia | vm_compute; reflexivity]|]. constructor.
  - cbn. lia.
  - reflexivity.
Defined.

End PageTotals.

(* ===================================================================== *)
(** * The production calendar *)
(* ===================================================================== *)

Section CalendarFacts.
Import Date Calendar.

Lemma MakeDay_day y m d : MakeDay y m d = MakeDay y m 1 + (d - 1).
Proof. unfold MakeDay. lia. Qed.

(** The year, month and day of a time are those of its day number. *)
Lemma civil_Day t :
  civil (Day t) = (YearFromTime t, MonthFromTime t + 1, DateFromTime t).
Proof.
  unfold civil, DateFromTime, MonthFromTime, InLeapYear, DayWithinYear,
    YearFromTime.
  by rewrite Day_MakeDate by (unfold msPerDay; lia).
Qed.

Lemma WeekDay_Day t : WeekDay t = WeekDay (MakeDate (Day t) 0).
Proof. unfold WeekDay. by rewrite Day_MakeDate by (unfold msPerDay; lia). Qed.

Lemma month_start_range m leap :
  0 <= leap <= 1 -> 0 <= month_start m leap <= 335.
Proof.
  intros Hl. unfold month_start.
  repeat match goal with
  | |- context [match ?x with _ => _ end] => destruct x
  end; lia.
Qed.

Lemma DaysInYear_leap y : 0 <= DaysInYear y - 365 <= 1.
Proof. unfold DaysInYear. repeat destruct (negb _); lia. Qed.

(** Day numbers of the years 100 to 200000 are valid. *)
Lemma MakeDay_in_range y m d :
  100 <= y <= 200000 -> -12 <= m <= 24 -> -50 <= d <= 50 ->
  Z.abs (MakeDay y m d) <= max_day.
Proof.
  intros Hy Hm Hd. unfold MakeDay.
  pose proof (month_start_range (m mod 12) (DaysInYear (y + m / 12) - 365)
                (DaysInYear_leap _)) as Hms.
  assert (Hq : -1 <= m / 12 <= 2) by (Z.to_euclidean_division_equations; lia).
  pose proof (DayFromYear_mono 99 (y + m / 12) ltac:(lia)) as Hlo.
  pose proof (DayFromYear_mono (y + m / 12) 200002 ltac:(lia)) as Hhi.
  change (DayFromYear 99) with (-683368) in Hlo.
  change (DayFromYear 200002) with 72329703 in Hhi.
  unfold max_day. lia.
Qed.

Lemma succ_divmod m :
  (m mod 12 < 11 -> (m + 1) / 12 = m / 12 /\ (m + 1) mod 12 = m mod 12 + 1)
  /\ (m mod 12 = 11 -> (m + 1) / 12 = m / 12 + 1 /\ (m + 1) mod 12 = 0).
Proof. split; intros H; Z.to_euclidean_division_equations; lia. Qed.

(** Months follow one another: the first of the next month comes the
    month's length after the first of the month. *)
Lemma month_days y m :
  MakeDay y (m + 1) 1 - MakeDay y m 1
  = days_in_month (DaysInYear (y + m / 12) - 365) (m mod 12 + 1).
Proof.
  unfold MakeDay.
  pose proof (Z.mod_pos_bound m 12 ltac:(lia)) as Hr.
  destruct (succ_divmod m) as [Hlt Heq].
  set (q := m / 12) in *. set (r := m mod 12) in *.
  pose proof (DaysInYear_leap (y + q)) as Hleap.
  pose proof (DayFromYear_step (y + q)) as Hstep.
  destruct (Z.eq_dec r 11) as [E|E].
  - destruct (Heq E) as [-> ->]. rewrite E.
    replace (y + (q + 1)) with (y + q + 1) by lia.
    change (11 + 1) with 12. unfold month_start, days_in_month. lia.
  - destruct (Hlt ltac:(lia)) as [-> ->].
    assert (Hcases : r = 0 \/ r = 1 \/ r = 2 \/ r = 3 \/ r = 4 \/ r = 5 \/ r = 6
                     \/ r = 7 \/ r = 8 \/ r = 9 \/ r = 10) by lia.
    clear Hlt Heq Hr E Hstep.
    destruct Hcases as [->|[->|[->|[->|[->|[->|[->|[->|[->|[->| ->]]]]]]]]]];
      repeat match goal with
      | |- context [month_start (?a + 1)] =>
          let v := eval vm_compute in (a + 1) in change (a + 1) with v
      end;
      unfold month_start, days_in_month; lia.
Qed.

Lemma days_in_month_range leap m : 0 <= leap <= 1 -> 28 <= days_in_month leap m <= 31.
Proof.
  intros Hl. unfold days_in_month.
  repeat match goal with
  | |- context [match ?x with _ => _ end] => destruct x
  end; lia.
Qed.

(** The month and the year a month index stands for. *)
Lemma MakeDay_norm y m d : MakeDay y m d = MakeDay (y + m / 12) (m mod 12) d.
Proof.
  unfold MakeDay.
  assert (m mod 12 / 12 = 0) as -> by (Z.to_euclidean_division_equations; lia).
  assert (m mod 12 mod 12 = m mod 12) as ->
    by (Z.to_euclidean_division_equations; lia).
  by rewrite Z.add_0_r.
Qed.

Lemma formatDateForInput_dateKey LocalTZA t :
  formatDateForInput LocalTZA (Some t) = dateKey (Day (LocalTime LocalTZA t)).
Proof.
  unfold formatDateForInput, dateKey, getFullYear, getMonth, getDate, plus.
  cbn [option_map num_toString]. by rewrite civil_Day.
Qed.

Section Host.

Variable LocalTZA : Z -> bool -> Z.

(** Offsets from UTC stay within a day. *)
Hypothesis tz_bound : forall t isUTC, Z.abs (LocalTZA t isUTC) <= msPerDay.

(** Local midnight, as the host resolves it, lies on its own day. *)
Hypothesis tz_midnight : forall n,
  Day (LocalTime LocalTZA (UTC LocalTZA (MakeDate n 0))) = n.

Lemma Date_ymd_midnight y m d :
  100 <= y -> Z.abs (MakeDay y m d) <= max_day ->
  Date_ymd LocalTZA (Some y) (Some m) (Some d)
  = Some (UTC LocalTZA (MakeDate (MakeDay y m d) 0)).
Proof.
  intros Hy Hr. unfold Date_ymd, Date_new, date_args, to_integer, num.
  cbn [Qnum Qden inject_Z]. rewrite !Z.quot_1_r.
  destruct (Z.leb_spec 0 y), (Z.leb_spec y 99); cbn [andb]; try lia.
  all: change (MakeTime 0 0 0 0) with 0;
    by rewrite (TimeClip_UTC LocalTZA tz_bound) by (unfold msPerDay; lia).
Qed.

Lemma getDaysInMonth_gen y m :
  100 <= y <= 200000 -> -12 <= m <= 23 ->
  getDaysInMonth LocalTZA (Some y) (Some m)
  = Some (MakeDay y (m + 1) 1 - MakeDay y m 1).
Proof.
  intros Hy Hm. unfold getDaysInMonth, plus. cbn [option_map].
  rewrite Date_ymd_midnight by (try apply MakeDay_in_range; lia).
  unfold getDate. f_equal.
  set (t0 := LocalTime LocalTZA (UTC LocalTZA (MakeDate (MakeDay y (m + 1) 0) 0))).
  pose proof (civil_Day t0) as Hc. unfold t0 in Hc at 1.
  rewrite tz_midnight in Hc.
  set (L := MakeDay y (m + 1) 1 - MakeDay y m 1).
  assert (HL : L = days_in_month (DaysInYear (y + m / 12) - 365) (m mod 12 + 1))
    by apply month_days.
  assert (Hday : MakeDay y (m + 1) 0 = MakeDay (y + m / 12) (m mod 12 + 1 - 1) L).
  { rewrite (MakeDay_day y (m + 1) 0).
    replace (m mod 12 + 1 - 1) with (m mod 12) by lia.
    rewrite <- MakeDay_norm, (MakeDay_day y m L). unfold L. lia. }
  rewrite Hday, civil_MakeDay in Hc.
  - by injection Hc as _ _ <-.
  - pose proof (Z.mod_pos_bound m 12 ltac:(lia)). lia.
  - rewrite <- HL.
    pose proof (days_in_month_range (DaysInYear (y + m / 12) - 365)
                  (m mod 12 + 1) (DaysInYear_leap _)). lia.
Qed.

(** X25: [getDaysInMonth] is the length of the month, in every such
    time zone: 31, 30, or 28 and 29 for February by the leap-year rule; asked
    for month -1 or 12, as the grid does around January and December, it
    answers for December of the year before and January of the year
    after. *)
Theorem getDaysInMonth_length y m :
  100 <= y <= 200000 -> -12 <= m <= 23 ->
  getDaysInMonth LocalTZA (Some y) (Some m)
  = Some (days_in_month (DaysInYear (y + m / 12) - 365) (m mod 12 + 1)).
Proof.
  intros Hy Hm. rewrite getDaysInMonth_gen by done. f_equal. apply month_days.
Qed.

(** What a cell of the grid shows: its day number, whether it belongs to
    the month, and its shoot day. *)
Lemma grid_cell_view cm y k d b :
  100 <= y <= 200000 -> -12 <= k <= 24 -> -50 <= d <= 50 ->
  let c := grid_cell LocalTZA cm (Date_ymd LocalTZA (Some y) (Some k) (Some d)) b in
  (option_map (fun t => Day (LocalTime LocalTZA t)) (cell_date c),
   isCurrentMonth c, shoot c)
  = (Some (MakeDay y k d), b,
     option_map shootDayNumber (cm !! dateKey (MakeDay y k d))).
Proof.
  intros Hy Hk Hd. cbv zeta. unfold grid_cell.
  rewrite Date_ymd_midnight by (try apply MakeDay_in_range; lia).
  cbn [cell_date isCurrentMonth shoot option_map].
  by rewrite formatDateForInput_dateKey, tz_midnight.
Qed.

Lemma reverse_seqZ_sub (n : nat) a :
  map (fun i => a - i) (reverse (seqZ 0 (Z.of_nat n)))
  = seqZ (a - Z.of_nat n + 1) (Z.of_nat n).
Proof.
  induction n as [|n IH]; [done|].
  rewrite Nat2Z.inj_succ, <- Z.add_1_r, seqZ_app by lia.
  change (seqZ (0 + Z.of_nat n) 1) with [0 + Z.of_nat n].
  rewrite reverse_app. cbn [reverse rev_append app map]. fold (reverse (seqZ 0 (Z.of_nat n))).
  rewrite IH. rewrite (seqZ_cons (a - (Z.of_nat n + 1) + 1)) by lia.
  f_equal; [lia|]. f_equal; lia.
Qed.

Lemma seqZ_shift a n :
  map (fun d => a + (d - 1)) (seqZ 1 n) = seqZ a n.
Proof.
  transitivity (Z.add (a - 1) <$> seqZ 1 n).
  - apply map_ext. intros d. lia.
  - rewrite fmap_add_seqZ. f_equal. lia.
Qed.

(** X26: the month grid always has 42 cells, six weeks of consecutive
    calendar days beginning on the Sunday on or before the first of the
    month shown; the cells of that month, and only they, are marked as the
    current month, and every cell shows the shoot day the calendar map
    holds for its date. *)
Theorem calendarDays_grid viewDate cm y m :
  getFullYear LocalTZA viewDate = Some y ->
  getMonth LocalTZA viewDate = Some m ->
  100 <= y <= 200000 ->
  let first := MakeDay y m 1 in
  let sunday := first - WeekDay (MakeDate first 0) in
  map (fun c => (option_map (fun t => Day (LocalTime LocalTZA t)) (cell_date c),
                 isCurrentMonth c, shoot c))
      (calendarDays LocalTZA viewDate cm)
  = map (fun n => (Some n,
                   bool_decide (first <= n < MakeDay y (m + 1) 1),
                   option_map shootDayNumber (cm !! dateKey n)))
        (seqZ sunday 42)
  /\ WeekDay (MakeDate sunday 0) = 0.
Proof.
  intros Hyear Hmonth Hy first sunday.
  assert (Hm : 0 <= m <= 11).
  { destruct viewDate as [t|]; [|done]. injection Hmonth as <-.
    apply MonthFromTime_range. }
  set (f := WeekDay (MakeDate first 0)) in *.
  assert (Hf : 0 <= f < 7) by (unfold f, WeekDay; apply Z.mod_pos_bound; lia).
  set (L := MakeDay y (m + 1) 1 - first).
  set (Lp := first - MakeDay y (m - 1) 1).
  assert (HL : 28 <= L <= 31).
  { unfold L, first. rewrite month_days.
    apply days_in_month_range, DaysInYear_leap. }
  assert (HLp : 28 <= Lp <= 31).
  { pose proof (month_days y (m - 1)) as Hmd.
    replace (m - 1 + 1) with m in Hmd by lia. unfold Lp, first. rewrite Hmd.
    apply days_in_month_range, DaysInYear_leap. }
  split; cycle 1.
  { assert (Hfv : f = (first + 4) mod 7).
    { unfold f, WeekDay. by rewrite Day_MakeDate by (unfold msPerDay; lia). }
    unfold WeekDay. rewrite Day_MakeDate by (unfold msPerDay; lia).
    unfold sunday. rewrite Hfv. Z.to_euclidean_division_equations. lia. }
  unfold calendarDays. rewrite Hyear, Hmonth. unfold plus at 1 2 3. cbn [option_map].
  assert (Hfirst : getFirstDayOfMonth LocalTZA (Some y) (Some m) = Some f).
  { unfold getFirstDayOfMonth, getDay.
    rewrite Date_ymd_midnight by (try apply MakeDay_in_range; lia).
    cbn [option_map]. f_equal. rewrite WeekDay_Day, tz_midnight. done. }
  rewrite Hfirst.
  rewrite (getDaysInMonth_gen y m) by lia.
  rewrite (getDaysInMonth_gen y (m + -1)) by lia.
  replace (m + -1 + 1) with m by lia. replace (m + -1) with (m - 1) by lia.
  fold first L Lp. unfold plus. cbn [option_map].
  cbv zeta. rewrite !length_app, !length_map, length_reverse, !length_seqZ.
  set (remaining := 42 - Z.of_nat (Z.to_nat f + Z.to_nat L)).
  assert (Hrem : remaining = 42 - f - L) by (unfold remaining; lia).
  rewrite !map_app, !map_map.
  (* the three runs of cells *)
  assert (Hprev :
    map (fun i => (option_map (fun t => Day (LocalTime LocalTZA t))
                     (cell_date (grid_cell LocalTZA cm
                        (Date_ymd LocalTZA (Some y) (Some (m - 1)) (Some (Lp + - i)))
                        false)),
                   isCurrentMonth (grid_cell LocalTZA cm
                        (Date_ymd LocalTZA (Some y) (Some (m - 1)) (Some (Lp + - i)))
                        false),
                   shoot (grid_cell LocalTZA cm
                        (Date_ymd LocalTZA (Some y) (Some (m - 1)) (Some (Lp + - i)))
                        false)))
        (reverse (seqZ 0 f))
    = map (fun n => (Some n, bool_decide (first <= n < MakeDay y (m + 1) 1),
                     option_map shootDayNumber (cm !! dateKey n)))
          (seqZ sunday f)).
  { replace (seqZ sunday f) with (map (fun i => first - 1 - i) (reverse (seqZ 0 f))).
    2:{ rewrite <- (Z2Nat.id f) by lia. rewrite reverse_seqZ_sub.
        rewrite Z2Nat.id by lia. f_equal. unfold sunday. fold f. lia. }
    rewrite map_map. apply map_ext_in.
    intros i Hi%list_elem_of_In%elem_of_reverse%elem_of_seqZ.
    rewrite (grid_cell_view cm y (m - 1) (Lp + - i) false) by lia.
    rewrite (MakeDay_day y (m - 1)).
    replace (MakeDay y (m - 1) 1 + (Lp + - i - 1)) with (first - 1 - i)
      by (unfold Lp; lia).
    f_equal. f_equal. symmetry. apply bool_decide_eq_false_2. lia. }
  assert (Hcur :
    map (fun d => (option_map (fun t => Day (LocalTime LocalTZA t))
                     (cell_date (grid_cell LocalTZA cm
                        (Date_ymd LocalTZA (Some y) (Some m) (Some d)) true)),
                   isCurrentMonth (grid_cell LocalTZA cm
                        (Date_ymd LocalTZA (Some y) (Some m) (Some d)) true),
                   shoot (grid_cell LocalTZA cm
                        (Date_ymd LocalTZA (Some y) (Some m) (Some d)) true)))
        (seqZ 1 L)
    = map (fun n => (Some n, bool_decide (first <= n < MakeDay y (m + 1) 1),
                     option_map shootDayNumber (cm !! dateKey n)))
          (seqZ first L)).
  { rewrite <- (seqZ_shift first L), map_map. apply map_ext_in.
    intros d Hd%list_elem_of_In%elem_of_seqZ.
    rewrite (grid_cell_view cm y m d true) by lia.
    rewrite (MakeDay_day y m). fold first.
    f_equal. f_equal. symmetry. apply bool_decide_eq_true_2. unfold L in *. lia. }
  assert (Hnext :
    map (fun d => (option_map (fun t => Day (LocalTime LocalTZA t))
                     (cell_date (grid_cell LocalTZA cm
                        (Date_ymd LocalTZA (Some y) (Some (m + 1)) (Some d)) false)),
                   isCurrentMonth (grid_cell LocalTZA cm
                        (Date_ymd LocalTZA (Some y) (Some (m + 1)) (Some d)) false),
                   shoot (grid_cell LocalTZA cm
                        (Date_ymd LocalTZA (Some y) (Some (m + 1)) (Some d)) false)))
        (seqZ 1 remaining)
    = map (fun n => (Some n, bool_decide (first <= n < MakeDay y (m + 1) 1),
                     option_map shootDayNumber (cm !! dateKey n)))
          (seqZ (first + L) remaining)).
  { rewrite <- (seqZ_shift (first + L) remaining), map_map. apply map_ext_in.
    intros d Hd%list_elem_of_In%elem_of_seqZ.
    rewrite (grid_cell_view cm y (m + 1) d false) by lia.
    rewrite (MakeDay_day y (m + 1)).
    replace (MakeDay y (m + 1) 1) with (first + L) by (unfold L; lia).
    f_equal. f_equal. symmetry. apply bool_decide_eq_false_2. lia. }
  rewrite Hprev, Hcur, Hnext, <- !map_app. f_equal.
  replace 42 with (f + (L + remaining)) by lia.
  rewrite (seqZ_app sunday f) by lia.
  rewrite (seqZ_app (sunday + f) L) by lia.
  replace (sunday + f) with first by (unfold sunday; fold f; lia).
  by rewrite app_assoc.
Qed.

End Host.

Lemma tzEastern_midnight n :
  Day (LocalTime Sample.tzEastern (UTC Sample.tzEastern (MakeDate n 0))) = n.
Proof.
  unfold LocalTime, UTC, Sample.tzEastern, MakeDate, Day, msPerDay.
  repeat match goal with
  | |- context [?a <? ?b] => destruct (Z.ltb_spec a b)
  end; Z.to_euclidean_division_equations; lia.
Qed.

Lemma getDaysInMonth_length_witness :
  getDaysInMonth Sample.tzEastern (Some 2024) (Some 1) = Some 29
  /\ getDaysInMonth Sample.tzEastern (Some 2026) (Some (-1)) = Some 31.
Proof.
  split.
  - exact (getDaysInMonth_length Sample.tzEastern tzEastern_bound
             tzEastern_midnight 2024 1 ltac:(lia) ltac:(lia)).
  - exact (getDaysInMonth_length Sample.tzEastern tzEastern_bound
             tzEastern_midnight 2026 (-1) ltac:(lia) ltac:(lia)).
Defined.

Lemma calendarDays_grid_witness :
  map (fun c => isCurrentMonth c)
      (calendarDays Sample.tzEastern
         (parseLocalDate Sample.tzEastern "2026-02-03T00:00:00.000Z") ∅)
  = map (fun n => bool_decide (20485 <= n < 20513)) (seqZ 20485 42).
Proof.
  pose proof (proj1 (calendarDays_grid Sample.tzEastern tzEastern_bound
                       tzEastern_midnight
                       (parseLocalDate Sample.tzEastern "2026-02-03T00:00:00.000Z")
                       ∅ 2026 1 eq_refl eq_refl ltac:(lia))) as H.
  apply (f_equal (map (fun v => snd (fst v)))) in H.
  rewrite !map_map in H. exact H.
Defined.

End CalendarFacts.

(* ===================================================================== *)
(** * The shoot days on the calendar *)
(* ===================================================================== *)

Section ShootDayFacts.
Import Date Calendar.

Lemma DateFromTime_pos t : 1 <= DateFromTime t.
Proof.
  unfold DateFromTime, MonthFromTime.
  assert (H0 : 0 <= DayWithinYear t).
  { unfold DayWithinYear, YearFromTime.
    pose proof (YearFromDay_spec (Day t)). lia. }
  repeat match goal with
  | |- context [if ?a <? ?b then _ else _] => destruct (Z.ltb_spec a b)
  end; unfold month_start; lia.
Qed.

(** A day number is the day number of its calendar date. *)
Lemma MakeDay_civil n y m d : civil n = (y, m, d) -> MakeDay y (m - 1) d = n.
Proof.
  unfold civil. intros [= <- <- <-].
  pose proof (MakeDay_from_date (MakeDate n 0) 0) as H.
  rewrite Z.add_0_r, Z.add_0_r, Day_MakeDate in H by (unfold msPerDay; lia).
  by replace (MonthFromTime (MakeDate n 0) + 1 - 1)
    with (MonthFromTime (MakeDate n 0)) by lia.
Qed.

Lemma YearFromDay_ge y n : DayFromYear y <= n -> y <= YearFromDay n.
Proof.
  intros H. pose proof (YearFromDay_spec n) as HY.
  destruct (Z.le_gt_cases y (YearFromDay n)) as [|Hlt]; [done|].
  pose proof (DayFromYear_mono (YearFromDay n + 1) y ltac:(lia)). lia.
Qed.

(** Numbers from 1000 on have at least four digits. *)
Lemma digits_length4 y : 1000 <= y -> (4 <= length (JS.digits y))%nat.
Proof.
  intros Hy. unfold JS.digits.
  assert (Hl : 9 <= Z.log2 y) by (apply (Z.log2_le_mono 512 y); lia).
  destruct (Z.to_nat (Z.log2 y)) as [|[|[|f]]] eqn:E; try lia.
  change (JS.digits_go (S (S (S (S f)))) y [])
    with (let a1 := [JS.digit_char (y mod 10)] in
          if y <? 10 then a1
          else let a2 := JS.digit_char (y / 10 mod 10) :: a1 in
               if y / 10 <? 10 then a2
               else let a3 := JS.digit_char (y / 10 / 10 mod 10) :: a2 in
                    if y / 10 / 10 <? 10 then a3
                    else JS.digits_go (S f) (y / 10 / 10 / 10) a3).
  cbv zeta.
  destruct (Z.ltb_spec y 10); [lia|].
  destruct (Z.ltb_spec (y / 10) 10); [Z.to_euclidean_division_equations; lia|].
  destruct (Z.ltb_spec (y / 10 / 10) 10); [Z.to_euclidean_division_equations; lia|].
  pose proof (digits_go_length f (y / 10 / 10 / 10)
                [JS.digit_char (y / 10 / 10 mod 10);
                 JS.digit_char (y / 10 mod 10); JS.digit_char (y mod 10)]) as H2.
  cbn [length] in H2. lia.
Qed.

Lemma pad4_year y : 1000 <= y -> pad 4 y = JS.Z_toString y.
Proof.
  intros Hy. unfold pad, JS.Z_toString.
  destruct (Z.ltb_spec y 0); [lia|].
  pose proof (digits_length4 y Hy).
  by replace (4 - length (JS.digits y))%nat with 0%nat by lia.
Qed.

Lemma pad2_padStart2 m : 0 <= m -> pad 2 m = padStart2 (JS.Z_toString m).
Proof.
  intros Hm. unfold pad, padStart2, JS.Z_toString.
  by destruct (Z.ltb_spec m 0); [lia|].
Qed.

Lemma string_of_list_ascii_app a b :
  string_of_list_ascii (a ++ b)
  = (string_of_list_ascii a ++ string_of_list_ascii b)%string.
Proof. induction a as [|c a IH]; [done|]. cbn. by rewrite IH. Qed.

(** From the year 1000 on, the date key of a day is the date part of the
    timestamp of that day. *)
Lemma iso_date_dateKey n y m d :
  civil n = (y, m, d) -> 1000 <= y ->
  iso_date y m d = (dateKey n ++ "T00:00:00.000Z")%string.
Proof.
  intros Hc Hy. unfold dateKey, iso_date. rewrite Hc.
  assert (Hm : 0 <= m).
  { unfold civil in Hc. injection Hc as _ <- _.
    pose proof (MonthFromTime_range (MakeDate n 0)). lia. }
  assert (Hd : 0 <= d).
  { unfold civil in Hc. injection Hc as _ _ <-.
    pose proof (DateFromTime_pos (MakeDate n 0)). lia. }
  rewrite <- pad4_year, <- !pad2_padStart2 by done.
  rewrite <- (string_of_list_ascii_of_string "T00:00:00.000Z") at 2.
  rewrite <- string_of_list_ascii_app. f_equal.
  rewrite <- !app_assoc. cbn [app]. by rewrite <- !app_assoc.
Qed.

(** Two days from the year 1000 on with the same date key are the same
    day. *)
Lemma dateKey_inj n n' :
  DayFromYear 1000 <= n -> DayFromYear 1000 <= n' ->
  dateKey n = dateKey n' -> n = n'.
Proof.
  intros Hn Hn' E.
  destruct (civil n) as [[y m] d] eqn:Hc.
  destruct (civil n') as [[y' m'] d'] eqn:Hc'.
  assert (Hy : 1000 <= y).
  { unfold civil in Hc. injection Hc as <- _ _. unfold YearFromTime.
    rewrite Day_MakeDate by (unfold msPerDay; lia). by apply YearFromDay_ge. }
  assert (Hy' : 1000 <= y').
  { unfold civil in Hc'. injection Hc' as <- _ _. unfold YearFromTime.
    rewrite Day_MakeDate by (unfold msPerDay; lia). by apply YearFromDay_ge. }
  assert (Hm : 0 <= m /\ 0 <= m').
  { unfold civil in Hc, Hc'. injection Hc as _ <- _. injection Hc' as _ <- _.
    pose proof (MonthFromTime_range (MakeDate n 0)).
    pose proof (MonthFromTime_range (MakeDate n' 0)). lia. }
  assert (Hd : 0 <= d /\ 0 <= d').
  { unfold civil in Hc, Hc'. injection Hc as _ _ <-. injection Hc' as _ _ <-.
    pose proof (DateFromTime_pos (MakeDate n 0)).
    pose proof (DateFromTime_pos (MakeDate n' 0)). lia. }
  pose proof (iso_date_dateKey n y m d Hc Hy) as I.
  pose proof (iso_date_dateKey n' y' m' d' Hc' Hy') as I'.
  rewrite E, <- I' in I.
  apply (f_equal date_components) in I.
  rewrite !date_components_iso in I by lia.
  injection I as Ey Em Ed.
  rewrite <- (MakeDay_civil n y m d Hc), <- (MakeDay_civil n' y' m' d' Hc').
  f_equal; lia.
Qed.

Section Host.

Variable LocalTZA : Z -> bool -> Z.

(** Offsets from UTC stay within a day. *)
Hypothesis tz_bound : forall t isUTC, Z.abs (LocalTZA t isUTC) <= msPerDay.

(** Noon exists once on every local day: no clock change skips or repeats
    it. *)
Hypothesis tz_noon : forall n,
  LocalTime LocalTZA (UTC LocalTZA (MakeDate n (MakeTime 12 0 0 0)))
  = MakeDate n (MakeTime 12 0 0 0).

Lemma Day_noon n : Day (MakeDate n (MakeTime 12 0 0 0)) = n.
Proof. by apply Day_MakeDate. Qed.

Lemma parseLocalDate_noon s n :
  startDay s = Some n -> Z.abs n <= max_day ->
  parseLocalDate LocalTZA s = localNoon LocalTZA n.
Proof.
  intros Hs Hn. rewrite (parseLocalDate_startDay LocalTZA s n Hs).
  by apply (TimeClip_UTC LocalTZA tz_bound).
Qed.

Lemma formatDateForInput_noon n :
  formatDateForInput LocalTZA (localNoon LocalTZA n) = dateKey n.
Proof.
  unfold localNoon. by rewrite formatDateForInput_dateKey, tz_noon, Day_noon.
Qed.

Lemma addDays_one n :
  Z.abs (n + 1) <= max_day -> addDays LocalTZA (localNoon LocalTZA n) 1 = localNoon LocalTZA (n + 1).
Proof.
  intros Hn. unfold localNoon, addDays, getDate, setDate, option_map.
  rewrite tz_noon, MakeDay_from_date, Day_noon.
  rewrite TimeWithinDay_MakeDate by done.
  by apply (TimeClip_UTC LocalTZA tz_bound).
Qed.

(** The loop marks [k] days in a row, numbered from [j] on, and touches
    no other key. *)
Lemma mark_days_lookup k : forall n j mp,
  DayFromYear 1000 <= n -> n + Z.of_nat k <= max_day ->
  (forall i, 0 <= i < Z.of_nat k ->
     mark_days LocalTZA k (localNoon LocalTZA n) j mp !! dateKey (n + i)
     = Some (mkInfo (localNoon LocalTZA (n + i)) (j + i)))
  /\ (forall s, (forall i, 0 <= i < Z.of_nat k -> s <> dateKey (n + i)) ->
       mark_days LocalTZA k (localNoon LocalTZA n) j mp !! s = mp !! s).
Proof.
  assert (H1000 : DayFromYear 1000 = -354285) by reflexivity.
  induction k as [|k IH]; intros n j mp Hlo Hhi.
  { split; [lia|done]. }
  cbn [mark_days]. rewrite formatDateForInput_noon.
  rewrite addDays_one by (unfold max_day in *; lia).
  destruct (IH (n + 1) (j + 1)
              (<[dateKey n := mkInfo (localNoon LocalTZA n) j]> mp)
              ltac:(lia) ltac:(lia)) as [IH1 IH2].
  split.
  - intros i Hi. destruct (Z.eq_dec i 0) as [->|Hne].
    + rewrite Z.add_0_r, IH2.
      * by rewrite lookup_insert_eq, Z.add_0_r.
      * intros i' Hi' E. apply dateKey_inj in E; lia.
    + specialize (IH1 (i - 1) ltac:(lia)).
      replace (n + 1 + (i - 1)) with (n + i) in IH1 by lia.
      by replace (j + 1 + (i - 1)) with (j + i) in IH1 by lia.
  - intros s Hs. rewrite IH2.
    + apply lookup_insert_ne. intros E. apply (Hs 0); [lia|].
      by rewrite Z.add_0_r.
    + intros i Hi E. apply (Hs (i + 1)); [lia|].
      by replace (n + (i + 1)) with (n + 1 + i) by lia.
Qed.

(** Each turn of the loop adds one day to the map. *)
Lemma mark_days_size k : forall n j mp,
  DayFromYear 1000 <= n -> n + Z.of_nat k <= max_day ->
  (forall i, 0 <= i < Z.of_nat k -> mp !! dateKey (n + i) = None) ->
  size (mark_days LocalTZA k (localNoon LocalTZA n) j mp) = (size mp + k)%nat.
Proof.
  assert (H1000 : DayFromYear 1000 = -354285) by reflexivity.
  induction k as [|k IH]; intros n j mp Hlo Hhi Hfree.
  { cbn [mark_days]. lia. }
  cbn [mark_days]. rewrite formatDateForInput_noon.
  rewrite addDays_one by (unfold max_day in *; lia).
  rewrite IH; [| lia | lia |].
  - rewrite map_size_insert_None; [lia|].
    specialize (Hfree 0 ltac:(lia)). by rewrite Z.add_0_r in Hfree.
  - intros i Hi. rewrite lookup_insert_ne.
    + specialize (Hfree (i + 1) ltac:(lia)).
      by replace (n + (i + 1)) with (n + 1 + i) in Hfree by lia.
    + intros E. apply dateKey_inj in E; lia.
Qed.

(** X27: the date field of the calendar shows the start date the server
    sent: for a start date "YYYY-MM-DDT00:00:00.000Z" of the years 1000 to
    200000, [formatDateForInput(parseLocalDate(s))] is the date part
    "YYYY-MM-DD" of the string, in every such time zone. *)
Theorem formatDateForInput_parseLocalDate y m d :
  1000 <= y <= 200000 -> 1 <= m <= 12 ->
  1 <= d <= days_in_month (DaysInYear y - 365) m ->
  iso_date y m d
  = (formatDateForInput LocalTZA (parseLocalDate LocalTZA (iso_date y m d))
     ++ "T00:00:00.000Z")%string.
Proof.
  intros Hy Hm Hd.
  pose proof (days_in_month_range (DaysInYear y - 365) m (DaysInYear_leap y)) as Hdm.
  rewrite (parseLocalDate_noon _ (MakeDay y (m - 1) d)).
  - rewrite formatDateForInput_noon.
    apply iso_date_dateKey; [by apply civil_MakeDay | lia].
  - apply startDay_iso_date; lia.
  - apply MakeDay_in_range; lia.
Qed.

(** X28: the calendar marks the start date and the days after it, one per
    day break, as shoot days 1, 2, ...: for a schedule starting on a date
    from the year 1000 on with B day breaks, the day i days after the
    start date (0 <= i <= B) is shoot day i + 1 and no other day is
    marked.  So the calendar holds B + 1 shoot days, which is the count of
    the header when the board has strips and one more when it has none. *)
Theorem calendarMap_days (schedule : Client.Schedule) y m d :
  Client.startDate schedule = Some (iso_date y m d) ->
  1000 <= y -> 1 <= m <= 12 ->
  1 <= d <= days_in_month (DaysInYear y - 365) m ->
  let B := Z.of_nat (length (Client.dayBreaks schedule)) in
  let D0 := MakeDay y (m - 1) d in
  D0 + B < max_day ->
  (forall i, 0 <= i <= B ->
     calendarMap LocalTZA schedule !! dateKey (D0 + i)
     = Some (mkInfo (localNoon LocalTZA (D0 + i)) (i + 1)))
  /\ (forall s, (forall i, 0 <= i <= B -> s <> dateKey (D0 + i)) ->
       calendarMap LocalTZA schedule !! s = None)
  /\ size (calendarMap LocalTZA schedule)
     = match Client.stripSlots schedule with
       | [] => S (totalShootDays schedule)
       | _ :: _ => totalShootDays schedule
       end.
Proof.
  intros Hs Hy Hm Hd B D0 Hmax.
  assert (H1000 : DayFromYear 1000 = -354285) by reflexivity.
  assert (Hc : civil D0 = (y, m, d)) by (by apply civil_MakeDay).
  assert (HD0 : DayFromYear 1000 <= D0).
  { pose proof (YearFromDay_spec D0) as HY.
    assert (E : YearFromDay D0 = y).
    { unfold civil in Hc. injection Hc as E _ _. unfold YearFromTime in E.
      by rewrite Day_MakeDate in E by (unfold msPerDay; lia). }
    rewrite E in HY. pose proof (DayFromYear_mono 1000 y ltac:(lia)). lia. }
  assert (Hstart : startDate_of LocalTZA schedule = Some (localNoon LocalTZA D0)).
  { unfold startDate_of. rewrite Hs.
    assert (Hsd : startDay (iso_date y m d) = Some D0)
      by (apply startDay_iso_date; lia).
    pose proof (startDay_nonempty _ _ Hsd) as Hne.
    destruct (iso_date y m d) as [|c s'] eqn:Ei; [done|].
    f_equal. rewrite <- Ei in *. apply parseLocalDate_noon; [done|].
    unfold max_day in *. lia. }
  unfold calendarMap. rewrite Hstart.
  destruct (mark_days_lookup (length (Client.dayBreaks schedule) + 1) D0 1 ∅
              HD0 ltac:(fold B; lia)) as [L1 L2].
  split; [|split].
  - intros i Hi. rewrite L1 by (fold B; lia).
    by replace (1 + i) with (i + 1) by lia.
  - intros s Hso. rewrite L2; [done|].
    intros i Hi. apply Hso. fold B in Hi. lia.
  - rewrite mark_days_size; [| done | fold B; lia | done].
    rewrite map_size_empty. unfold totalShootDays.
    destruct (Client.stripSlots schedule); cbn [length Nat.ltb Nat.leb]; lia.
Qed.

End Host.

Lemma tzEastern_noon n :
  LocalTime Sample.tzEastern
    (UTC Sample.tzEastern (MakeDate n (MakeTime 12 0 0 0)))
  = MakeDate n (MakeTime 12 0 0 0).
Proof.
  change (MakeTime 12 0 0 0) with 43200000.
  cbv beta iota zeta delta [LocalTime UTC Sample.tzEastern MakeDate msPerDay].
  repeat match goal with
  | |- context [?a <? ?b] => destruct (Z.ltb_spec a b)
  end; lia.
Qed.

Lemma formatDateForInput_parseLocalDate_witness :
  "2026-03-08T00:00:00.000Z"%string
  = (formatDateForInput Sample.tzEastern
       (parseLocalDate Sample.tzEastern "2026-03-08T00:00:00.000Z")
     ++ "T00:00:00.000Z")%string.
Proof.
  exact (formatDateForInput_parseLocalDate Sample.tzEastern tzEastern_bound
           tzEastern_noon 2026 3 8 ltac:(lia) ltac:(lia)
           ltac:(change (1 <= 8 <= 31); lia)).
Defined.

Lemma calendarMap_days_witness :
  calendarMap Sample.tzEastern Sample.scheduleDST !! "2026-03-08"%string
  = Some (mkInfo (localNoon Sample.tzEastern 20520) 2)
  /\ size (calendarMap Sample.tzEastern Sample.scheduleDST) = 3%nat.
Proof.
  destruct (calendarMap_days Sample.tzEastern tzEastern_bound tzEastern_noon
              Sample.scheduleDST 2026 3 7 eq_refl ltac:(lia) ltac:(lia)
              ltac:(change (1 <= 7 <= 31); lia)
              ltac:(vm_compute; reflexivity)) as (H1 & _ & H3).
  split; [exact (H1 1 ltac:(change (0 <= 1 <= 2); lia)) | exact H3].
Defined.

End ShootDayFacts.

(* ===================================================================== *)
(** * Removing a member *)
(* ===================================================================== *)

Section MemberFacts.
Import Access Members.

Lemma filter_filter_absorb {A} (f g : A -> bool) (l : list A) :
  (forall x, f x = true -> g x = true) ->
  List.filter f (List.filter g l) = List.filter f l.
Proof.
  intros H. induction l as [|x l IH]; [done|]. cbn [List.filter].
  destruct (g x) eqn:G; cbn [List.filter].
  - by rewrite IH.
  - destruct (f x) eqn:F; [|done]. apply H in F. congruence.
Qed.

Lemma filter_filter_none {A} (f : A -> bool) (l : list A) :
  List.filter f (List.filter (fun x => negb (f x)) l) = [].
Proof.
  induction l as [|x l IH]; [done|]. cbn [List.filter].
  destruct (f x) eqn:F; cbn [negb List.filter]; [done|]. by rewrite F.
Qed.

Lemma members_of_delete_same st projectId userId :
  members_of (projectMember_delete projectId userId st) projectId userId = [].
Proof. apply filter_filter_none. Qed.

Lemma members_of_delete_other st projectId userId p u :
  (p, u) <> (projectId, userId) ->
  members_of (projectMember_delete projectId userId st) p u = members_of st p u.
Proof.
  intros Hne. unfold members_of, projectMember_delete. cbn [projectMembers].
  apply filter_filter_absorb. intros m Hm. unfold has_key.
  apply andb_true_iff in Hm as [H1%String.eqb_eq H2%String.eqb_eq].
  destruct (String.eqb_spec (member_projectId m) projectId) as [E1|]; [|done].
  destruct (String.eqb_spec (member_userId m) userId) as [E2|]; [|done].
  congruence.
Qed.

(** X29: removing a member.  The route changes the store only when it
    answers 200, and it does so exactly when the caller is signed in and
    is the owner or an ADMIN member of the project, and the user to remove
    is a member who is not the owner.  The removed user then has no access
    to the project, and the access of every other user, and to every other
    project, is what it was.  (An ADMIN member can remove another ADMIN
    and can remove themselves.) *)
Theorem member_DELETE_effect sessionUser projectId memberUserId st :
  let '(r, st') := DELETE sessionUser projectId memberUserId st in
  (status_of r <> 200 -> st' = st)
  /\ (status_of r = 200 <->
        (exists u, sessionUser = Some u /\ u <> ""%string
           /\ canManageMembers (getProjectAccess st projectId u) = true)
        /\ hasAccess (getProjectAccess st projectId memberUserId) = true
        /\ isOwner (getProjectAccess st projectId memberUserId) = false)
  /\ (status_of r = 200 ->
        getProjectAccess st' projectId memberUserId = no_access
        /\ forall p u, (p, u) <> (projectId, memberUserId) ->
             getProjectAccess st' p u = getProjectAccess st p u).
Proof.
  unfold DELETE.
  destruct sessionUser as [[|c u]|]; cbn [status_of].
  1, 3: split; [done|]; split; [|done];
        split; [done|]; intros [(u' & Hu & ? & _) _]; congruence.
  cbv zeta. set (caller := String c u).
  pose proof (access_flags_order st projectId caller) as (N1 & N2 & N3).
  cbv zeta in N1, N2, N3.
  assert (Htarget :
    getProjectAccess st projectId memberUserId
    = match find (fun p => String.eqb (project_id p) projectId) (projects st) with
      | None => no_access
      | Some project =>
          if String.eqb (ownerId project) memberUserId then
            mkAccess true (Some owner) true true true
          else
            match List.filter (has_key projectId memberUserId) (projectMembers st) with
            | [] => no_access
            | membership :: _ =>
                mkAccess true (Some (roleToLevel (role membership)))
                         (role_eqb (role membership) ADMIN
                          || role_eqb (role membership) EDITOR)
                         (role_eqb (role membership) ADMIN) false
            end
      end) by reflexivity.
  destruct (hasAccess (getProjectAccess st projectId caller)) eqn:Ha; cbn [negb].
  2: { cbn [status_of]. split; [done|]. split; [|done].
       split; [done|]. intros [(u' & [= <-] & _ & Hc) _].
       fold caller in Hc. specialize (N3 (N2 Hc)). congruence. }
  destruct (canManageMembers (getProjectAccess st projectId caller)) eqn:Hc;
    cbn [negb andb].
  2: { destruct (isOwner (getProjectAccess st projectId caller)) eqn:Ho;
         [by specialize (N1 eq_refl)|].
       cbn [status_of]. split; [done|]. split; [|done].
       split; [done|]. intros [(u' & [= <-] & _ & Hc') _].
       fold caller in Hc'. congruence. }
  rewrite Htarget.
  destruct (find (fun p => String.eqb (project_id p) projectId) (projects st))
    as [project|] eqn:Hf.
  2: { unfold getProjectAccess in Ha. by rewrite Hf in Ha. }
  destruct (String.eqb (ownerId project) memberUserId) eqn:Hown.
  { cbn [status_of]. split; [done|]. split; [|done].
    split; [done|]. by intros (_ & _ & ?). }
  destruct (List.filter (has_key projectId memberUserId) (projectMembers st))
    as [|membership rest] eqn:Hm.
  { cbn [status_of]. split; [done|]. split; [|done].
    split; [done|]. by intros (_ & ? & _). }
  cbn [status_of hasAccess isOwner]. split; [done|]. split.
  { split; [intros _|done]. split; [|done]. exists caller. by repeat split. }
  intros _. split.
  - unfold getProjectAccess.
    change (projects (projectMember_delete projectId memberUserId st))
      with (projects st).
    rewrite Hf, Hown. by rewrite members_of_delete_same.
  - intros p u' Hne. unfold getProjectAccess.
    change (projects (projectMember_delete projectId memberUserId st))
      with (projects st).
    by rewrite (members_of_delete_other st projectId memberUserId p u' Hne).
Qed.

End MemberFacts.

(* ===================================================================== *)
(** * Reordering the cast *)
(* ===================================================================== *)

Section CharacterFacts.
Import Db Characters.

Variable pid : string.
Variable t : list Character.

(** The primary key of Character. *)
Hypothesis pk : NoDup (map char_id t).

(** The cast of the project is numbered 1..n. *)
Hypothesis numbered :
  map char_number (character_findMany pid t)
  ≡ₚ seqZ 1 (Z.of_nat (length (character_findMany pid t))).

Lemma cast_elem c :
  c ∈ character_findMany pid t <-> c ∈ t /\ char_projectId c = pid.
Proof.
  unfold character_findMany. rewrite !list_elem_of_In, filter_In.
  unfold in_project. by rewrite String.eqb_eq.
Qed.

Lemma numbers_NoDup : NoDup (map char_number (character_findMany pid t)).
Proof.
  change (NoDup (char_number <$> character_findMany pid t)).
  rewrite numbered. apply NoDup_seqZ.
Qed.

Lemma number_range c :
  c ∈ character_findMany pid t ->
  1 <= char_number c <= Z.of_nat (length (character_findMany pid t)).
Proof.
  intros Hc.
  assert (H : char_number c ∈ char_number <$> character_findMany pid t)
    by (by apply list_elem_of_fmap_2).
  change (char_number c ∈ map char_number (character_findMany pid t)) in H.
  rewrite numbered in H. apply elem_of_seqZ in H. lia.
Qed.

Lemma number_exists k :
  1 <= k <= Z.of_nat (length (character_findMany pid t)) ->
  exists c, c ∈ character_findMany pid t /\ char_number c = k.
Proof.
  intros Hk.
  assert (H : k ∈ seqZ 1 (Z.of_nat (length (character_findMany pid t))))
    by (apply elem_of_seqZ; lia).
  rewrite <- numbered in H.
  change (k ∈ char_number <$> character_findMany pid t) in H.
  apply list_elem_of_fmap in H as (c & -> & Hc). by exists c.
Qed.

Lemma find_id c :
  c ∈ t -> find (fun c' => String.eqb (char_id c') (char_id c)) t = Some c.
Proof.
  intros Hc.
  destruct (find _ t) as [c'|] eqn:E.
  - apply find_Some_elem in E as [Hin Hid%String.eqb_eq].
    f_equal. by apply (NoDup_map_inj_on char_id t).
  - apply list_elem_of_In in Hc.
    pose proof (find_none _ _ E c Hc) as H. cbv beta in H.
    by rewrite String.eqb_refl in H.
Qed.

(** On a cast numbered 1..n an update either changes nothing or hits the
    unique index. *)
Lemma update_cases c k :
  c ∈ character_findMany pid t ->
  1 <= k <= Z.of_nat (length (character_findMany pid t)) ->
  character_update (char_id c) k t
  = if char_number c =? k then Some t else None.
Proof.
  intros Hc Hk. pose proof (proj1 (cast_elem c) Hc) as [Hct Hcp].
  unfold character_update. rewrite (find_id c Hct).
  destruct (Z.eqb_spec (char_number c) k) as [E|E].
  - assert (Hex : existsb (fun c' => negb (String.eqb (char_id c') (char_id c))
                            && in_project (char_projectId c) c'
                            && (char_number c' =? k)) t = false).
    { apply not_true_is_false. intros (c' & Hin & H)%existsb_exists.
      apply andb_true_iff in H as [H Hn%Z.eqb_eq].
      apply andb_true_iff in H as [Hid Hp%String.eqb_eq].
      apply list_elem_of_In in Hin.
      assert (Hc' : c' ∈ character_findMany pid t)
        by (apply cast_elem; split; [done|congruence]).
      assert (c' = c) as ->
        by (apply (NoDup_map_inj_on char_number (character_findMany pid t));
            [apply numbers_NoDup|done..|congruence]).
      by rewrite String.eqb_refl in Hid. }
    rewrite Hex. f_equal. rewrite <- (map_id t) at 2.
    apply map_ext_in. intros c' Hin%list_elem_of_In.
    destruct (String.eqb_spec (char_id c') (char_id c)) as [Hid|]; [|done].
    assert (c' = c) as -> by (by apply (NoDup_map_inj_on char_id t)).
    subst k. by destruct c.
  - destruct (number_exists k Hk) as (c' & Hc' & Hn).
    pose proof (proj1 (cast_elem c') Hc') as [Hct' Hcp'].
    assert (Hex : existsb (fun c' => negb (String.eqb (char_id c') (char_id c))
                            && in_project (char_projectId c) c'
                            && (char_number c' =? k)) t = true).
    { apply existsb_exists. exists c'. split; [by apply list_elem_of_In|].
      apply andb_true_iff. split; [|by apply Z.eqb_eq].
      apply andb_true_iff. split.
      - destruct (String.eqb_spec (char_id c') (char_id c)) as [Hid|]; [|done].
        assert (c' = c) as -> by (by apply (NoDup_map_inj_on char_id t)). done.
      - unfold in_project. apply String.eqb_eq. congruence. }
    by rewrite Hex.
Qed.

(** The transaction goes through exactly when it changes nothing. *)
Lemma transaction_cases l : forall index,
  Forall (fun id => exists c, c ∈ character_findMany pid t /\ char_id c = id) l ->
  0 <= index ->
  index + Z.of_nat (length l) <= Z.of_nat (length (character_findMany pid t)) ->
  (transaction l index t = Some t /\ listed_from pid t l (index + 1))
  \/ (transaction l index t = None /\ ~ listed_from pid t l (index + 1)).
Proof.
  induction l as [|id l IH]; intros index Hv H0 Hn.
  { left. split; [done|]. unfold listed_from. cbn [length]. constructor. }
  apply Forall_cons in Hv as [(c & Hc & <-) Hv].
  cbn [length] in Hn.
  assert (Hseq : seqZ (index + 1) (Z.of_nat (length (char_id c :: l)))
                 = (index + 1) :: seqZ (index + 1 + 1) (Z.of_nat (length l))).
  { cbn [length]. rewrite seqZ_cons by lia. do 2 f_equal; lia. }
  cbn [transaction]. rewrite (update_cases c (index + 1) Hc) by lia.
  destruct (Z.eqb_spec (char_number c) (index + 1)) as [E|E].
  - destruct (IH (index + 1) Hv ltac:(lia) ltac:(lia)) as [[-> Hl]|[-> Hl]].
    + left. split; [done|]. unfold listed_from. rewrite Hseq.
      constructor; [by exists c | exact Hl].
    + right. split; [done|]. unfold listed_from. rewrite Hseq.
      intros H. apply Forall2_cons in H as [_ H]. by apply Hl.
  - right. split; [done|]. unfold listed_from. rewrite Hseq.
    intros H. apply Forall2_cons in H as [(c' & Hc' & Hid & Hnum) _].
    apply E. rewrite <- Hnum. f_equal.
    apply (NoDup_map_inj_on char_id t); [done|by apply cast_elem..|done].
Qed.

(** In ascending order the numbers of the cast are 1, 2, ..., n. *)
Lemma sorted_numbers :
  map char_number (orderBy char_number (character_findMany pid t))
  = seqZ 1 (Z.of_nat (length (character_findMany pid t))).
Proof.
  apply (Sorted_unique Z.le).
  - apply Sorted_map_key, orderBy_sorted.
  - apply Sorted_lt_le. by eapply seqZ_sorted.
  - change (char_number <$> orderBy char_number (character_findMany pid t)
            ≡ₚ seqZ 1 (Z.of_nat (length (character_findMany pid t)))).
    rewrite orderBy_perm. exact numbered.
Qed.

Lemma Forall2_same_right {A B} (R : A -> B -> Prop) l1 l2 l :
  (forall x y z, R x z -> R y z -> x = y) ->
  Forall2 R l1 l -> Forall2 R l2 l -> l1 = l2.
Proof.
  intros HR H1. revert l2.
  induction H1 as [|x z l1 l Hx H1 IH]; intros l2 H2.
  - by apply Forall2_nil_inv_r in H2.
  - apply Forall2_cons_inv_r in H2 as (y & l2' & Hy & H2 & ->).
    f_equal; [by eapply HR | by apply IH].
Qed.

(** The ids that name the numbers 1..n one after the other are the ids of
    the cast in ascending order of number. *)
Lemma listed_sorted l :
  listed_from pid t l 1 /\ length l = length (character_findMany pid t)
  <-> l = map char_id (orderBy char_number (character_findMany pid t)).
Proof.
  set (sorted := orderBy char_number (character_findMany pid t)).
  assert (Hlen : length sorted = length (character_findMany pid t))
    by (unfold sorted; by rewrite orderBy_perm).
  assert (Hs : Forall2 (fun id j => exists c, c ∈ character_findMany pid t
                                      /\ char_id c = id /\ char_number c = j)
                       (map char_id sorted)
                       (seqZ 1 (Z.of_nat (length (character_findMany pid t))))).
  { rewrite <- sorted_numbers. fold sorted.
    change (Forall2 (fun id j => exists c, c ∈ character_findMany pid t
                                   /\ char_id c = id /\ char_number c = j)
                    (char_id <$> sorted) (char_number <$> sorted)).
    apply Forall2_fmap, Forall_Forall2_diag, Forall_forall.
    intros c Hc. exists c. split; [|done].
    unfold sorted in Hc. by rewrite orderBy_perm in Hc. }
  split.
  - intros [Hl Hn]. unfold listed_from in Hl. rewrite Hn in Hl.
    refine (Forall2_same_right _ _ _ _ _ Hl Hs).
    intros x y z (c & Hc & <- & Hcz) (c' & Hc' & <- & Hcz').
    f_equal. apply (NoDup_map_inj_on char_number (character_findMany pid t));
      [apply numbers_NoDup|done..|congruence].
  - intros ->. split; [|by rewrite length_map].
    unfold listed_from. by rewrite length_map, Hlen.
Qed.

Lemma has_elem (validIds : list string) id :
  existsb (String.eqb id) validIds = true <-> id ∈ validIds.
Proof.
  rewrite existsb_exists, list_elem_of_In. split.
  - by intros (x & Hx & ->%String.eqb_eq).
  - intros H. exists id. by rewrite String.eqb_refl.
Qed.

Lemma invalidIds_none (validIds l : list string) :
  (0 <? length (List.filter (fun id => negb (existsb (String.eqb id) validIds)) l))%nat
  = false
  <-> Forall (fun id => id ∈ validIds) l.
Proof.
  induction l as [|id l IH]; [by split; [constructor|]|].
  cbn [List.filter]. destruct (existsb (String.eqb id) validIds) eqn:E; cbn [negb].
  - rewrite IH. apply has_elem in E. split.
    + by constructor.
    + by intros [_ H]%Forall_cons.
  - cbn [length]. split; [done|]. intros [H%has_elem _]%Forall_cons. congruence.
Qed.

(** X30: reordering a cast that is numbered 1..n never changes a number.
    The route answers 200 only when [characterIds] lists the cast in the
    order it already has, and then returns it unchanged; for every other
    arrangement of the cast's ids the first update that would change a
    number meets the unique index on (projectId, number), the transaction
    is rolled back and the answer is 500. *)
Theorem characters_reorder_numbered caller characterIds :
  let cast := character_findMany pid t in
  let present := map char_id (orderBy char_number cast) in
  let '(r, t') := POST caller pid characterIds t in
  t' = t
  /\ (status_of r = 200
      <-> authorised caller /\ cast <> [] /\ characterIds = Some present)
  /\ (status_of r = 200 -> r = Success (orderBy char_number cast))
  /\ (status_of r = 500
      <-> authorised caller
          /\ exists l, characterIds = Some l /\ l <> []
               /\ Forall (fun id => id ∈ map char_id cast) l
               /\ length l = length cast /\ l <> present).
Proof.
  intros cast present. unfold POST, authorised.
  assert (Hpl : length present = length cast).
  { unfold present. by rewrite length_map, orderBy_perm. }
  destruct (session_user caller) as [user|]; cycle 1.
  { cbn [status_of]. split; [done|]. split; [|split]; [|done|].
    all: split; [done|]; by intros [[[? ?] _] _]. }
  destruct (hasAccess caller); cbn [negb]; cycle 1.
  { cbn [status_of]. split; [done|]. split; [|split]; [|done|].
    all: split; [done|]; by intros [(_ & ? & _) _]. }
  destruct (negb (canEdit caller) && negb (isOwner caller)) eqn:Hg.
  { cbn [status_of]. split; [done|]. split; [|split]; [|done|].
    all: split; [done|]; intros [(_ & _ & [He|Ho]) _].
    all: rewrite ?He, ?Ho, ?andb_false_r in Hg; done. }
  assert (Hauth : is_Some (Some user) /\ true = true
                  /\ (canEdit caller = true \/ isOwner caller = true)).
  { split; [by eexists|]. split; [done|].
    destruct (canEdit caller), (isOwner caller); try done; tauto. }
  clear Hg.
  destruct characterIds as [[|id l']|]; cbn [status_of].
  1: { split; [done|]. split; [|split]; [|done|]; (split; [done|]).
       - intros (_ & Hne & [= E]). exfalso. apply Hne, length_zero_iff_nil.
         by rewrite <- Hpl, <- E.
       - by intros (_ & l & [= <-] & Hne & _). }
  2: { split; [done|]. split; [|split]; [|done|]; (split; [done|]).
       - by intros (_ & _ & ?).
       - by intros (_ & l & ? & _). }
  set (l := id :: l') in *.
  cbv zeta. fold cast.
  destruct (0 <? length (List.filter _ l))%nat eqn:Hinv.
  { cbn [status_of]. split; [done|]. split; [|split]; [|done|]; (split; [done|]).
    - intros (_ & _ & [= E]). exfalso.
      assert (Hok : Forall (fun id => id ∈ map char_id cast) l).
      { rewrite E. apply Forall_forall. intros x Hx.
        change (x ∈ char_id <$> orderBy char_number cast) in Hx.
        by rewrite orderBy_perm in Hx. }
      apply invalidIds_none in Hok. congruence.
    - intros (_ & l0 & [= <-] & _ & Hv & _).
      apply invalidIds_none in Hv. congruence. }
  apply invalidIds_none in Hinv.
  destruct (Nat.eqb_spec (length l) (length cast)) as [Hlen|Hlen]; cbn [negb];
    cycle 1.
  { cbn [status_of]. split; [done|]. split; [|split]; [|done|]; (split; [done|]).
    - intros (_ & _ & [= E]). exfalso. apply Hlen. by rewrite E.
    - by intros (_ & l0 & [= <-] & _ & _ & ? & _). }
  assert (Hv : Forall (fun id => exists c, c ∈ character_findMany pid t
                                     /\ char_id c = id) l).
  { eapply Forall_impl; [exact Hinv|]. cbv beta.
    intros x Hx. change (x ∈ char_id <$> cast) in Hx.
    apply list_elem_of_fmap in Hx as (c & -> & Hc). by exists c. }
  destruct (transaction_cases l 0 Hv ltac:(lia) ltac:(fold cast; lia))
    as [[-> Hl]|[-> Hl]]; cbn [status_of]; change (0 + 1) with 1 in Hl.
  - assert (E : l = present) by (by apply listed_sorted).
    split; [done|]. split; [|split]; [|done|].
    + split; [intros _|done]. split; [done|]. split; [|by rewrite E].
      intros Hc. fold cast in Hlen. by rewrite Hc in Hlen.
    + split; [done|]. by intros (_ & l0 & [= <-] & _ & _ & _ & ?).
  - assert (E : l <> present)
      by (intros E; apply Hl; by apply listed_sorted).
    split; [done|]. split; [|split]; [|done|].
    + split; [done|]. by intros (_ & _ & [= ?]).
    + split; [intros _|done]. split; [done|]. exists l. by repeat split.
Qed.

End CharacterFacts.

Section CharacterExamples.
Import Db Characters.

Lemma characters_reorder_numbered_witness :
  POST sampleEditor "p1" (Some ["c2"; "c1"; "c3"]%string) sampleCast
  = (Error 500 "Failed to reorder characters", sampleCast)
  /\ status_of (fst (POST sampleEditor "p1" (Some ["c1"; "c2"; "c3"]%string)
                          sampleCast)) = 200.
Proof.
  assert (Hpk : NoDup (map char_id sampleCast))
    by (apply (bool_decide_unpack _); vm_compute; reflexivity).
  assert (Hnum : map char_number (character_findMany "p1" sampleCast)
                 ≡ₚ seqZ 1 (Z.of_nat (length (character_findMany "p1" sampleCast))))
    by reflexivity.
  split.
  - pose proof (characters_reorder_numbered "p1" sampleCast Hpk Hnum sampleEditor
                  (Some ["c2"; "c1"; "c3"]%string)) as H.
    cbv zeta in H.
    destruct (POST sampleEditor "p1" (Some ["c2"; "c1"; "c3"]%string) sampleCast)
      as [r t'] eqn:E.
    destruct H as (-> & _ & _ & H500).
    vm_compute in E. by injection E as <-.
  - pose proof (characters_reorder_numbered "p1" sampleCast Hpk Hnum sampleEditor
                  (Some ["c1"; "c2"; "c3"]%string)) as H.
    cbv zeta in H.
    destruct (POST sampleEditor "p1" (Some ["c1"; "c2"; "c3"]%string) sampleCast)
      as [r t'].
    destruct H as (_ & H200 & _). apply H200.
    split; [|split; [done|reflexivity]].
    split; [by eexists|]. split; [done|by left].
Defined.

End CharacterExamples.
